(** * konvertorMzdy: the CSV cleaner and the CSV -> XML assembler

    A shallow embedding of [clean_csv_header.py] and [create_xml_file.py],
    and of the header search of [konvertor_app.py].
    Python [str] values are sequences of Unicode code points, lists and
    dicts are lists and finite maps, exceptions are the left summand of a
    sum type.  The first half of the file holds the definitions, module by
    module as in the repository; the second half holds the proofs. *)

From Stdlib Require Import NArith Ascii String.
From stdpp Require Import base option list gmap sorting.

Set Default Proof Using "Type*".

(** ** Python text *)

(** A Python [str]: the list of its code points. *)
Abbreviation pystr := (list N).

Module Py.

(** UTF-8 decoding of a literal of this file, so that literals can be
    written as they stand in the Python sources. *)
Fixpoint bytes_of (s : string) : list N :=
  match s with
  | EmptyString => []
  | String a s' => N_of_ascii a :: bytes_of s'
  end.

Fixpoint utf8_go (acc : N) (k : nat) (bs : list N) : list N :=
  match bs with
  | [] => []
  | b :: bs' =>
      match k with
      | O => if (b <? 128)%N then b :: utf8_go 0 0 bs'
             else if (b <? 224)%N then utf8_go (b - 192) 1 bs'
             else if (b <? 240)%N then utf8_go (b - 224) 2 bs'
             else utf8_go (b - 240) 3 bs'
      | S O => (acc * 64 + (b - 128))%N :: utf8_go 0 0 bs'
      | S k' => utf8_go (acc * 64 + (b - 128)) k' bs'
      end
  end.

Definition lit (s : string) : pystr := utf8_go 0 0 (bytes_of s).

Definition SPACE : N := 32.
Definition NBSP : N := 160.
Definition LF : N := 10.
Definition CR : N := 13.
Definition QUOT : N := 34.

(** Truth value of a string: [bool(s)]. *)
Definition truthy (s : pystr) : bool :=
  match s with [] => false | _ :: _ => true end.

(** [x or ""] for an optional string. *)
Definition or_empty (v : option pystr) : pystr := default [] v.

(** [c.isspace()]: the code points [str.strip()] removes. *)
Definition isspace (c : N) : bool :=
  ((9 <=? c) && (c <=? 13) || (28 <=? c) && (c <=? 32)
   || (c =? 133) || (c =? 160) || (c =? 5760)
   || (8192 <=? c) && (c <=? 8202)
   || (c =? 8232) || (c =? 8233) || (c =? 8239) || (c =? 8287)
   || (c =? 12288))%N.

Fixpoint lstrip (s : pystr) : pystr :=
  match s with
  | [] => []
  | c :: s' => if isspace c then lstrip s' else s
  end.

Definition rstrip (s : pystr) : pystr := reverse (lstrip (reverse s)).

(** [s.strip()] *)
Definition strip (s : pystr) : pystr := rstrip (lstrip s).

(** [s.startswith(p)] *)
Fixpoint startswith (p s : pystr) : bool :=
  match p, s with
  | [], _ => true
  | _ :: _, [] => false
  | a :: p', b :: s' => (a =? b)%N && startswith p' s'
  end.

(** [p in s] *)
Fixpoint contains (p s : pystr) : bool :=
  startswith p s || match s with [] => false | _ :: s' => contains p s' end.

(** [sep.join(l)] *)
Fixpoint join (sep : pystr) (l : list pystr) : pystr :=
  match l with
  | [] => []
  | x :: l' => match l' with [] => x | _ :: _ => x ++ sep ++ join sep l' end
  end.

(** [s.replace(old, new)] for a one-character [old]. *)
Definition replace (old : N) (new : pystr) (s : pystr) : pystr :=
  flat_map (λ c, if (c =? old)%N then new else [c]) s.

(** [s.count(c)] for a one-character [c]. *)
Definition count (c : N) (s : pystr) : nat :=
  length (filter (λ x, x = c) s).

(** The characters at which [str.splitlines()] breaks a line. *)
Definition is_linebreak (c : N) : bool :=
  ((10 <=? c) && (c <=? 13) || (28 <=? c) && (c <=? 30)
   || (c =? 133) || (c =? 8232) || (c =? 8233))%N.

(** [s.splitlines()]: [cur] is the line being read, in reverse; a CR LF
    pair is one break; no empty last line is produced. *)
Fixpoint splitlines_go (cur : pystr) (s : pystr) : list pystr :=
  match s with
  | [] => match cur with [] => [] | _ :: _ => [reverse cur] end
  | c :: s' =>
      if is_linebreak c then
        match s' with
        | c' :: s'' =>
            if (c =? CR)%N && (c' =? LF)%N
            then reverse cur :: splitlines_go [] s''
            else reverse cur :: splitlines_go [] s'
        | [] => [reverse cur]
        end
      else splitlines_go (c :: cur) s'
  end.

Definition splitlines (s : pystr) : list pystr := splitlines_go [] s.

(** The parts of the Unicode database the programs consult: [str.lower()]
    and [unicodedata.normalize("NFKD", _)].  They are tables of the Python
    run time, not code of the repository, and stay abstract; the only fact
    used about them is that the empty string has no upper-case letters. *)
Class Unicode := {
  lower : pystr → pystr;
  nfkd : pystr → pystr;
  lower_nil : lower [] = [];
}.

(** Exceptions the programs raise or let escape. *)
Inductive exn :=
  | RuntimeError (msg : pystr)
  | SystemExit (msg : pystr)
  | IndexError
  | KeyError
  | ExpatError.

End Py.

Abbreviation result A := (Py.exn + A)%type.

#[global] Instance result_ret : MRet (sum Py.exn) := λ A x, inr x.
#[global] Instance result_bind : MBind (sum Py.exn) :=
  λ A B f m, match m with inl e => inl e | inr a => f a end.

(** [raise e] *)
Definition raise {A} (e : Py.exn) : result A := inl e.

(** [for x in l: st = step(st, x)] with exceptions. *)
Fixpoint foldlM {S A} (step : S → A → result S) (st : S) (l : list A) : result S :=
  match l with
  | [] => mret st
  | x :: l' => st' ← step st x; foldlM step st' l'
  end.

(** [[i for i, x in enumerate(l) if f(x)]], counting from [i]. *)
Fixpoint indices_where {A} (f : A → bool) (i : nat) (l : list A) : list nat :=
  match l with
  | [] => []
  | x :: l' => if f x then i :: indices_where f (S i) l' else indices_where f (S i) l'
  end.

(** [l[i]], which raises [IndexError] out of range. *)
Definition getitem {A} (l : list A) (i : nat) : result A :=
  match l !! i with Some x => mret x | None => raise Py.IndexError end.

(** [l[i] = x], which raises [IndexError] out of range. *)
Definition setitem {A} (l : list A) (i : nat) (x : A) : result (list A) :=
  match l !! i with Some _ => mret (<[i:=x]> l) | None => raise Py.IndexError end.

(** A row of a CSV table and a table. *)
Abbreviation row := (list pystr).
Abbreviation table := (list (list pystr)).

(** ** clean_csv_header.py *)

Module Clean.
Import Py.

Definition s_Nazov : pystr := Eval vm_compute in lit "Názov".
Definition s_Ucet_MD : pystr := Eval vm_compute in lit "Účet MD".
Definition s_Ucet_Dal : pystr := Eval vm_compute in lit "Účet Dal".
Definition s_semicolon : pystr := Eval vm_compute in lit ";".
Definition s_Vypracoval : pystr := Eval vm_compute in lit "Vypracoval:".
Definition s_vyplata : pystr := Eval vm_compute in lit "výplata v hotovosti".
Definition msg_no_header : pystr :=
  Eval vm_compute in lit "Nepodarilo sa nájsť hlavičkový riadok.".
Definition msg_no_encoding : pystr :=
  Eval vm_compute in lit "Nepodarilo sa rozpoznať kódovanie súboru.".

(** The encodings [detect_encoding] tries, in its order. *)
Inductive encoding := utf_8_sig | cp1250 | latin_1.

(** Whether [path.open("r", encoding=enc)] followed by [f.read(2000)]
    returns ([true]) or raises ([false]).  latin-1 gives every byte the code
    point of the same number, so reading with it cannot raise; the decoders
    of the other two encodings are tables of the run time and are taken as
    [strict] (the text read is thrown away by the caller). *)
Definition readable (strict : encoding → list N → bool)
    (enc : encoding) (raw : list N) : bool :=
  match enc with
  | latin_1 => true
  | _ => strict enc raw
  end.

(** The loop of [detect_encoding] over its candidates. *)
Fixpoint first_readable (strict : encoding → list N → bool)
    (encs : list encoding) (raw : list N) : result encoding :=
  match encs with
  | [] => raise (RuntimeError msg_no_encoding)
  | enc :: encs' =>
      if readable strict enc raw then mret enc
      else first_readable strict encs' raw
  end.

Definition detect_encoding (strict : encoding → list N → bool)
    (raw : list N) : result encoding :=
  first_readable strict [utf_8_sig; cp1250; latin_1] raw.

Definition clean_str (s : option pystr) : pystr :=
  match s with
  | None => []
  | Some s => strip (replace NBSP [SPACE] s)
  end.

Definition is_empty_row (r : row) : bool :=
  negb (existsb (λ c, truthy (clean_str (Some c))) r).

(** The test of the first loop of [find_header_index]. *)
Definition header_primary (r : row) : bool :=
  let joined := join s_semicolon r in
  match r with
  | [] => false
  | c :: _ =>
      bool_decide (clean_str (Some c) = s_Nazov)
      && contains s_Ucet_MD joined && contains s_Ucet_Dal joined
  end.

(** The test of its second loop. *)
Definition header_fallback (r : row) : bool :=
  let joined := join s_semicolon r in
  contains s_Nazov joined && contains s_Ucet_MD joined && contains s_Ucet_Dal joined.

Definition find_header_index (rows : table) : result nat :=
  match list_find (λ r, header_primary r = true) rows with
  | Some (i, _) => mret i
  | None =>
      match list_find (λ r, header_fallback r = true) rows with
      | Some (i, _) => mret i
      | None => raise (RuntimeError msg_no_header)
      end
  end.

(** [wanted_patterns.values()], in the order of the dict. *)
Definition wanted_patterns : list (list pystr) :=
  Eval vm_compute in
  [ [lit "názov"; lit "nazov"];
    [lit "účet md"; lit "ucet md"; lit "md"];
    [lit "účet dal"; lit "ucet dal"; lit "dal"];
    [lit "stred"; lit "stred."];
    [lit "zák"; lit "zak"; lit "zák."; lit "zak."];
    [lit "činn"; lit "cinn"; lit "činn."; lit "cinn."] ].

Definition target_patterns : list pystr :=
  Eval vm_compute in
  [ lit "účet md"; lit "ucet md"; lit "účet dal"; lit "ucet dal";
    lit "stred"; lit "zák"; lit "zak"; lit "činn"; lit "cinn" ].

Definition s_cinn : pystr := Eval vm_compute in lit "činn".
Definition s_cinn_ascii : pystr := Eval vm_compute in lit "cinn".

(** [set(nonempty) == want if nonempty else False], the shape both
    summary tests share. *)
Definition nonempty_cells (r : row) : list nat :=
  indices_where (λ c, truthy (clean_str (Some c))) 0 r.

Definition nonempty_is (r : row) (want : gset nat) : bool :=
  match nonempty_cells r with
  | [] => false
  | js => bool_decide (list_to_set js = want)
  end.

Definition is_summary_variant1 (r : row) (cinn_idx : nat) : bool :=
  nonempty_is r {[0; cinn_idx]}.

Definition is_summary_variant2 (r : row) (cinn_idx : nat) : bool :=
  nonempty_is r {[cinn_idx]}.

(** The local variables of [forward_fill_from_summary]. *)
Record fill_state := {
  out : table;
  current_group_name : option pystr;
  filled : nat;
  removed : nat;
}.

(** One turn of its loop. *)
Definition fill_step (cinn_idx : nat) (st : fill_state) (r : row) : result fill_state :=
  if is_summary_variant1 r cinn_idx then
    c ← getitem r 0;
    mret {| out := out st; current_group_name := Some (clean_str (Some c));
            filled := filled st; removed := S (removed st) |}
  else if is_summary_variant2 r cinn_idx then
    mret {| out := out st; current_group_name := current_group_name st;
            filled := filled st; removed := S (removed st) |}
  else
    let first_clean := match r with [] => [] | c :: _ => clean_str (Some c) end in
    '(r', filled') ←
      (if negb (truthy first_clean) && truthy (or_empty (current_group_name st))
       then r' ← setitem r 0 (or_empty (current_group_name st)); mret (r', S (filled st))
       else mret (r, filled st));
    mret {| out := out st ++ [r'];
            current_group_name :=
              if truthy first_clean then None else current_group_name st;
            filled := filled'; removed := removed st |}.

Definition forward_fill_from_summary (rows : table) (cinn_idx : nat)
    : result (table * nat * nat) :=
  match rows with
  | [] => mret (rows, 0, 0)
  | header :: data =>
      st ← foldlM (fill_step cinn_idx)
             {| out := [header]; current_group_name := None; filled := 0; removed := 0 |}
             data;
      mret (out st, filled st, removed st)
  end.

Section with_unicode.
Context `{Unicode}.

Definition normalize (s : pystr) : pystr := lower (clean_str (Some s)).

(** [any(p in name for p in patterns)] *)
Definition any_in (patterns : list pystr) (name : pystr) : bool :=
  existsb (λ p, contains p name) patterns.

(** The body of the loop over [norm] in [select_required_columns]: does
    some entry of [wanted_patterns] accept the normalized header cell? *)
Definition wanted (name : pystr) : bool :=
  existsb (λ patterns, any_in patterns name) wanted_patterns.

Definition keep_indices (header : row) : list nat :=
  indices_where wanted 0 (normalize <$> header).

Definition select_required_columns (rows : table) : table :=
  match rows with
  | [] => rows
  | header :: _ =>
      match keep_indices header with
      | [] => rows
      | keep => (λ r, (λ i, default [] (r !! i)) <$> keep) <$> rows
      end
  end.

Definition numeric_indices (header : row) : list nat :=
  indices_where (any_in target_patterns) 0 (normalize <$> header).

(** The inner loop of [strip_spaces_in_numeric_cols] over one row. *)
Definition strip_row (idx : list nat) (r : row) : row :=
  foldl (λ new_row i,
           match new_row !! i with
           | Some c => <[i := replace SPACE [] (replace NBSP [SPACE] c)]> new_row
           | None => new_row
           end) r idx.

Definition strip_spaces_in_numeric_cols (rows : table) (header_names : row) : table :=
  match rows with
  | [] => rows
  | header :: data => header :: (strip_row (numeric_indices header) <$> data)
  end.

Definition find_cinn_col_index (header_row : row) : nat :=
  match indices_where (λ name, contains s_cinn name || contains s_cinn_ascii name)
          0 (normalize <$> header_row) with
  | i :: _ => i
  | [] => match header_row with [] => 0 | _ :: _ => length header_row - 1 end
  end.

(** The test of the last filter of [clean_csv], with [name_idx = 0]. *)
Definition is_hotovost (r : row) : bool :=
  match r !! 0 with
  | Some c => bool_decide (lower (clean_str (Some c)) = s_vyplata)
  | None => false
  end.

(** What a run of [clean_csv] leaves behind once the table is not empty:
    the locals of steps 6 to 7b. *)
Record folded := {
  header : row;
  cinn_idx : nat;
  filled_count : nat;
  removed_summaries : nat;
  removed_last : bool;
  removed_hotovost : nat;
}.

(** A finished run: the rows handed to [writerows] and what is printed. *)
Record run := {
  header_index : nat;
  end_index : option nat;
  summary : option folded;
  clean_rows : table;
}.

(** Steps 1 to 5 of [clean_csv]: from the parsed rows to the table cut at
    the trailer. *)
Definition before_fold (rows : table) : result (nat * option nat * table) :=
  header_index ← find_header_index rows;
  let clean_rows := drop header_index rows in
  let clean_rows := select_required_columns clean_rows in
  clean_rows ← (match clean_rows with
                | [] => raise IndexError
                | h :: _ => mret (strip_spaces_in_numeric_cols clean_rows h)
                end);
  let clean_rows := List.filter (λ r, negb (is_empty_row r)) clean_rows in
  let end_index :=
    fst <$> list_find
      (λ r, startswith s_Vypracoval
              (clean_str (Some (match r with [] => [] | c :: _ => c end))) = true)
      clean_rows in
  let clean_rows :=
    match end_index with Some e => take e clean_rows | None => clean_rows end in
  mret (header_index, end_index, clean_rows).

(** [clean_csv], from the rows the CSV reader returned. *)
Definition clean_csv (rows : table) : result run :=
  '(header_index, end_index, clean_rows) ← before_fold rows;
  match clean_rows with
  | [] => mret {| header_index := header_index; end_index := end_index;
                  summary := None; clean_rows := [] |}
  | header :: _ =>
      let cinn_idx := find_cinn_col_index header in
      '(clean_rows, filled_count, removed_summaries) ←
        forward_fill_from_summary clean_rows cinn_idx;
      let removed_last :=
        bool_decide (1 < length clean_rows)
        && match last clean_rows with
           | Some l => is_summary_variant1 l cinn_idx || is_summary_variant2 l cinn_idx
           | None => false
           end in
      let clean_rows :=
        if removed_last then take (length clean_rows - 1) clean_rows else clean_rows in
      let removed_summaries :=
        if removed_last then S removed_summaries else removed_summaries in
      header ← getitem clean_rows 0;
      let before := length clean_rows in
      let clean_rows := List.filter (λ r, negb (is_hotovost r)) clean_rows in
      mret {| header_index := header_index; end_index := end_index;
              summary := Some {| header := header; cinn_idx := cinn_idx;
                                 filled_count := filled_count;
                                 removed_summaries := removed_summaries;
                                 removed_last := removed_last;
                                 removed_hotovost := before - length clean_rows |};
              clean_rows := clean_rows |}
  end.

(** *** What the table is checked against *)

(** A cell that holds neither a space nor a no-break space. *)
Definition spaceless (c : pystr) : Prop := (SPACE ∉ c) ∧ (NBSP ∉ c).

(** [i] is the index of the first row of [rows] that passes [rule]. *)
Definition first_match (rule : row → bool) (rows : table) (i : nat) : Prop :=
  (∃ r, rows !! i = Some r ∧ rule r = true)
  ∧ ∀ j r, rows !! j = Some r → j < i → rule r = false.

(** The invariants of a data row of the normalized table, for the
    Activity column [cinn_idx] and the numeric columns [idx]: not blank,
    no summary row of either variant, no space or no-break space in a
    numeric cell. *)
Definition normalized_row (cinn_idx : nat) (idx : list nat) (r : row) : Prop :=
  is_empty_row r = false
  ∧ is_summary_variant1 r cinn_idx = false
  ∧ is_summary_variant2 r cinn_idx = false
  ∧ ∀ i c, i ∈ idx → r !! i = Some c → spaceless c.

(** What the folder may assume of a row when steps 3 and 4 have run, for
    the numeric columns [idx]; and of a pending group name, read from the
    first cell of such a row. *)
Definition incoming (idx : list nat) (p : row) : Prop :=
  is_empty_row p = false ∧ ∀ i c, i ∈ idx → p !! i = Some c → spaceless c.

Definition pending_ok (idx : list nat) (g : option pystr) : Prop :=
  ∀ s, g = Some s → 0 ∈ idx → spaceless s.

(** The row [r] is the row [p] with, at most, its blank first cell
    overwritten. *)
Definition filled_from (p r : row) : Prop :=
  r = p ∨ ∃ c cells g, p = c :: cells ∧ clean_str (Some c) = [] ∧ r = g :: cells.

(** What steps 2 and 3 of [clean_csv] make of a data row [r] under the
    located header row [h]: the projection on the kept columns (none when
    no column is kept), then the clean-up of the numeric cells. *)
Definition project (keep : list nat) (r : row) : row :=
  match keep with
  | [] => r
  | _ :: _ => (λ i, default [] (r !! i)) <$> keep
  end.

Definition prepared (h : row) (r : row) : row :=
  let keep := keep_indices h in
  strip_row (numeric_indices (project keep h)) (project keep r).

(** The row [r] of the cleaned table stems from the source row [s]: it is
    the prepared row, except that a blank Name cell may have been filled. *)
Definition came_from (h : row) (r s : row) : Prop :=
  filled_from (prepared h s) r.

End with_unicode.
End Clean.

(** ** create_xml_file.py *)

Module Xml.
Import Py.

Definition DOC_ATTRS : list pystr :=
  Eval vm_compute in
  [ lit "cislo_ud"; lit "datum_ud"; lit "mandant_id";
    lit "druh_ud"; lit "typ_ud"; lit "text_ud" ].

(** The keys of [CSV_HEADERS], in the order of the dict. *)
Inductive field := nazov | ucet_md | ucet_dal | stred | zak | cinn.

Definition fields : list field := [nazov; ucet_md; ucet_dal; stred; zak; cinn].

#[global] Instance field_eq_dec : EqDecision field.
Proof. solve_decision. Defined.

Definition CSV_HEADERS (k : field) : pystr :=
  Eval vm_compute in
  match k with
  | nazov => lit "Názov"
  | ucet_md => lit "Účet MD"
  | ucet_dal => lit "Účet Dal"
  | stred => lit "Stred."
  | zak => lit "Zák."
  | cinn => lit "Činn."
  end.

Definition k_suma : pystr := Eval vm_compute in lit "suma".
Definition k_ucet : pystr := Eval vm_compute in lit "ucet".
Definition k_strana : pystr := Eval vm_compute in lit "strana".
Definition k_os : pystr := Eval vm_compute in lit "os".
Definition k_eo : pystr := Eval vm_compute in lit "eo".
Definition k_text_pud : pystr := Eval vm_compute in lit "text_pud".

(** [ORDER] of [build_xml]; [ITEM_ATTRS] holds the same list. *)
Definition ORDER : list pystr := [k_suma; k_ucet; k_strana; k_os; k_eo; k_text_pud].

Definition s_M : pystr := Eval vm_compute in lit "M".
Definition s_D : pystr := Eval vm_compute in lit "D".
Definition s_comma_space : pystr := Eval vm_compute in lit ", ".
Definition COMMA : N := 44.
Definition PERIOD : N := 46.

(** The encodings [detect_encoding] tries, in its order. *)
Inductive encoding := utf_8_sig | utf_8 | cp1250.

(** The loop of [detect_encoding]: [strict enc raw] tells whether
    [raw.decode(enc)] returns. *)
Fixpoint first_decodable (strict : encoding → list N → bool)
    (encs : list encoding) (raw : list N) : option encoding :=
  match encs with
  | [] => None
  | enc :: encs' =>
      if strict enc raw then Some enc else first_decodable strict encs' raw
  end.

Definition detect_encoding (strict : encoding → list N → bool)
    (raw : list N) : encoding * list N :=
  match first_decodable strict [utf_8_sig; utf_8; cp1250] raw with
  | Some enc => (enc, raw)
  | None => (utf_8, raw)
  end.

(** The first two lines of [read_csv]; [replacing enc raw] is
    [raw.decode(enc, errors="replace")], which puts U+FFFD where [strict]
    would raise. *)
Definition read_text (strict : encoding → list N → bool)
    (replacing : encoding → list N → pystr) (raw : list N) : pystr :=
  let '(enc, raw) := detect_encoding strict raw in
  replacing enc raw.

Definition to_amount (v : option pystr) : pystr :=
  let v := strip (or_empty v) in
  let v := replace SPACE [] v in
  if bool_decide (count COMMA v = 1) && bool_decide (count PERIOD v = 0)
  then replace COMMA [PERIOD] v
  else v.

(** The amount rule in the words of the specification, for comparison
    with [to_amount]: strip all spaces; if the value then holds exactly one
    comma and no period, replace the comma with a period; pass anything
    else through. *)
Definition amount_rule (v : pystr) : pystr :=
  let w := replace SPACE [] v in
  if bool_decide (count COMMA w = 1 ∧ count PERIOD w = 0)
  then replace COMMA [PERIOD] w
  else w.

(** An [ET.Element] without text: tag, attributes in the order they were
    set, children. *)
#[local] Unset Elimination Schemes.
Inductive element :=
  Element (tag : pystr) (attrib : list (pystr * pystr)) (children : list element).
#[local] Set Elimination Schemes.

Definition tag (e : element) : pystr := let 'Element t _ _ := e in t.
Definition attrib (e : element) : list (pystr * pystr) := let 'Element _ a _ := e in a.
Definition children (e : element) : list element := let 'Element _ _ c := e in c.

(** [el.set(key, v)] on the attribute dict: a new key goes last, a known
    key keeps its place. *)
Fixpoint attr_set (a : list (pystr * pystr)) (key v : pystr) : list (pystr * pystr) :=
  match a with
  | [] => [(key, v)]
  | (k, w) :: a' => if decide (k = key) then (k, v) :: a' else (k, w) :: attr_set a' key v
  end.

(** [el.get(key)] *)
Fixpoint attr_get (a : list (pystr * pystr)) (key : pystr) : option pystr :=
  match a with
  | [] => None
  | (k, w) :: a' => if decide (k = key) then Some w else attr_get a' key
  end.

(** The loop shared by the document element and [write_item]: for each
    key, the trimmed value is set unless it is empty and [keep_empty] is
    off. *)
Definition set_attrs (keep_empty : bool) (keys : list pystr)
    (get : pystr → pystr) (a : list (pystr * pystr)) : list (pystr * pystr) :=
  foldl (λ a k,
           let v := strip (get k) in
           if bool_decide (v = []) && negb keep_empty then a else attr_set a k v)
        a keys.

(** A row of [csv.DictReader]: a missing cell is [None]. *)
Abbreviation dictrow := (gmap pystr (option pystr)).

(** [r.get(key, "")] *)
Definition row_get (r : dictrow) (key : pystr) : option pystr :=
  default (Some []) (r !! key).

(** [cols], the dict [ensure_required_columns] returns. *)
Abbreviation columns := (field → pystr).

(** [m_attrs] and [d_attrs] of one row. *)
Definition item_attrs (cols : columns) (r : dictrow) (side : pystr) (account : field)
    : gmap pystr pystr :=
  let text_pud := strip (or_empty (row_get r (cols nazov))) in
  let os_val := strip (or_empty (row_get r (cols stred))) in
  let eo_val := strip (or_empty (row_get r (cols zak))) in
  let suma_val := to_amount (row_get r (cols cinn)) in
  let ucet := strip (or_empty (row_get r (cols account))) in
  <[k_strana := side]> (<[k_ucet := ucet]> (<[k_suma := suma_val]>
    (<[k_eo := eo_val]> (<[k_os := os_val]> (<[k_text_pud := text_pud]> ∅))))).

Definition m_attrs (cols : columns) (r : dictrow) : gmap pystr pystr :=
  item_attrs cols r s_M ucet_md.

Definition d_attrs (cols : columns) (r : dictrow) : gmap pystr pystr :=
  item_attrs cols r s_D ucet_dal.

Definition s_polozka_ud : pystr := Eval vm_compute in lit "polozka_ud".
Definition s_uctovny_doklad : pystr := Eval vm_compute in lit "uctovny_doklad".
Definition s_uctovne_doklady : pystr := Eval vm_compute in lit "uctovne_doklady".

(** [write_item]: the new child of [parent]. *)
Definition write_item (keep_empty : bool) (attrs : gmap pystr pystr) : element :=
  Element s_polozka_ud
    (set_attrs keep_empty ORDER (λ key, default [] (attrs !! key)) []) [].

Definition build_xml (doc_attrs : gmap pystr pystr) (rows : list dictrow)
    (cols : columns) (keep_empty : bool) : element :=
  let doc_a :=
    set_attrs keep_empty DOC_ATTRS (λ k, default [] (doc_attrs !! k)) [] in
  let m_buffer := m_attrs cols <$> rows in
  let d_buffer := d_attrs cols <$> rows in
  let items := (write_item keep_empty <$> m_buffer) ++ (write_item keep_empty <$> d_buffer) in
  Element s_uctovne_doklady [] [Element s_uctovny_doklad doc_a items].

(** The items of an assembled document: the children of its one
    [uctovny_doklad] element. *)
Definition items_of (root : element) : list element :=
  match children root with
  | [doc] => children doc
  | _ => []
  end.

(** *** Serialization *)

Definition s_lt : pystr := Eval vm_compute in lit "<".
Definition s_gt : pystr := Eval vm_compute in lit ">".
Definition s_lt_slash : pystr := Eval vm_compute in lit "</".
Definition s_slash_gt : pystr := Eval vm_compute in lit "/>".
Definition s_eq_quot : pystr := [61; QUOT]%N.
Definition s_newline : pystr := [LF].
Definition s_indent : pystr := [SPACE; SPACE].
Definition s_xml_prefix : pystr := Eval vm_compute in lit "<?xml".
(** [<?xml version="1.0" ?>], the line [toprettyxml] starts with. *)
Definition s_minidom_decl : pystr :=
  Eval vm_compute in
  lit "<?xml version=" ++ [QUOT] ++ lit "1.0" ++ [QUOT] ++ lit " ?>".
(** [<?xml version="1.0"?>], the line [main] writes. *)
Definition s_decl : pystr :=
  Eval vm_compute in
  lit "<?xml version=" ++ [QUOT] ++ lit "1.0" ++ [QUOT] ++ lit "?>".

(** The characters an XML 1.0 document may hold. *)
Definition xml_char (c : N) : bool :=
  ((c =? 9) || (c =? 10) || (c =? 13) || (32 <=? c) && (c <=? 55295)
   || (57344 <=? c) && (c <=? 65533) || (65536 <=? c) && (c <=? 1114111))%N.

(** Does every character of the tree (tags, attribute names and values)
    pass [ok]? *)
Fixpoint all_text (ok : N → bool) (e : element) : bool :=
  let 'Element t a cs := e in
  forallb ok t
  && forallb (λ kv, forallb ok kv.1 && forallb ok kv.2) a
  && (fix go (cs : list element) : bool :=
        match cs with [] => true | c :: cs' => all_text ok c && go cs' end) cs.

(** [minidom.parseString(ET.tostring(elem, encoding="utf-8"))]: the
    writer escapes what it must and the parser undoes it, so the tree comes
    back as it was, unless it holds a character XML does not allow, which
    the parser refuses. *)
Definition reparse (e : element) : result element :=
  if all_text xml_char e then mret e else raise ExpatError.

(** [_write_data] of [xml.dom.minidom] (CPython 3.11). *)
Definition write_data (data : pystr) : pystr :=
  replace 62 (lit "&gt;") (replace QUOT (lit "&quot;")
    (replace 60 (lit "&lt;") (replace 38 (lit "&amp;") data))).

(** [Element.writexml] of [xml.dom.minidom], for elements without text. *)
Fixpoint writexml (indent addindent newl : pystr) (e : element) : pystr :=
  let 'Element t a cs := e in
  indent ++ s_lt ++ t
  ++ flat_map (λ kv, [SPACE] ++ kv.1 ++ s_eq_quot ++ write_data kv.2 ++ [QUOT]) a
  ++ match cs with
     | [] => s_slash_gt ++ newl
     | _ :: _ =>
         s_gt ++ newl
         ++ (fix go (cs : list element) : pystr :=
               match cs with
               | [] => []
               | c :: cs' => writexml (indent ++ addindent) addindent newl c ++ go cs'
               end) cs
         ++ indent ++ s_lt_slash ++ t ++ s_gt ++ newl
     end.

(** [parsed.toprettyxml(indent="  ")] *)
Definition toprettyxml (e : element) : pystr :=
  s_minidom_decl ++ s_newline ++ writexml [] s_indent s_newline e.

Definition pretty_no_decl (elem : element) : result pystr :=
  parsed ← reparse elem;
  let pretty := toprettyxml parsed in
  let lines := splitlines pretty in
  let lines :=
    match lines with
    | l0 :: rest => if startswith s_xml_prefix l0 then rest else lines
    | [] => lines
    end in
  mret (join s_newline (List.filter (λ line, truthy (strip line)) lines) ++ s_newline).

(** Steps 3 and 4 of [main]: the text written to the output file. *)
Definition xml_text (doc_attrs : gmap pystr pystr) (rows : list dictrow)
    (cols : columns) (keep_empty : bool) : result pystr :=
  let root := build_xml doc_attrs rows cols keep_empty in
  xml_body ← pretty_no_decl root;
  mret (s_decl ++ s_newline ++ xml_body).

(** *** The format, in the words of the specification *)

(** The attributes an element carries: for each key in the fixed order,
    the trimmed value, left out when it is empty unless [keep_empty]. *)
Definition kept (keep_empty : bool) (keys : list pystr) (get : pystr → pystr)
    : list (pystr * pystr) :=
  (λ k, (k, strip (get k)))
    <$> List.filter (λ k, keep_empty || truthy (strip (get k))) keys.

Definition attr_text (kv : pystr * pystr) : pystr :=
  [SPACE] ++ kv.1 ++ s_eq_quot ++ write_data kv.2 ++ [QUOT].

(** The lines of an element at nesting level [depth], two spaces per
    level: one line for an element without children, otherwise an opening
    line, the lines of the children one level deeper, and a closing line. *)
Fixpoint lines_of (depth : nat) (e : element) : list pystr :=
  let 'Element t a cs := e in
  let indent := List.repeat SPACE (2 * depth) in
  match cs with
  | [] => [indent ++ s_lt ++ t ++ flat_map attr_text a ++ s_slash_gt]
  | _ :: _ =>
      [indent ++ s_lt ++ t ++ flat_map attr_text a ++ s_gt]
      ++ (fix go (cs : list element) : list pystr :=
            match cs with
            | [] => []
            | c :: cs' => lines_of (S depth) c ++ go cs'
            end) cs
      ++ [indent ++ s_lt_slash ++ t ++ s_gt]
  end.

(** The text of a list of lines, each ended by a newline. *)
Definition text_of (lines : list pystr) : pystr :=
  flat_map (λ l, l ++ s_newline) lines.

(** The declaration line followed by the indented lines of the tree. *)
Definition layout (root : element) : pystr :=
  text_of (s_decl :: lines_of 0 root).

(** A line that starts, after an even number of spaces, with markup. *)
Definition markup_line (l : pystr) : Prop :=
  ∃ d rest, l = List.repeat SPACE (2 * d) ++ s_lt ++ rest.

(** A character that is allowed in XML and at which [splitlines] does not
    break. *)
Definition plain_char (c : N) : bool := xml_char c && negb (is_linebreak c).

(** *** Required columns *)

Definition msg_missing : pystr := Eval vm_compute in lit "Chýbajúce stĺpce v CSV: ".
Definition msg_present : pystr :=
  Eval vm_compute in lit "Prítomné (normalizované) hlavičky: ".

(** The order [sorted] puts strings in: code point by code point. *)
Fixpoint str_leb (a b : pystr) : bool :=
  match a, b with
  | [], _ => true
  | _ :: _, [] => false
  | x :: a', y :: b' => (x <? y)%N || (x =? y)%N && str_leb a' b'
  end.

Definition str_le (a b : pystr) : Prop := str_leb a b = true.

#[global] Instance str_le_dec a b : Decision (str_le a b).
Proof. unfold str_le. apply _. Defined.

Definition sorted (l : list pystr) : list pystr := merge_sort str_le l.

(** [d[key]] *)
Definition dict_getitem (d : gmap pystr pystr) (key : pystr) : result pystr :=
  match d !! key with Some v => mret v | None => raise KeyError end.

Section with_unicode.
Context `{Unicode}.

Definition normalize_header (h : pystr) : pystr :=
  let h := lower (strip h) in
  List.filter (λ c, (c <? 128)%N) (nfkd h).

(** [{normalize_header(h): h for h in headers}] *)
Definition by_norm (headers : list pystr) : gmap pystr pystr :=
  foldl (λ d h, <[normalize_header h := h]> d) ∅ headers.

Definition needed_norm (k : field) : pystr := normalize_header (CSV_HEADERS k).

Definition missing (headers : list pystr) : list field :=
  List.filter (λ k, bool_decide (by_norm headers !! needed_norm k = None)) fields.

Definition ensure_required_columns (headers : list pystr) : result columns :=
  let by_norm := by_norm headers in
  let missing := missing headers in
  match missing with
  | _ :: _ =>
      let present := join s_comma_space (sorted (elements (dom by_norm))) in
      let expected := join s_comma_space (CSV_HEADERS <$> missing) in
      raise (SystemExit (msg_missing ++ expected ++ s_newline ++ msg_present ++ present))
  | [] =>
      c_nazov ← dict_getitem by_norm (needed_norm nazov);
      c_ucet_md ← dict_getitem by_norm (needed_norm ucet_md);
      c_ucet_dal ← dict_getitem by_norm (needed_norm ucet_dal);
      c_stred ← dict_getitem by_norm (needed_norm stred);
      c_zak ← dict_getitem by_norm (needed_norm zak);
      c_cinn ← dict_getitem by_norm (needed_norm cinn);
      mret (λ k, match k with
                 | nazov => c_nazov | ucet_md => c_ucet_md | ucet_dal => c_ucet_dal
                 | stred => c_stred | zak => c_zak | cinn => c_cinn
                 end)
  end.

End with_unicode.

(** *** Reading the rows *)

(** What [csv.DictReader] makes of one row under [fieldnames]:
    [dict(zip(fieldnames, row))], then [None] for the fields a short row
    leaves out.  The cells a long row has in excess go under the key
    [None], which no column name reaches. *)
Definition dict_row (fieldnames : list pystr) (r : row) : dictrow :=
  let d := foldl (λ d kv, <[kv.1 := Some kv.2]> d) ∅ (zip fieldnames r) in
  foldl (λ d key, <[key := None]> d) d (drop (length r) fieldnames).

(** The last three lines of [read_csv], from the rows [csv.reader] makes
    of the lines of the file: the first row gives the field names, an empty
    row is skipped, and a file without rows has no field names. *)
Definition read_rows (t : table) : list dictrow * list pystr :=
  match t with
  | [] => ([], [])
  | fieldnames :: data =>
      (dict_row fieldnames <$> List.filter (λ r, bool_decide (r ≠ [])) data,
       fieldnames)
  end.

(** *** The document attributes *)

Definition msg_missing_attrs : pystr :=
  Eval vm_compute in lit "Chýbajú povinné atribúty dokladu: ".
Definition msg_no_headers : pystr := Eval vm_compute in lit "CSV nemá hlavičku.".
Definition s_n : pystr := Eval vm_compute in lit "n".

(** [cli_values]: [argparse] leaves an option that was not passed at
    [None]. *)
Abbreviation cli := (gmap pystr (option pystr)).

(** [cli_values.get(k)] *)
Definition cli_get (cli_values : cli) (k : pystr) : option pystr :=
  default None (cli_values !! k).

(** [[k for k in DOC_ATTRS if not cli_values.get(k)]] *)
Definition missing_attrs (cli_values : cli) : list pystr :=
  List.filter (λ k, negb (truthy (or_empty (cli_get cli_values k)))) DOC_ATTRS.

(** [cli_values[k]].  A key that holds [None] does not pass the check
    that comes before; [build_xml] would read it as the empty string. *)
Definition cli_getitem (cli_values : cli) (k : pystr) : result pystr :=
  match cli_values !! k with
  | Some v => mret (or_empty v)
  | None => raise KeyError
  end.

(** The branch [if no_interactive] of [collect_doc_attributes]. *)
Definition attrs_from_cli (cli_values : cli) : result (gmap pystr pystr) :=
  let missing := missing_attrs cli_values in
  match missing with
  | _ :: _ =>
      raise (SystemExit (msg_missing_attrs ++ join s_comma_space missing))
  | [] =>
      foldlM (λ d k, v ← cli_getitem cli_values k; mret (<[k := v]> d)) ∅ DOC_ATTRS
  end.

(** [prompt_input], from the line [input()] returned. *)
Definition prompt_input (default : option pystr) (line : pystr) : pystr :=
  let val := strip line in
  if truthy val then val else or_empty default.

(** [attrs] once the six prompts are answered. *)
Definition prompted (answers : list pystr) : gmap pystr pystr :=
  foldl (λ attrs ka, <[ka.1 := prompt_input None ka.2]> attrs) ∅ (zip DOC_ATTRS answers).

Section main_program.
Context `{Unicode}.

(** The other branch of [collect_doc_attributes]: six prompts and the
    question whether the values are right; the answer [n] starts over.
    [inputs] are the lines waiting on the standard input; the result holds
    the lines left, and is [None] when [input()] meets the end of the
    input. *)
Fixpoint attrs_from_prompts (inputs : list pystr)
    : option (gmap pystr pystr * list pystr) :=
  match inputs with
  | a1 :: a2 :: a3 :: a4 :: a5 :: a6 :: ok :: rest =>
      if bool_decide (lower (strip ok) = s_n) then attrs_from_prompts rest
      else Some (prompted [a1; a2; a3; a4; a5; a6], rest)
  | _ => None
  end.

Definition collect_doc_attributes (no_interactive : bool) (cli_values : cli)
    (inputs : list pystr) : option (result (gmap pystr pystr)) :=
  if no_interactive then Some (attrs_from_cli cli_values)
  else (λ res, inr res.1) <$> attrs_from_prompts inputs.

(** [main] once the arguments are parsed and the file is read: [t] holds
    the rows [csv.reader] makes of its lines.  The result is the text
    written to the output file. *)
Definition main (no_interactive : bool) (cli_values : cli) (inputs : list pystr)
    (t : table) (keep_empty : bool) : option (result pystr) :=
  doc_attrs ← collect_doc_attributes no_interactive cli_values inputs;
  Some (doc_attrs ← doc_attrs;
        let '(rows, headers) := read_rows t in
        match headers with
        | [] => raise (SystemExit msg_no_headers)
        | _ :: _ =>
            cols ← ensure_required_columns headers;
            xml_text doc_attrs rows cols keep_empty
        end).

End main_program.

End Xml.

(** ** konvertor_app.py *)

Module App.
Import Py.

Definition REQUIRED_HEADERS : list pystr :=
  Eval vm_compute in
  [ lit "Názov"; lit "Účet MD"; lit "Účet Dal"; lit "Stred."; lit "Zák."; lit "Činn." ].

Section with_unicode.
Context `{Unicode}.

Definition normalize_header (h : option pystr) : pystr :=
  let h := lower (strip (or_empty h)) in
  List.filter (λ c, (c <? 128)%N) (nfkd h).

(** [needed] and [seen] of [try_find_header_and_write_subset]. *)
Definition needed : gset pystr :=
  list_to_set ((λ h, normalize_header (Some h)) <$> REQUIRED_HEADERS).

Definition seen (r : row) : gset pystr :=
  list_to_set ((λ c, normalize_header (Some c)) <$> r).

(** Its loop over the rows of the reader: [header_idx] when the loop is
    left, [None] as in the source when no row holds every needed header. *)
Definition header_idx (rows : table) : option nat :=
  fst <$> list_find (λ r, needed ⊆ seen r) rows.

End with_unicode.
End App.

(** ** A Unicode table to run the definitions with

    [str.lower()] and NFKD on ASCII and on the letters of the Slovak
    alphabet, where they work letter by letter; every other code point is
    left as it is.  The theorems below hold for every table; this one
    serves the examples. *)

Module Slovak.

Definition lower_char (c : N) : N :=
  (if (65 <=? c) && (c <=? 90) then c + 32
   else if (c =? 193) || (c =? 196) || (c =? 201) || (c =? 205) || (c =? 211)
           || (c =? 212) || (c =? 218) || (c =? 221) then c + 32
   else if (c =? 268) || (c =? 270) || (c =? 327) || (c =? 340) || (c =? 352)
           || (c =? 356) || (c =? 313) || (c =? 317) || (c =? 381) then c + 1
   else c)%N.

Definition decompose (c : N) : pystr :=
  (if (c =? 225) then [97; 769] else if (c =? 228) then [97; 776]
   else if (c =? 233) then [101; 769] else if (c =? 237) then [105; 769]
   else if (c =? 243) then [111; 769] else if (c =? 244) then [111; 770]
   else if (c =? 250) then [117; 769] else if (c =? 253) then [121; 769]
   else if (c =? 269) then [99; 780] else if (c =? 271) then [100; 780]
   else if (c =? 328) then [110; 780] else if (c =? 341) then [114; 769]
   else if (c =? 353) then [115; 780] else if (c =? 357) then [116; 780]
   else if (c =? 314) then [108; 769] else if (c =? 318) then [108; 780]
   else if (c =? 382) then [122; 780]
   else [c])%N.

Definition unicode : Py.Unicode := {|
  Py.lower := map lower_char;
  Py.nfkd := flat_map decompose;
  Py.lower_nil := eq_refl;
|}.

(** The scenario of the specification, with a preamble, a group total and
    a trailer added. *)
Definition sample_export : table :=
  Eval vm_compute in
  [ [Py.lit "Mzdový list"; Py.lit "2025"];
    [Py.lit "Názov"; Py.lit "Účet MD"; Py.lit "Účet Dal"; Py.lit "Stred."; Py.lit "Zák."; Py.lit "Činn."];
    [Py.lit "Mzdy"; Py.lit "2 21"; Py.lit "521"; Py.lit "10"; Py.lit "20"; Py.lit "100,50"];
    [Py.lit "Odvody"; []; []; []; []; Py.lit "7"];
    [[]; Py.lit "336"; Py.lit "524"; Py.lit "10"; Py.lit "20"; Py.lit "35,20"];
    [Py.lit "Výplata v hotovosti"; []; []; []; []; []];
    [Py.lit "Vypracoval: J. Novák"] ].

(** The document attributes of the usage note of [create_xml_file.py] and
    the one data row of that scenario, as [csv.DictReader] returns it. *)
Definition sample_doc : gmap pystr pystr :=
  list_to_map
    [ (Py.lit "cislo_ud", Py.lit "250901"); (Py.lit "datum_ud", Py.lit "30.09.2025");
      (Py.lit "mandant_id", Py.lit "1"); (Py.lit "druh_ud", Py.lit "ID UCTO");
      (Py.lit "typ_ud", Py.lit "I"); (Py.lit "text_ud", Py.lit "Zaúčtovanie ucto") ].

Definition sample_row : Xml.dictrow :=
  list_to_map
    [ (Py.lit "Názov", Some (Py.lit "Mzdy")); (Py.lit "Účet MD", Some (Py.lit "221"));
      (Py.lit "Účet Dal", Some (Py.lit "521")); (Py.lit "Stred.", Some (Py.lit "10"));
      (Py.lit "Zák.", Some (Py.lit "20")); (Py.lit "Činn.", Some (Py.lit "100,50")) ].

(** The same attributes as options of the command line, once as they are
    and once with a blank [text_ud]; and the rows of a cleaned file, the
    second of them too short for the Activity column. *)
Definition sample_cli : Xml.cli := Some <$> sample_doc.

Definition sample_cli_blank : Xml.cli :=
  <[Py.lit "text_ud" := Some (Py.lit "  ")]> sample_cli.

Definition sample_file : table :=
  Eval vm_compute in
  [ [Py.lit "Názov"; Py.lit "Účet MD"; Py.lit "Účet Dal"; Py.lit "Stred."; Py.lit "Zák."; Py.lit "Činn."];
    [Py.lit "Mzdy"; Py.lit "221"; Py.lit "521"; Py.lit "10"; Py.lit "20"; Py.lit "100,50"];
    [];
    [Py.lit "Odvody"; Py.lit "336"; Py.lit "524"] ].

(** A group of rows under a total, with a Variant B row in between, a row
    with a name of its own and a row without one after it. *)
Definition sample_group : table :=
  Eval vm_compute in
  [ [Py.lit "Názov"; Py.lit "Účet MD"; Py.lit "Účet Dal"; Py.lit "Činn."];
    [Py.lit "TOTAL_A"; []; []; Py.lit "9"];
    [[]; Py.lit "1"; Py.lit "2"; Py.lit "3"];
    [[]; []; []; Py.lit "7"];
    [[]; Py.lit "4"; Py.lit "5"; Py.lit "6"];
    [Py.lit "Mzdy"; Py.lit "1"; Py.lit "2"; Py.lit "3"];
    [[]; Py.lit "7"; Py.lit "8"; Py.lit "9"] ].

End Slovak.

(** * Proofs *)

(** ** Python text *)

Section text_facts.
Import Py.

Lemma elem_of_replace x old new s :
  x ∈ replace old new s ↔ ∃ c, c ∈ s ∧ (c = old ∧ x ∈ new ∨ c ≠ old ∧ x = c).
Proof.
  unfold replace. rewrite list_elem_of_In, in_flat_map. split.
  - intros (c & Hc & Hx). exists c. rewrite list_elem_of_In. split; [done|].
    destruct (N.eqb_spec c old) as [->|Hne].
    + left. by rewrite list_elem_of_In.
    + right. apply list_elem_of_In in Hx. by apply list_elem_of_singleton in Hx.
  - intros (c & Hc & Hx). exists c. rewrite <-list_elem_of_In. split; [done|].
    destruct Hx as [[-> Hx]|[Hne ->]].
    + rewrite N.eqb_refl. by apply list_elem_of_In.
    + apply N.eqb_neq in Hne. rewrite Hne. by left.
Qed.

Lemma replace_absent old new s : old ∉ s → replace old new s = s.
Proof.
  induction s as [|c s IH]; [done|]. intros Hn. unfold replace in *. cbn.
  rewrite not_elem_of_cons in Hn. destruct Hn as [Hc Hs].
  assert ((c =? old)%N = false) as -> by (apply N.eqb_neq; congruence).
  cbn. by rewrite IH.
Qed.

Lemma replaced_gone old new s : old ∉ new → old ∉ replace old new s.
Proof.
  intros Hn Hin. apply elem_of_replace in Hin as (c & _ & [[_ ?]|[? ->]]); done.
Qed.

Lemma count_pos c s : 0 < count c s ↔ c ∈ s.
Proof.
  unfold count. induction s as [|x s IH]; cbn.
  - rewrite elem_of_nil. lia.
  - rewrite elem_of_cons. unfold filter in *. cbn. case_decide; cbn.
    + subst. split; [by left | lia].
    + rewrite IH. split; [by right | intros [?|?]; congruence].
Qed.

End text_facts.

Section trimming.
Import Py.

Lemma lstrip_suffix s : ∃ ws, s = ws ++ lstrip s ∧ Forall (λ c, isspace c = true) ws.
Proof.
  induction s as [|c s (ws & Hs & Hws)]; cbn.
  - by exists [].
  - destruct (isspace c) eqn:Hc.
    + exists (c :: ws). split; [by rewrite Hs at 1 | by constructor].
    + by exists [].
Qed.

Lemma elem_of_lstrip x s : x ∈ lstrip s → x ∈ s.
Proof.
  destruct (lstrip_suffix s) as (ws & Hs & _). intros Hx.
  rewrite Hs. apply elem_of_app. by right.
Qed.

Lemma elem_of_lstrip_2 x s : x ∈ s → isspace x = false → x ∈ lstrip s.
Proof.
  destruct (lstrip_suffix s) as (ws & Hs & Hws). intros Hx Hsp.
  rewrite Hs in Hx. apply elem_of_app in Hx as [Hx|Hx]; [|done].
  rewrite Forall_forall in Hws. rewrite (Hws x Hx) in Hsp. done.
Qed.

Lemma elem_of_strip x s : x ∈ strip s → x ∈ s.
Proof.
  unfold strip, rstrip. rewrite elem_of_reverse. intros Hx.
  by apply elem_of_lstrip, elem_of_reverse, elem_of_lstrip in Hx.
Qed.

Lemma elem_of_strip_2 x s : x ∈ s → isspace x = false → x ∈ strip s.
Proof.
  unfold strip, rstrip. intros Hx Hsp. rewrite elem_of_reverse.
  apply elem_of_lstrip_2; [|done]. rewrite elem_of_reverse.
  by apply elem_of_lstrip_2.
Qed.

Lemma truthy_elem x s : x ∈ s → truthy s = true.
Proof. destruct s; [by rewrite elem_of_nil | done]. Qed.

Lemma startswith_elem p s x : startswith p s = true → x ∈ p → x ∈ s.
Proof.
  revert s. induction p as [|a p IH]; intros [|b s] Hp Hx; cbn in Hp;
    try done; try (by apply elem_of_nil in Hx).
  apply andb_true_iff in Hp as [Hab Hp]. apply N.eqb_eq in Hab as ->.
  apply elem_of_cons in Hx as [->|Hx]; [by left|]. right. by apply IH.
Qed.

Lemma contains_elem p s x : contains p s = true → x ∈ p → x ∈ s.
Proof.
  induction s as [|b s IH]; cbn; rewrite orb_true_iff.
  - intros [Hp|?] Hx; [|done]. by eapply startswith_elem.
  - intros [Hp|Hp] Hx; [by eapply startswith_elem|]. right. auto.
Qed.

Lemma contains_nil_r p : p ≠ [] → contains p [] = false.
Proof. by destruct p. Qed.

Lemma elem_of_join x sep (l : list pystr) :
  x ∈ join sep l → x ∈ sep ∨ ∃ c, c ∈ l ∧ x ∈ c.
Proof.
  induction l as [|c l IH]; cbn.
  - by rewrite elem_of_nil.
  - destruct l as [|c' l].
    + intros Hx. right. exists c. split; [apply list_elem_of_here | done].
    + rewrite !elem_of_app. intros [Hx|[Hx|Hx]].
      * right. exists c. split; [apply list_elem_of_here | done].
      * by left.
      * destruct (IH Hx) as [?|(c0 & Hc0 & ?)]; [by left|].
        right. exists c0. split; [by apply list_elem_of_further | done].
Qed.

End trimming.

(** ** Lists *)

Section indices.
Context {A : Type} (f : A → bool).

Lemma indices_where_none s (l : list A) :
  indices_where f s l = [] ↔ ∀ x, x ∈ l → f x = false.
Proof.
  revert s. induction l as [|x l IH]; intros s; cbn.
  - split; [|done]. intros _ x Hx. by apply elem_of_nil in Hx.
  - destruct (f x) eqn:Hx.
    + split; [done|]. intros Hall. specialize (Hall x (list_elem_of_here _ _)).
      congruence.
    + rewrite IH. split.
      * intros Hall y Hy. apply elem_of_cons in Hy as [->|Hy]; auto.
      * intros Hall y Hy. apply Hall. by apply list_elem_of_further.
Qed.

Lemma indices_where_all s (l : list A) :
  (∀ x, x ∈ l → f x = true) → indices_where f s l = seq s (length l).
Proof.
  revert s. induction l as [|x l IH]; intros s Hall; cbn; [done|].
  rewrite (Hall x) by apply list_elem_of_here. f_equal.
  apply IH. intros y Hy. apply Hall. by apply list_elem_of_further.
Qed.

Lemma elem_of_indices_where s (l : list A) i :
  i ∈ indices_where f s l ↔ ∃ x, s ≤ i ∧ l !! (i - s) = Some x ∧ f x = true.
Proof.
  revert s. induction l as [|x l IH]; intros s; cbn.
  - rewrite elem_of_nil. split; [done|]. by intros (? & _ & ? & _).
  - assert (Hrest : i ∈ indices_where f (S s) l ↔
              ∃ y, S s ≤ i ∧ (x :: l) !! (i - s) = Some y ∧ f y = true).
    { rewrite IH. split; intros (y & Hs & Hy & Hf); exists y; split_and!; try done.
      - by replace (i - s) with (S (i - S s)) by lia.
      - by replace (i - s) with (S (i - S s)) in Hy by lia. }
    destruct (f x) eqn:Hx.
    + rewrite elem_of_cons, Hrest. split.
      * intros [->|(y & ? & ? & ?)].
        -- exists x. by rewrite Nat.sub_diag.
        -- exists y. split_and!; [lia|done..].
      * intros (y & Hs & Hy & Hf). destruct (decide (i = s)) as [->|Hne]; [by left|].
        right. exists y. split_and!; [lia|done..].
    + rewrite Hrest. split.
      * intros (y & ? & ? & ?). exists y. split_and!; [lia|done..].
      * intros (y & Hs & Hy & Hf). exists y.
        destruct (decide (i = s)) as [->|Hne]; [|split_and!; [lia|done..]].
        rewrite Nat.sub_diag in Hy. cbn in Hy. congruence.
Qed.

End indices.

Lemma lookup_seq_all {A} `{Inhabited A} (d : A) (l : list A) :
  (λ i, default d (l !! i)) <$> seq 0 (length l) = l.
Proof.
  apply list_eq. intros i. rewrite list_lookup_fmap.
  destruct (decide (i < length l)) as [Hi|Hi].
  - rewrite lookup_seq_lt by done. cbn.
    destruct (lookup_lt_is_Some_2 l i Hi) as [x Hx]. by rewrite Hx.
  - rewrite lookup_seq_ge by lia. cbn. symmetry. apply lookup_ge_None. lia.
Qed.

Section selections.
Context {A B : Type}.

Lemma sublist_filter_bool (f : A → bool) (l : list A) : List.filter f l `sublist_of` l.
Proof.
  induction l as [|x l IH]; cbn; [done|].
  destruct (f x); by constructor.
Qed.

Lemma sublist_tail (l : list A) : tail l `sublist_of` l.
Proof. destruct l; [done|]. cbn. by apply sublist_cons. Qed.

Lemma Forall2_sublist_l (R : A → B → Prop) (l l' : list A) (k : list B) :
  l' `sublist_of` l → Forall2 R l k →
  ∃ k', k' `sublist_of` k ∧ Forall2 R l' k'.
Proof.
  intros Hsub. revert k. induction Hsub as [|x l1 l2 _ IH|x l1 l2 _ IH]; intros k HR.
  - exists []. split; [apply sublist_nil_l | constructor].
  - apply Forall2_cons_inv_l in HR as (y & k0 & Hxy & HR & ->).
    destruct (IH k0 HR) as (k' & Hk' & HR').
    exists (y :: k'). split; [by apply sublist_skip | by constructor].
  - apply Forall2_cons_inv_l in HR as (y & k0 & Hxy & HR & ->).
    destruct (IH k0 HR) as (k' & Hk' & HR').
    exists k'. split; [by apply sublist_cons | done].
Qed.

End selections.

Lemma Forall2_compose {A B C} (R1 : A → B → Prop) (R2 : B → C → Prop)
    (a : list A) (b : list B) (c : list C) :
  Forall2 R1 a b → Forall2 R2 b c → Forall2 (λ x z, ∃ y, R1 x y ∧ R2 y z) a c.
Proof.
  intros H1. revert c. induction H1 as [|x y a b Hxy _ IH]; intros c H2.
  - apply Forall2_nil_inv_l in H2 as ->. constructor.
  - apply Forall2_cons_inv_l in H2 as (z & c0 & Hyz & H2 & ->).
    constructor; [by exists y | by apply IH].
Qed.

(** Rows derived from some rows of [b], themselves derived row by row from
    [c], are derived from some rows of [c], in the same order. *)
Lemma selection_trans {A B C} (R1 : A → B → Prop) (R2 : B → C → Prop)
    (a : list A) (b b' : list B) (c : list C) :
  Forall2 R1 a b' → b' `sublist_of` b → Forall2 R2 b c →
  ∃ c', c' `sublist_of` c ∧ Forall2 (λ x z, ∃ y, R1 x y ∧ R2 y z) a c'.
Proof.
  intros H1 Hsub H2.
  destruct (Forall2_sublist_l R2 b b' c Hsub H2) as (c' & Hc' & H2').
  exists c'. split; [done|]. by eapply Forall2_compose.
Qed.

(** ** clean_csv_header.py: cells and rows *)

Section cells.
Import Py Clean.

Lemma clean_str_elem x c :
  x ∈ clean_str (Some c) → (x ≠ NBSP) ∧ (x ∈ c ∨ x = SPACE ∧ NBSP ∈ c).
Proof.
  cbn. intros Hx. apply elem_of_strip, elem_of_replace in Hx
    as (y & Hy & [[-> Hx]|[Hne ->]]).
  - apply list_elem_of_singleton in Hx as ->. split; [done | by right].
  - split; [done | by left].
Qed.

Lemma clean_str_keeps x c :
  x ∈ c → isspace x = false → truthy (clean_str (Some c)) = true.
Proof.
  intros Hx Hsp. apply (truthy_elem x). cbn. apply elem_of_strip_2; [|done].
  apply elem_of_replace. exists x. split; [done|]. right. split; [|done].
  intros ->. done.
Qed.

Lemma is_empty_row_false (r : row) :
  is_empty_row r = false ↔ ∃ c, c ∈ r ∧ truthy (clean_str (Some c)) = true.
Proof.
  unfold is_empty_row. rewrite negb_false_iff, existsb_exists.
  by setoid_rewrite list_elem_of_In.
Qed.

Lemma nonempty_cells_nil (r : row) : nonempty_cells r = [] ↔ is_empty_row r = true.
Proof.
  unfold nonempty_cells. rewrite indices_where_none.
  unfold is_empty_row. rewrite negb_true_iff. split.
  - intros Hall. apply not_true_is_false. rewrite existsb_exists.
    intros (c & Hc & Ht). apply list_elem_of_In in Hc. by rewrite (Hall c Hc) in Ht.
  - intros Hex c Hc. apply not_true_is_false. intros Ht.
    apply not_true_iff_false in Hex. apply Hex, existsb_exists.
    exists c. by rewrite <-list_elem_of_In.
Qed.

Lemma spaceless_stripped c : spaceless (replace SPACE [] (replace NBSP [SPACE] c)).
Proof.
  split.
  - apply replaced_gone, not_elem_of_nil.
  - intros Hx. apply elem_of_replace in Hx as (y & Hy & [[_ Hx]|[_ <-]]).
    + by apply elem_of_nil in Hx.
    + revert Hy. apply replaced_gone. rewrite list_elem_of_singleton. done.
Qed.

Lemma spaceless_clean_str c : spaceless c → spaceless (clean_str (Some c)).
Proof.
  intros [Hs Hn]. split; intros Hx; apply clean_str_elem in Hx as [? [?|[? ?]]]; done.
Qed.

End cells.

(** ** clean_csv_header.py: locating the header *)

Section header_locator.
Import Py Clean.

Lemma header_primary_iff (r : row) :
  header_primary r = true ↔
  ∃ c rest, r = c :: rest ∧ clean_str (Some c) = s_Nazov
    ∧ contains s_Ucet_MD (join s_semicolon r) = true
    ∧ contains s_Ucet_Dal (join s_semicolon r) = true.
Proof.
  unfold header_primary. destruct r as [|c rest].
  - split; [done | by intros (? & ? & ? & _)].
  - rewrite !andb_true_iff, bool_decide_eq_true. split.
    + intros [[? ?] ?]. by exists c, rest.
    + intros (c' & rest' & [= <- <-] & ? & ? & ?). done.
Qed.

Lemma header_fallback_iff (r : row) :
  header_fallback r = true ↔
  contains s_Nazov (join s_semicolon r) = true
  ∧ contains s_Ucet_MD (join s_semicolon r) = true
  ∧ contains s_Ucet_Dal (join s_semicolon r) = true.
Proof. unfold header_fallback. rewrite !andb_true_iff. tauto. Qed.

Lemma list_find_first_match (rule : row → bool) (rows : table) i :
  (∃ r, list_find (λ r, rule r = true) rows = Some (i, r)) ↔ first_match rule rows i.
Proof.
  unfold first_match. split.
  - intros (r & Hf). apply list_find_Some in Hf as (Hi & Hr & Hlt).
    split; [by exists r|]. intros j r' Hj Hji.
    specialize (Hlt j r' Hj Hji). by destruct (rule r').
  - intros ((r & Hi & Hr) & Hlt). exists r. apply list_find_Some.
    split_and!; [done..|]. intros j r' Hj Hji. by rewrite (Hlt j r' Hj Hji).
Qed.

Lemma list_find_no_match (rule : row → bool) (rows : table) :
  list_find (λ r, rule r = true) rows = None ↔ ∀ r, r ∈ rows → rule r = false.
Proof.
  rewrite list_find_None, Forall_forall. split; intros Hn r Hr.
  - specialize (Hn r Hr). by destruct (rule r).
  - by rewrite (Hn r Hr).
Qed.

(** C4: [find_header_index] returns the index of the first row passing
    the primary rule; only when no row passes it, the index of the first
    row passing the fallback rule; and it raises exactly when no row
    passes either rule. *)
Theorem find_header_index_two_passes (rows : table) :
  (∀ i, first_match header_primary rows i → find_header_index rows = inr i)
  ∧ (∀ i, (∀ r, r ∈ rows → header_primary r = false) →
          first_match header_fallback rows i → find_header_index rows = inr i)
  ∧ (∀ i, find_header_index rows = inr i →
          first_match header_primary rows i
          ∨ (∀ r, r ∈ rows → header_primary r = false)
            ∧ first_match header_fallback rows i)
  ∧ (find_header_index rows = inl (RuntimeError msg_no_header) ↔
     ∀ r, r ∈ rows → header_primary r = false ∧ header_fallback r = false)
  ∧ (∀ e, find_header_index rows = inl e → e = RuntimeError msg_no_header).
Proof.
  unfold find_header_index.
  destruct (list_find (λ r, header_primary r = true) rows) as [[i r]|] eqn:Hp.
  - assert (first_match header_primary rows i) as Hi
      by (apply list_find_first_match; eauto).
    split_and!.
    + intros j Hj. apply list_find_first_match in Hj as (r' & Hj).
      rewrite Hp in Hj. by injection Hj as -> _.
    + intros j Hno _. apply list_find_Some in Hp as (Hr & Hpr & _).
      apply list_elem_of_lookup_2 in Hr. rewrite (Hno r Hr) in Hpr. done.
    + intros j [= <-]. by left.
    + split; [done|]. intros Hno. apply list_find_Some in Hp as (Hr & Hpr & _).
      apply list_elem_of_lookup_2 in Hr. destruct (Hno r Hr) as [Hno' _].
      by rewrite Hno' in Hpr.
    + done.
  - pose proof (proj1 (list_find_no_match _ _) Hp) as Hnop.
    destruct (list_find (λ r, header_fallback r = true) rows) as [[i r]|] eqn:Hf.
    + assert (first_match header_fallback rows i) as Hi
        by (apply list_find_first_match; eauto).
      split_and!.
      * intros j Hj. apply list_find_first_match in Hj as (r' & Hj).
        by rewrite Hp in Hj.
      * intros j _ Hj. apply list_find_first_match in Hj as (r' & Hj).
        rewrite Hf in Hj. by injection Hj as -> _.
      * intros j [= <-]. by right.
      * split; [done|]. intros Hno. apply list_find_Some in Hf as (Hr & Hfr & _).
        apply list_elem_of_lookup_2 in Hr. destruct (Hno r Hr) as [_ Hno'].
        by rewrite Hno' in Hfr.
      * done.
    + pose proof (proj1 (list_find_no_match _ _) Hf) as Hnof.
      split_and!.
      * intros j Hj. apply list_find_first_match in Hj as (r' & Hj).
        by rewrite Hp in Hj.
      * intros j _ Hj. apply list_find_first_match in Hj as (r' & Hj).
        by rewrite Hf in Hj.
      * done.
      * split; [|done]. intros _ r Hr. split; auto.
      * by intros e [= <-].
Qed.

(** The test of the specification: a decoy row that only the fallback
    rule accepts stands before the true header; the header wins. *)
Example header_after_decoy :
  let decoy := [lit "Prehľad: Názov"; lit "Účet MD"; lit "Účet Dal"] in
  let head := [lit " Názov "; lit "Účet MD"; lit "Účet Dal"] in
  header_primary decoy = false ∧ header_fallback decoy = true
  ∧ header_primary head = true
  ∧ find_header_index [decoy; head] = inr 1.
Proof. vm_compute. done. Qed.

End header_locator.

(** ** clean_csv_header.py: the column projector *)

Section projector.
Import Py Clean.
Context `{Unicode}.

(** The cell a kept index reads from the header passes [wanted]. *)
Lemma keep_indices_wanted (header : row) i :
  i ∈ keep_indices header →
  ∃ h, header !! i = Some h ∧ wanted (normalize h) = true.
Proof.
  unfold keep_indices. rewrite elem_of_indices_where.
  intros (x & _ & Hx & Hw). rewrite Nat.sub_0_r, list_lookup_fmap in Hx.
  destruct (header !! i) as [h|]; [|done]. injection Hx as <-. by exists h.
Qed.

(** C7: when no cell of the header row matches a canonical-column
    pattern, [select_required_columns] returns the table as it is. *)
Theorem select_required_columns_no_match (header : row) (data : table) :
  (∀ h, h ∈ header → wanted (normalize h) = false) →
  select_required_columns (header :: data) = header :: data.
Proof.
  intros Hnone. unfold select_required_columns.
  assert (keep_indices header = []) as ->; [|done].
  unfold keep_indices. apply indices_where_none.
  intros x Hx. apply list_elem_of_fmap in Hx as (h & -> & Hh). auto.
Qed.

(** C8: [select_required_columns] is idempotent. *)
Theorem select_required_columns_idempotent (rows : table) :
  select_required_columns (select_required_columns rows) = select_required_columns rows.
Proof.
  destruct rows as [|header data]; [done|].
  destruct (keep_indices header) as [|k keep] eqn:Hkeep.
  { unfold select_required_columns. by rewrite !Hkeep. }
  set (proj := λ r : row, (λ i, default [] (r !! i)) <$> k :: keep).
  assert (Hsel : select_required_columns (header :: data) = proj <$> header :: data).
  { unfold select_required_columns. by rewrite Hkeep. }
  assert (Hall : keep_indices (proj header) = seq 0 (length (k :: keep))).
  { unfold keep_indices.
    rewrite indices_where_all; [unfold proj; by rewrite !length_fmap|].
    intros x Hx. apply list_elem_of_fmap in Hx as (c & -> & Hc).
    subst proj. apply list_elem_of_fmap in Hc as (i & -> & Hi).
    rewrite <-Hkeep in Hi. apply keep_indices_wanted in Hi as (h & -> & Hw). done. }
  rewrite Hsel. rewrite fmap_cons. unfold select_required_columns.
  rewrite Hall. cbn [length seq]. rewrite <-fmap_cons.
  change (0 :: seq 1 (length keep)) with (seq 0 (length (k :: keep))).
  rewrite <-list_fmap_compose. apply list_fmap_ext. intros _ r _. unfold compose.
  replace (length (k :: keep)) with (length (proj r))
    by (unfold proj; by rewrite length_fmap).
  apply (lookup_seq_all [] (proj r)).
Qed.

End projector.

Section projector_examples.
#[local] Existing Instance Slovak.unicode.
Import Py Clean.

(** C7 on a table whose header names none of the six columns. *)
Lemma select_required_columns_no_match_witness :
  (∀ h, h ∈ [lit "Meno"; lit "Suma"] → wanted (normalize h) = false)
  ∧ select_required_columns [[lit "Meno"; lit "Suma"]; [lit "a"; lit "1"; lit "x"]]
    = [[lit "Meno"; lit "Suma"]; [lit "a"; lit "1"; lit "x"]].
Proof.
  assert (Hno : ∀ h, h ∈ [lit "Meno"; lit "Suma"] → wanted (normalize h) = false).
  { intros h Hh. apply elem_of_cons in Hh as [->|Hh]; [reflexivity|].
    apply list_elem_of_singleton in Hh as ->. reflexivity. }
  split; [exact Hno|].
  exact (select_required_columns_no_match
           [lit "Meno"; lit "Suma"] [[lit "a"; lit "1"; lit "x"]] Hno).
Defined.

(** A table the projector does change, and on which a second pass does
    nothing: the unknown column goes, short rows are padded. *)
Example select_required_columns_twice :
  let t := [ [lit "Názov"; lit "Poznámka"; lit "Účet MD"]; [lit "a"; lit "b"] ] in
  select_required_columns t = [ [lit "Názov"; lit "Účet MD"]; [lit "a"; []] ]
  ∧ select_required_columns (select_required_columns t) = select_required_columns t.
Proof. vm_compute. done. Qed.

End projector_examples.

(** ** clean_csv_header.py: the numeric clean-up *)

Section numeric.
Import Py Clean.
Context `{Unicode}.

Lemma strip_row_snoc idx j (r : row) :
  strip_row (idx ++ [j]) r
  = match strip_row idx r !! j with
    | Some c => <[j := replace SPACE [] (replace NBSP [SPACE] c)]> (strip_row idx r)
    | None => strip_row idx r
    end.
Proof. unfold strip_row. by rewrite foldl_app. Qed.

Lemma strip_row_spaceless idx (r : row) i c :
  i ∈ idx → strip_row idx r !! i = Some c → spaceless c.
Proof.
  revert i c. induction idx as [|j idx IH] using rev_ind; intros i c Hi Hc.
  - by apply elem_of_nil in Hi.
  - rewrite strip_row_snoc in Hc. destruct (decide (i = j)) as [->|Hne].
    + destruct (strip_row idx r !! j) as [c'|] eqn:Hj; [|congruence].
      rewrite list_lookup_insert_eq in Hc by (by eapply lookup_lt_Some).
      injection Hc as <-. apply spaceless_stripped.
    + assert (i ∈ idx) as Hi'.
      { apply elem_of_app in Hi as [?|Hi]; [done|].
        by apply list_elem_of_singleton in Hi. }
      destruct (strip_row idx r !! j) as [c'|]; [|by eapply IH].
      rewrite list_lookup_insert_ne in Hc by done. by eapply IH.
Qed.

Lemma select_required_columns_project (h : row) (data : table) :
  select_required_columns (h :: data)
  = project (keep_indices h) h :: (project (keep_indices h) <$> data).
Proof.
  unfold select_required_columns, project.
  destruct (keep_indices h); [by rewrite list_fmap_id | done].
Qed.

(** Steps 2 and 3 on a table whose first row is the header. *)
Lemma prepared_table (h : row) (data : table) (header_names : row) :
  strip_spaces_in_numeric_cols (select_required_columns (h :: data)) header_names
  = project (keep_indices h) h :: (prepared h <$> data).
Proof.
  rewrite select_required_columns_project. unfold strip_spaces_in_numeric_cols.
  f_equal. rewrite <-list_fmap_compose. by apply list_fmap_ext.
Qed.

Lemma wanted_nil : wanted [] = false.
Proof. reflexivity. Qed.

(** The header row found by [find_header_index] is not blank once
    projected: a kept cell matched a pattern, and without kept cells the
    row still holds the text "Účet MD". *)
Lemma found_header_has_account (rows : table) i :
  find_header_index rows = inr i →
  ∃ hr, rows !! i = Some hr ∧ contains s_Ucet_MD (join s_semicolon hr) = true.
Proof.
  unfold find_header_index.
  destruct (list_find _ rows) as [[j r]|] eqn:Hp.
  - intros [= <-]. apply list_find_Some in Hp as (Hr & Hpr & _). exists r.
    split; [done|]. by apply header_primary_iff in Hpr as (? & ? & _ & _ & ? & _).
  - destruct (list_find (λ r, header_fallback r = true) rows) as [[j r]|] eqn:Hf; [|done].
    intros [= <-]. apply list_find_Some in Hf as (Hr & Hfr & _). exists r.
    split; [done|]. by apply header_fallback_iff in Hfr as (_ & ? & _).
Qed.

Lemma projected_header_not_blank (hr : row) :
  contains s_Ucet_MD (join s_semicolon hr) = true →
  is_empty_row (project (keep_indices hr) hr) = false.
Proof.
  intros Hc. apply is_empty_row_false. unfold project.
  destruct (keep_indices hr) as [|k keep] eqn:Hkeep.
  - assert (218%N ∈ join s_semicolon hr) as Hu.
    { eapply contains_elem; [done|]. vm_compute. apply list_elem_of_here. }
    apply elem_of_join in Hu as [Hu|(c & Hc' & Hu)].
    { vm_compute in Hu. apply list_elem_of_singleton in Hu. discriminate. }
    exists c. split; [done|]. by apply (clean_str_keeps 218%N).
  - assert (k ∈ keep_indices hr) as Hk by (rewrite Hkeep; apply list_elem_of_here).
    apply keep_indices_wanted in Hk as (h & Hh & Hw).
    exists h. split.
    + cbn. rewrite Hh. apply list_elem_of_here.
    + unfold normalize in Hw. destruct (clean_str (Some h)) eqn:Hcl; [|done].
      by rewrite lower_nil, wanted_nil in Hw.
Qed.

End numeric.

(** ** clean_csv_header.py: the summary folder *)

Section summary_example.
Import Py Clean.

(** C3, as stated, fails: a row whose Activity cell is empty has one
    non-empty cell only, so it is no Variant A row; it is emitted, it
    clears the pending name, and the next row keeps its empty Name. *)
Lemma total_row_without_activity_is_kept :
  is_summary_variant1 [lit "TOTAL_A"; []; []; []] 3 = false
  ∧ forward_fill_from_summary
      [ [lit "Názov"; lit "Účet MD"; lit "Účet Dal"; lit "Činn."];
        [lit "TOTAL_A"; []; []; []];
        [[]; lit "1"; lit "2"; lit "3"] ] 3
    = inr ([ [lit "Názov"; lit "Účet MD"; lit "Účet Dal"; lit "Činn."];
             [lit "TOTAL_A"; []; []; []];
             [[]; lit "1"; lit "2"; lit "3"] ], 0, 0).
Proof. vm_compute. done. Qed.

(** C3, amended: with the Activity column at index 3, the data rows
    ["TOTAL_A","","",x] for a non-blank [x], then ["","1","2","3"]: the first
    row is dropped as a Variant A row and the second is emitted with its
    empty Name filled with "TOTAL_A". *)
Theorem total_row_fills_next_name (header : row) (x : pystr) :
  truthy (clean_str (Some x)) = true →
  is_summary_variant1 [lit "TOTAL_A"; []; []; x] 3 = true
  ∧ forward_fill_from_summary
      [header; [lit "TOTAL_A"; []; []; x]; [[]; lit "1"; lit "2"; lit "3"]] 3
    = inr ([header; [lit "TOTAL_A"; lit "1"; lit "2"; lit "3"]], 1, 1).
Proof.
  intros Hx.
  assert (Hv : is_summary_variant1 [lit "TOTAL_A"; []; []; x] 3 = true).
  { unfold is_summary_variant1, nonempty_is, nonempty_cells.
    cbn [indices_where]. rewrite Hx. vm_compute. reflexivity. }
  split; [exact Hv|].
  unfold forward_fill_from_summary. cbn [foldlM].
  unfold fill_step at 2. rewrite Hv. vm_compute. reflexivity.
Qed.

(** C3, amended, on a total row with Activity "9". *)
Lemma total_row_fills_next_name_witness :
  truthy (clean_str (Some (lit "9"))) = true
  ∧ forward_fill_from_summary
      [ [lit "Názov"; lit "Účet MD"; lit "Účet Dal"; lit "Činn."];
        [lit "TOTAL_A"; []; []; lit "9"];
        [[]; lit "1"; lit "2"; lit "3"] ] 3
    = inr ([ [lit "Názov"; lit "Účet MD"; lit "Účet Dal"; lit "Činn."];
             [lit "TOTAL_A"; lit "1"; lit "2"; lit "3"] ], 1, 1).
Proof.
  split; [reflexivity|].
  exact (proj2 (total_row_fills_next_name
                  [lit "Názov"; lit "Účet MD"; lit "Účet Dal"; lit "Činn."]
                  (lit "9") eq_refl)).
Defined.

End summary_example.

Section folder.
Import Py Clean.

Lemma nonempty_cells_cons c (cells : row) :
  nonempty_cells (c :: cells)
  = if truthy (clean_str (Some c))
    then 0 :: indices_where (λ c, truthy (clean_str (Some c))) 1 cells
    else indices_where (λ c, truthy (clean_str (Some c))) 1 cells.
Proof. reflexivity. Qed.

Lemma nonempty_is_false (r : row) (want : gset nat) :
  nonempty_is r want = false ↔
  nonempty_cells r = [] ∨ list_to_set (nonempty_cells r) ≠ want.
Proof.
  unfold nonempty_is. destruct (nonempty_cells r) as [|j js] eqn:Hc.
  - split; [by left | done].
  - rewrite bool_decide_eq_false. split; [by right|]. by intros [?|?].
Qed.

(** Filling the blank Name cell of a row that is no summary row does not
    make it one. *)
Lemma filled_row_no_summary c (cells : row) g cinn_idx :
  clean_str (Some c) = [] →
  is_empty_row (c :: cells) = false →
  is_summary_variant1 (c :: cells) cinn_idx = false →
  is_summary_variant2 (c :: cells) cinn_idx = false →
  is_summary_variant1 (g :: cells) cinn_idx = false
  ∧ is_summary_variant2 (g :: cells) cinn_idx = false.
Proof.
  intros Hc Hne H1 H2. unfold is_summary_variant1, is_summary_variant2 in *.
  apply nonempty_is_false in H1, H2.
  assert (nonempty_cells (c :: cells) ≠ []) as Hnn.
  { rewrite nonempty_cells_nil. by rewrite Hne. }
  destruct H1 as [?|H1]; [done|]. destruct H2 as [?|H2]; [done|].
  rewrite nonempty_cells_cons, Hc in Hnn, H1, H2. cbn [truthy] in *.
  rewrite !nonempty_is_false, nonempty_cells_cons.
  set (T := indices_where (λ c, truthy (clean_str (Some c))) 1 cells) in *.
  assert (H0 : 0 ∉ T).
  { subst T. rewrite elem_of_indices_where. intros (? & ? & _). lia. }
  clearbody T. destruct T as [|t T]; [done|]. clear Hnn.
  destruct (truthy (clean_str (Some g))); [|by split; right].
  assert (Hin : ∀ y, y ∈ ({[0]} ∪ list_to_set (t :: T) : gset nat) ↔ y = 0 ∨ y ∈ t :: T).
  { intros y. by rewrite elem_of_union, elem_of_singleton, elem_of_list_to_set. }
  split; right; rewrite list_to_set_cons; intros Heq.
  - apply H2. apply set_eq. intros y.
    rewrite elem_of_list_to_set, elem_of_singleton. split.
    + intros Hy. assert (y ∈ ({[0; cinn_idx]} : gset nat)) as Hy'
        by (rewrite <-Heq; apply Hin; by right).
      apply elem_of_union in Hy' as [Hy'|Hy']; apply elem_of_singleton in Hy';
        [by subst y | done].
    + intros ->. assert (t ∈ ({[0; cinn_idx]} : gset nat)) as Ht
        by (rewrite <-Heq; apply Hin; right; apply list_elem_of_here).
      apply elem_of_union in Ht as [Ht|Ht]; apply elem_of_singleton in Ht.
      * subst t. destruct H0. apply list_elem_of_here.
      * subst t. apply list_elem_of_here.
  - assert (t ∈ ({[cinn_idx]} : gset nat)) as Ht
      by (rewrite <-Heq; apply Hin; right; apply list_elem_of_here).
    assert (0 ∈ ({[cinn_idx]} : gset nat)) as Hz
      by (rewrite <-Heq; apply Hin; by left).
    apply elem_of_singleton in Ht, Hz. subst t cinn_idx.
    destruct H0. apply list_elem_of_here.
Qed.

End folder.

Section fold_invariant.
Import Py Clean.
Variables (cinn_idx : nat) (idx : list nat).

Abbreviation incoming := (Clean.incoming idx).
Abbreviation pending_ok := (Clean.pending_ok idx).

Lemma fill_step_spec st (p : row) st' :
  fill_step cinn_idx st p = inr st' →
  incoming p → pending_ok (current_group_name st) →
  pending_ok (current_group_name st')
  ∧ (out st' = out st
     ∨ ∃ r, out st' = out st ++ [r] ∧ filled_from p r
            ∧ normalized_row cinn_idx idx r).
Proof.
  intros Hstep [Hne Hnum] Hpend. unfold fill_step in Hstep.
  destruct (is_summary_variant1 p cinn_idx) eqn:Hv1.
  { destruct p as [|c cells]; [done|]. cbn in Hstep. injection Hstep as <-. cbn.
    split; [|by left]. intros s [= <-] H0.
    apply spaceless_clean_str. by apply (Hnum 0 c). }
  destruct (is_summary_variant2 p cinn_idx) eqn:Hv2.
  { injection Hstep as <-. cbn. split; [done | by left]. }
  destruct p as [|c cells]; [done|].
  destruct (truthy (clean_str (Some c))) eqn:Hc; cbn in Hstep.
  - injection Hstep as <-. cbn. split; [done|]. right. exists (c :: cells).
    split_and!; [done | by left | done..].
  - destruct (truthy (or_empty (current_group_name st))) eqn:Hg; cbn in Hstep;
      injection Hstep as <-; cbn; (split; [done|]); right.
    + assert (clean_str (Some c) = []) as Hc' by (by destruct (clean_str (Some c))).
      exists (or_empty (current_group_name st) :: cells).
      split; [done|]. split; [right; by exists c, cells, (or_empty (current_group_name st))|].
      destruct (filled_row_no_summary c cells (or_empty (current_group_name st))
                  cinn_idx Hc' Hne Hv1 Hv2) as [H1 H2].
      split_and!; [|done..|].
      * apply is_empty_row_false in Hne as (x & Hx & Ht).
        apply is_empty_row_false. exists x. split; [|done].
        apply elem_of_cons in Hx as [->|Hx]; [congruence|].
        by apply list_elem_of_further.
      * intros [|i] x Hi Hx.
        -- injection Hx as <-. destruct (current_group_name st) as [s|]; [|done].
           by apply Hpend.
        -- by apply (Hnum (S i)).
    + exists (c :: cells). split_and!; [done | by left | done..].
Qed.


Lemma fill_fold_spec (data : table) st st' :
  foldlM (fill_step cinn_idx) st data = inr st' →
  Forall incoming data → pending_ok (current_group_name st) →
  ∃ new mid, out st' = out st ++ new ∧ mid `sublist_of` data
    ∧ Forall2 (λ r p, filled_from p r) new mid
    ∧ Forall (normalized_row cinn_idx idx) new.
Proof.
  revert st. induction data as [|p data IH]; intros st Hfold Hin Hpend.
  - injection Hfold as <-. exists [], []. by rewrite app_nil_r.
  - apply Forall_cons in Hin as [Hp Hin]. cbn in Hfold.
    destruct (fill_step cinn_idx st p) as [e|st1] eqn:Hstep; [done|]. cbn in Hfold.
    destruct (fill_step_spec st p st1 Hstep Hp Hpend) as [Hpend1 Hout].
    destruct (IH st1 Hfold Hin Hpend1) as (new & mid & Hnew & Hmid & Hrel & Hok).
    destruct Hout as [Hsame|(r & Hr & Hfill & Hrok)].
    + exists new, mid. split_and!; [congruence | by apply sublist_cons | done..].
    + exists (r :: new), (p :: mid).
      split_and!; [|by apply sublist_skip|by constructor..].
      by rewrite Hnew, Hr, <-app_assoc.
Qed.


End fold_invariant.

(** ** clean_csv_header.py: the whole pipeline *)

Section pipeline.
Import Py Clean.
Context `{Unicode}.

(** The table after step 5: empty, or the projected header followed by a
    prefix of the prepared data rows that are not blank. *)
Lemma before_fold_shape (rows : table) i e (t : table) :
  before_fold rows = inr (i, e, t) →
  ∃ hr n, find_header_index rows = inr i ∧ rows !! i = Some hr
    ∧ (t = []
       ∨ t = project (keep_indices hr) hr
             :: take n (List.filter (λ r, negb (is_empty_row r))
                          (prepared hr <$> drop (S i) rows))).
Proof.
  unfold before_fold. destruct (find_header_index rows) as [?|j] eqn:Hfind; [done|].
  destruct (found_header_has_account rows j Hfind) as (hr & Hhr & Hacc).
  cbn [mbind result_bind]. rewrite (drop_S _ _ _ Hhr).
  pose proof (prepared_table hr (drop (S j) rows)) as Hprep.
  rewrite select_required_columns_project in Hprep |- *.
  rewrite Hprep. cbn [mbind result_bind mret result_ret List.filter].
  rewrite (projected_header_not_blank hr Hacc). cbn [negb].
  set (h2 := project (keep_indices hr) hr).
  set (body := List.filter _ (prepared hr <$> _)).
  destruct (list_find _ (h2 :: body)) as [[k r]|]; cbn [fmap option_fmap option_map fst].
  - intros [= <- <- <-]. destruct k as [|k].
    + exists hr, 0. split_and!; [done..|by left].
    + exists hr, k. split_and!; [done..|by right].
  - intros [= <- <- <-]. exists hr, (length body). split_and!; [done..|].
    right. by rewrite firstn_all.
Qed.

Lemma prepared_spaceless hr (s : row) i c :
  i ∈ numeric_indices (project (keep_indices hr) hr) →
  prepared hr s !! i = Some c → spaceless c.
Proof. apply strip_row_spaceless. Qed.

(** The folder leaves no summary row behind, so the test of step 7 on the
    last row is never met. *)
Lemma no_summary_row_left cinn idx (h : row) (new : table) :
  Forall (normalized_row cinn idx) new →
  bool_decide (1 < length (h :: new))
  && match last (h :: new) with
     | Some l => is_summary_variant1 l cinn || is_summary_variant2 l cinn
     | None => false
     end = false.
Proof.
  intros Hok. destruct new as [|r new] using rev_ind; [done|].
  apply andb_false_iff. right.
  rewrite app_comm_cons, last_snoc.
  apply Forall_app in Hok as [_ Hr]. apply Forall_cons in Hr as [(_ & H1 & H2 & _) _].
  by rewrite H1, H2.
Qed.

(** C5, amended: every data row of the table [clean_csv] writes is not
    blank, is no summary row of either variant for the Activity column the
    run computed, holds no space and no no-break space in a cell of a
    numeric column, and the data rows stem, in their order, from rows of
    the source table below the header.  (The folder already leaves no
    summary row, so step 7 removes nothing.) *)
Theorem clean_csv_normalized (rows : table) (run : run) :
  clean_csv rows = inr run →
  ∃ hr, rows !! header_index run = Some hr
    ∧ match summary run with
      | None => clean_rows run = []
      | Some s =>
          header s = project (keep_indices hr) hr
          ∧ cinn_idx s = find_cinn_col_index (header s)
          ∧ removed_last s = false
          ∧ (∀ r, r ∈ tail (clean_rows run) →
                  normalized_row (cinn_idx s) (numeric_indices (header s)) r)
          ∧ ∃ srcs, srcs `sublist_of` drop (S (header_index run)) rows
                    ∧ Forall2 (came_from hr) (tail (clean_rows run)) srcs
      end.
Proof.
  unfold clean_csv. destruct (before_fold rows) as [?|[[i e] t]] eqn:Hbefore; [done|].
  destruct (before_fold_shape rows i e t Hbefore) as (hr & n & Hfind & Hhr & Ht).
  cbn [mbind result_bind]. destruct Ht as [->| ->].
  { intros [= <-]. by exists hr. }
  set (h2 := project (keep_indices hr) hr).
  set (prep := prepared hr <$> drop (S i) rows).
  set (d5 := take n (List.filter (λ r, negb (is_empty_row r)) prep)).
  set (cinn := find_cinn_col_index h2).
  unfold forward_fill_from_summary.
  destruct (foldlM (fill_step cinn) _ d5) as [?|st] eqn:Hfold; [done|].
  assert (Hd5 : Forall (λ p, is_empty_row p = false
                   ∧ ∀ i c, i ∈ numeric_indices h2 → p !! i = Some c → spaceless c) d5).
  { apply Forall_take, Forall_forall. intros p Hp.
    apply list_elem_of_In, filter_In in Hp as [Hp Hne].
    apply negb_true_iff in Hne. split; [done|].
    apply list_elem_of_In, list_elem_of_fmap in Hp as (s & -> & _).
    intros j c. apply prepared_spaceless. }
  destruct (fill_fold_spec cinn (numeric_indices h2) d5 _ st Hfold Hd5)
    as (new & mid & Hout & Hmid & Hrel & Hok); [done|].
  cbn [out] in Hout. cbn [mbind result_bind mret result_ret].
  rewrite Hout. cbn [app].
  rewrite (no_summary_row_left cinn (numeric_indices h2) h2 new Hok).
  cbn [getitem lookup list_lookup mbind result_bind].
  intros [= <-]. cbn [header_index summary clean_rows header cinn_idx removed_last].
  exists hr. split; [done|]. split; [done|]. split; [done|]. split; [done|].
  set (final := List.filter (λ r, negb (is_hotovost r)) (h2 :: new)).
  assert (Hfinal : tail final `sublist_of` new).
  { subst final. cbn [List.filter]. destruct (negb (is_hotovost h2)).
    - apply sublist_filter_bool.
    - etrans; [apply sublist_tail | apply sublist_filter_bool]. }
  split.
  - intros r Hr. rewrite Forall_forall in Hok. apply Hok.
    by eapply elem_of_sublist.
  - destruct (Forall2_sublist_l _ new (tail final) mid Hfinal Hrel) as (mid' & Hmid' & Hrel').
    assert (Hprep : mid' `sublist_of` prep).
    { etrans; [exact Hmid'|]. etrans; [exact Hmid|]. subst d5.
      etrans; [apply sublist_take | apply sublist_filter_bool]. }
    assert (Hsrc : Forall2 (λ p s, p = prepared hr s) prep (drop (S i) rows)).
    { subst prep. apply Forall2_fmap_l, Forall_Forall2_diag, Forall_forall. done. }
    destruct (selection_trans _ _ _ _ _ _ Hrel' Hprep Hsrc) as (srcs & Hsrcs & Hall).
    exists srcs. split; [done|]. eapply Forall2_impl; [exact Hall|].
    intros r s (p & Hfill & ->). exact Hfill.
Qed.


End pipeline.

Section pipeline_examples.
#[local] Existing Instance Slovak.unicode.
Import Py Clean.

(** C5, as stated, fails: step 3 removes spaces and no-break spaces only,
    so a tab inside an account number reaches the normalized table. *)
Lemma tab_stays_in_numeric_cell :
  numeric_indices [lit "Názov"; lit "Účet MD"; lit "Účet Dal"] = [1; 2]
  ∧ isspace 9 = true
  ∧ match clean_csv [ [lit "Názov"; lit "Účet MD"; lit "Účet Dal"];
                      [lit "Mzdy"; lit "22" ++ [9%N] ++ lit "1"; lit "5 21"] ] with
    | inr run =>
        clean_rows run = [ [lit "Názov"; lit "Účet MD"; lit "Účet Dal"];
                           [lit "Mzdy"; lit "22" ++ [9%N] ++ lit "1"; lit "521"] ]
    | inl _ => False
    end.
Proof. vm_compute. done. Qed.

(** C5, amended, on the scenario of the specification with a preamble,
    a group total, a row to exclude and a trailer. *)
Lemma clean_csv_normalized_witness :
  ∃ run, clean_csv Slovak.sample_export = inr run
    ∧ clean_rows run
      = [ [lit "Názov"; lit "Účet MD"; lit "Účet Dal"; lit "Stred."; lit "Zák."; lit "Činn."];
          [lit "Mzdy"; lit "221"; lit "521"; lit "10"; lit "20"; lit "100,50"];
          [lit "Odvody"; lit "336"; lit "524"; lit "10"; lit "20"; lit "35,20"] ]
    ∧ ∃ hr, Slovak.sample_export !! header_index run = Some hr
        ∧ match summary run with
          | None => clean_rows run = []
          | Some s =>
              header s = project (keep_indices hr) hr
              ∧ cinn_idx s = find_cinn_col_index (header s)
              ∧ removed_last s = false
              ∧ (∀ r, r ∈ tail (clean_rows run) →
                      normalized_row (cinn_idx s) (numeric_indices (header s)) r)
              ∧ ∃ srcs, srcs `sublist_of` drop (S (header_index run)) Slovak.sample_export
                        ∧ Forall2 (came_from hr) (tail (clean_rows run)) srcs
          end.
Proof.
  eexists. split; [vm_compute; reflexivity|]. split; [reflexivity|].
  apply (clean_csv_normalized Slovak.sample_export). vm_compute. reflexivity.
Defined.

End pipeline_examples.

(** ** Both programs: detecting the encoding *)

Section encodings.
Import Py.

(** C10: encoding detection never fails.  In the cleaning stage the last
    candidate, latin-1, reads every byte sequence, so the error branch is
    not reached; in the assembly stage [detect_encoding] returns the first
    candidate that decodes and falls back to utf-8 when none does, and the
    text is then decoded with replacement. *)
Theorem detect_encoding_never_fails :
  (∀ strict raw, ∃ enc, Clean.detect_encoding strict raw = inr enc
                        ∧ Clean.readable strict enc raw = true)
  ∧ (∀ strict raw e, Clean.detect_encoding strict raw ≠ inl e)
  ∧ (∀ strict raw, ∃ enc,
        Xml.detect_encoding strict raw = (enc, raw)
        ∧ (strict enc raw = true
           ∨ enc = Xml.utf_8 ∧ ∀ e, strict e raw = false))
  ∧ (∀ strict replacing raw, ∃ enc,
        Xml.read_text strict replacing raw = replacing enc raw).
Proof.
  assert (Hclean : ∀ strict raw, ∃ enc, Clean.detect_encoding strict raw = inr enc
                        ∧ Clean.readable strict enc raw = true).
  { intros strict raw. unfold Clean.detect_encoding. cbn.
    destruct (strict Clean.utf_8_sig raw) eqn:H1; [by eexists|].
    destruct (strict Clean.cp1250 raw) eqn:H2; by eexists. }
  assert (Hxml : ∀ strict raw, ∃ enc,
        Xml.detect_encoding strict raw = (enc, raw)
        ∧ (strict enc raw = true
           ∨ enc = Xml.utf_8 ∧ ∀ e, strict e raw = false)).
  { intros strict raw. unfold Xml.detect_encoding. cbn.
    destruct (strict Xml.utf_8_sig raw) eqn:H1; [eexists; split; eauto|].
    destruct (strict Xml.utf_8 raw) eqn:H2; [eexists; split; eauto|].
    destruct (strict Xml.cp1250 raw) eqn:H3; [eexists; split; eauto|].
    eexists; split; [done|]. right. split; [done|]. by intros []. }
  split_and!; [done| | done |].
  - intros strict raw e He. destruct (Hclean strict raw) as (enc & Henc & _).
    congruence.
  - intros strict replacing raw. unfold Xml.read_text.
    destruct (Hxml strict raw) as (enc & -> & _). by exists enc.
Qed.

End encodings.

(** ** create_xml_file.py: the amount rule *)

Section amount.
Import Py Xml.

(** C2, as stated, fails: [to_amount] first trims the value, so a leading
    no-break space is lost, while stripping the spaces alone keeps it. *)
Lemma to_amount_trims_first :
  to_amount (Some (NBSP :: lit "1,5")) = lit "1.5"
  ∧ amount_rule (NBSP :: lit "1,5") = NBSP :: lit "1.5"
  ∧ (to_amount (Some (NBSP :: lit "1,5")) ≠ amount_rule (NBSP :: lit "1,5")).
Proof. vm_compute. repeat split; discriminate. Qed.

(** C2, amended: [to_amount] trims leading and trailing whitespace (an
    absent value counts as empty), then strips every space, and then
    replaces the comma with a period if and only if the result holds exactly
    one comma and no period; otherwise the stripped value is passed
    through. "1 234,56" gives "1234.56"; "1234.56" and "1,2,3" are
    unchanged. *)
Theorem to_amount_rule (v : option pystr) :
  let w := replace SPACE [] (strip (or_empty v)) in
  to_amount v = amount_rule (strip (or_empty v))
  ∧ (SPACE ∉ to_amount v)
  ∧ (count COMMA w = 1 ∧ count PERIOD w = 0 →
     to_amount v = replace COMMA [PERIOD] w ∧ to_amount v ≠ w)
  ∧ (¬ (count COMMA w = 1 ∧ count PERIOD w = 0) → to_amount v = w)
  ∧ to_amount (Some (lit "1 234,56")) = lit "1234.56"
  ∧ to_amount (Some (lit "1234.56")) = lit "1234.56"
  ∧ to_amount (Some (lit "1,2,3")) = lit "1,2,3".
Proof.
  intros w.
  assert (Hsp : SPACE ∉ w).
  { subst w. apply replaced_gone, not_elem_of_nil. }
  assert (Hdef : to_amount v =
            if bool_decide (count COMMA w = 1 ∧ count PERIOD w = 0)
            then replace COMMA [PERIOD] w else w).
  { unfold to_amount. fold w.
    destruct (decide (count COMMA w = 1)) as [Hc|Hc];
      destruct (decide (count PERIOD w = 0)) as [Hp|Hp];
      repeat first [rewrite bool_decide_eq_true_2 by tauto
                   |rewrite bool_decide_eq_false_2 by tauto]; done. }
  split; [exact Hdef|]. split.
  { rewrite Hdef. destruct (bool_decide _); [|exact Hsp].
    intros Hin. apply elem_of_replace in Hin as (c & Hc & [[_ Hx]|[_ Hx]]).
    - apply list_elem_of_singleton in Hx. discriminate.
    - by rewrite <-Hx in Hc. }
  split.
  { intros Hcond. rewrite Hdef, bool_decide_eq_true_2 by done. split; [done|].
    intros Heq. destruct Hcond as [Hc _].
    assert (COMMA ∈ w) as Hin by (apply count_pos; lia).
    rewrite <-Heq in Hin. revert Hin. apply replaced_gone.
    rewrite list_elem_of_singleton. discriminate. }
  split.
  { intros Hcond. by rewrite Hdef, bool_decide_eq_false_2. }
  vm_compute. done.
Qed.

End amount.

(** ** create_xml_file.py: the required columns *)

Section required_columns.
Import Py Xml.
Context `{Unicode}.

Lemma by_norm_snoc (headers : list pystr) h :
  by_norm (headers ++ [h]) = <[normalize_header h := h]> (by_norm headers).
Proof. unfold by_norm. by rewrite foldl_app. Qed.

Lemma by_norm_None (headers : list pystr) n :
  by_norm headers !! n = None ↔ ∀ h, h ∈ headers → normalize_header h ≠ n.
Proof.
  induction headers as [|h headers IH] using rev_ind.
  - split; [|done]. intros _ h Hh. by apply elem_of_nil in Hh.
  - rewrite by_norm_snoc, lookup_insert_None, IH. split.
    + intros [Hall Hne] h' Hh'. apply elem_of_app in Hh' as [?|Hh']; [auto|].
      by apply list_elem_of_singleton in Hh' as ->.
    + intros Hall. split.
      * intros h' Hh'. apply Hall, elem_of_app. by left.
      * apply Hall, elem_of_app. right. by apply list_elem_of_singleton.
Qed.

Lemma by_norm_Some (headers : list pystr) n h :
  by_norm headers !! n = Some h → h ∈ headers ∧ normalize_header h = n.
Proof.
  induction headers as [|h' headers IH] using rev_ind.
  - done.
  - rewrite by_norm_snoc. destruct (decide (normalize_header h' = n)) as [<-|Hne].
    + rewrite lookup_insert_eq. intros [= <-]. split; [|done].
      apply elem_of_app. right. by apply list_elem_of_singleton.
    + rewrite lookup_insert_ne by done. intros Hl. destruct (IH Hl) as [? ?].
      split; [|done]. apply elem_of_app. by left.
Qed.

Lemma elem_of_missing (headers : list pystr) k :
  k ∈ missing headers ↔ ∀ h, h ∈ headers → normalize_header h ≠ needed_norm k.
Proof.
  unfold missing. rewrite list_elem_of_In, filter_In, bool_decide_eq_true, by_norm_None.
  split; [tauto|]. intros Hall. split; [|done]. destruct k; cbn; tauto.
Qed.


End required_columns.

Section required_columns_examples.
#[local] Existing Instance Slovak.unicode.
Import Py Xml.

(** A header list in a different spelling passes; one without the two
    account columns is refused, and the message names exactly those. *)
Example ensure_required_columns_runs :
  (∃ cols, ensure_required_columns
             [lit "NÁZOV"; lit " účet md "; lit "Ucet Dal"; lit "Stred.";
              lit "Zák."; lit "Činn."] = inr cols
           ∧ cols ucet_md = lit " účet md ")
  ∧ ensure_required_columns [lit "Názov"; lit "Stred."; lit "Zák."; lit "Činn."]
    = inl (SystemExit (lit "Chýbajúce stĺpce v CSV: Účet MD, Účet Dal"
                       ++ [LF]
                       ++ lit "Prítomné (normalizované) hlavičky: cinn., nazov, stred., zak.")).
Proof. split; [eexists; split; vm_compute; reflexivity | vm_compute; reflexivity]. Qed.

End required_columns_examples.

(** ** create_xml_file.py: assembling the document *)

Section assembler.
Import Py Xml.

Lemma attr_get_set a k v key :
  attr_get (attr_set a k v) key = if decide (k = key) then Some v else attr_get a key.
Proof.
  induction a as [|[k' w] a IH]; cbn.
  - done.
  - destruct (decide (k' = k)) as [->|Hne]; cbn.
    + by destruct (decide (k = key)).
    + rewrite IH. destruct (decide (k' = key)) as [->|?]; [|done].
      by rewrite decide_False.
Qed.

(** What [set_attrs] leaves under a key: the trimmed value when the key is
    one of [keys] and the value is kept, what was there before otherwise. *)
Lemma attr_get_set_attrs keep_empty keys get a key :
  attr_get (set_attrs keep_empty keys get a) key =
  if decide (key ∈ keys)
  then (if bool_decide (strip (get key) = []) && negb keep_empty
        then attr_get a key else Some (strip (get key)))
  else attr_get a key.
Proof.
  unfold set_attrs. revert a. induction keys as [|k keys IH]; intros a; cbn.
  - by rewrite decide_False by apply not_elem_of_nil.
  - rewrite IH. destruct (decide (key = k)) as [->|Hne].
    + rewrite (decide_True (P := k ∈ k :: keys)) by apply list_elem_of_here.
      destruct (bool_decide (strip (get k) = []) && negb keep_empty) eqn:Hskip.
      * by destruct (decide (k ∈ keys)).
      * rewrite attr_get_set, (decide_True (P := k = k)) by done.
        by destruct (decide (k ∈ keys)).
    + assert (attr_get (if bool_decide (strip (get k) = []) && negb keep_empty
                        then a else attr_set a k (strip (get k))) key
              = attr_get a key) as ->.
      { destruct (bool_decide (strip (get k) = []) && negb keep_empty); [done|].
        by rewrite attr_get_set, (decide_False (P := k = key)). }
      destruct (decide (key ∈ keys)) as [Hin|Hnin].
      * by rewrite decide_True by (by apply list_elem_of_further).
      * rewrite decide_False; [done|]. rewrite elem_of_cons. tauto.
Qed.




(** The test of the specification: two rows give
    [R1-debit; R2-debit; R1-credit; R2-credit]. *)
Example two_rows_four_items (doc_attrs : gmap pystr pystr) (r1 r2 : dictrow)
    (cols : columns) (keep_empty : bool) :
  items_of (build_xml doc_attrs [r1; r2] cols keep_empty)
  = [ write_item keep_empty (m_attrs cols r1); write_item keep_empty (m_attrs cols r2);
      write_item keep_empty (d_attrs cols r1); write_item keep_empty (d_attrs cols r2) ].
Proof. reflexivity. Qed.

End assembler.

(** ** create_xml_file.py: the serializer *)

Section attributes.
Import Py Xml.

Lemma attr_set_fresh (a : list (pystr * pystr)) k v :
  k ∉ a.*1 → attr_set a k v = a ++ [(k, v)].
Proof.
  induction a as [|[k' w] a IH]; cbn; [done|].
  rewrite not_elem_of_cons. intros [Hne Hk].
  rewrite decide_False by congruence. by rewrite IH.
Qed.

(** [set_attrs] leaves the attributes of [kept], in the order of the
    keys. *)
Lemma set_attrs_kept keep_empty keys get (a : list (pystr * pystr)) :
  NoDup keys → (∀ k, k ∈ keys → k ∉ a.*1) →
  set_attrs keep_empty keys get a = a ++ kept keep_empty keys get.
Proof.
  unfold set_attrs, kept. revert a.
  induction keys as [|k keys IH]; intros a Hnd Hfresh.
  - cbn. by rewrite app_nil_r.
  - apply NoDup_cons in Hnd as [Hk Hnd]. cbn [foldl List.filter].
    assert (Hb : bool_decide (strip (get k) = []) && negb keep_empty
                 = negb (keep_empty || truthy (strip (get k))))
      by (by destruct keep_empty, (strip (get k))).
    rewrite Hb. destruct (keep_empty || truthy (strip (get k))); cbn [negb].
    + rewrite attr_set_fresh by apply Hfresh, list_elem_of_here.
      rewrite IH; [by rewrite fmap_cons, <-app_assoc | done |].
      intros k' Hk'. rewrite fmap_app, elem_of_app. cbn.
      rewrite list_elem_of_singleton. intros [Hin| ->]; [|done].
      revert Hin. by apply Hfresh, list_elem_of_further.
    + apply IH; [done|]. intros k' Hk'. by apply Hfresh, list_elem_of_further.
Qed.

Lemma NoDup_ORDER : NoDup ORDER.
Proof. apply (bool_decide_unpack _). by vm_compute. Qed.

Lemma NoDup_DOC_ATTRS : NoDup DOC_ATTRS.
Proof. apply (bool_decide_unpack _). by vm_compute. Qed.

Lemma write_item_kept (keep_empty : bool) (attrs : gmap pystr pystr) :
  write_item keep_empty attrs
  = Element s_polozka_ud (kept keep_empty ORDER (λ key, default [] (attrs !! key))) [].
Proof.
  unfold write_item. rewrite set_attrs_kept; [done | apply NoDup_ORDER |].
  intros k _. apply not_elem_of_nil.
Qed.

End attributes.

Section lines.
Import Py Xml.

Lemma splitlines_go_plain (l cur rest : pystr) :
  Forall (λ c, is_linebreak c = false) l →
  splitlines_go cur (l ++ rest) = splitlines_go (reverse l ++ cur) rest.
Proof.
  intros Hl. revert cur. induction Hl as [|c l Hc _ IH]; intros cur; [done|].
  rewrite reverse_cons, <-app_assoc. cbn [app splitlines_go]. rewrite Hc. apply IH.
Qed.

Lemma splitlines_go_newline (cur rest : pystr) :
  splitlines_go cur (LF :: rest) = reverse cur :: splitlines_go [] rest.
Proof. cbn. by destruct rest. Qed.

(** Lines without line boundaries, each ended by a newline, are read
    back as they are. *)
Lemma splitlines_go_text_of (ls : list pystr) (rest : pystr) :
  Forall (Forall (λ c, is_linebreak c = false)) ls →
  splitlines_go [] (text_of ls ++ rest) = ls ++ splitlines_go [] rest.
Proof.
  intros Hls. induction Hls as [|l ls Hl _ IH]; [done|].
  unfold text_of in *. cbn [flat_map]. rewrite <-!app_assoc.
  rewrite splitlines_go_plain by done. cbn [app s_newline].
  rewrite splitlines_go_newline, app_nil_r, reverse_involutive, IH. done.
Qed.

Lemma splitlines_text_of (ls : list pystr) :
  Forall (Forall (λ c, is_linebreak c = false)) ls →
  splitlines (text_of ls) = ls.
Proof.
  intros Hls. unfold splitlines.
  rewrite <-(app_nil_r (text_of ls)), splitlines_go_text_of by done.
  cbn. by rewrite app_nil_r.
Qed.

(** No line [splitlines] returns holds a line boundary. *)
Lemma splitlines_go_no_break (s : pystr) :
  (∀ cur, Forall (λ c, is_linebreak c = false) cur →
     Forall (Forall (λ c, is_linebreak c = false)) (splitlines_go cur s))
  ∧ (∀ c cur, Forall (λ c, is_linebreak c = false) cur →
     Forall (Forall (λ c, is_linebreak c = false)) (splitlines_go cur (c :: s))).
Proof.
  assert (Hrev : ∀ cur, Forall (λ c, is_linebreak c = false) cur →
                   Forall (λ c, is_linebreak c = false) (reverse cur)).
  { intros cur Hcur. rewrite Forall_forall in *. intros x Hx.
    by apply Hcur, elem_of_reverse. }
  induction s as [|c' s [IH1 IH2]].
  - split.
    + intros cur Hcur. cbn [splitlines_go].
      destruct cur; [constructor|]. repeat constructor. by apply Hrev.
    + intros c cur Hcur. cbn [splitlines_go]. destruct (is_linebreak c) eqn:Hc.
      * repeat constructor. by apply Hrev.
      * repeat constructor. apply Hrev. by constructor.
  - split; [by apply IH2|]. intros c cur Hcur. cbn [splitlines_go].
    destruct (is_linebreak c) eqn:Hc.
    + destruct ((c =? CR)%N && (c' =? LF)%N).
      * constructor; [by apply Hrev | apply IH1; constructor].
      * constructor; [by apply Hrev | apply IH2; constructor].
    + apply IH2. by constructor.
Qed.

Lemma splitlines_no_break (s : pystr) :
  Forall (Forall (λ c, is_linebreak c = false)) (splitlines s).
Proof. apply splitlines_go_no_break. constructor. Qed.

Lemma join_newline_text_of (l : pystr) (ls : list pystr) :
  join s_newline (l :: ls) ++ s_newline = text_of (l :: ls).
Proof.
  revert l. induction ls as [|l' ls IH]; intros l.
  - unfold text_of. cbn. by rewrite app_nil_r.
  - change (join s_newline (l :: l' :: ls))
      with (l ++ s_newline ++ join s_newline (l' :: ls)).
    rewrite <-!app_assoc, IH. unfold text_of. cbn [flat_map].
    by rewrite <-!app_assoc.
Qed.

End lines.

Section trees.
Import Py Xml.

(** Induction over an element and, through the list, its children. *)
Lemma element_ind' (P : element → Prop) :
  (∀ t a cs, Forall P cs → P (Element t a cs)) → ∀ e, P e.
Proof.
  intros Hstep. fix IH 1. intros [t a cs]. apply Hstep.
  induction cs as [|c cs IHcs]; constructor; [apply IH | apply IHcs].
Qed.

Lemma all_text_Element ok t a (cs : list element) :
  all_text ok (Element t a cs) = true ↔
  forallb ok t = true
  ∧ forallb (λ kv, forallb ok kv.1 && forallb ok kv.2) a = true
  ∧ Forall (λ c, all_text ok c = true) cs.
Proof.
  cbn [all_text]. rewrite !andb_true_iff.
  assert ((fix go (cs : list element) : bool :=
             match cs with [] => true | c :: cs' => all_text ok c && go cs' end) cs
          = true ↔ Forall (λ c, all_text ok c = true) cs) as ->; [|tauto].
  induction cs as [|c cs IH]; [by split; [constructor|]|].
  rewrite andb_true_iff, IH, Forall_cons. tauto.
Qed.

Lemma all_text_mono (ok ok' : N → bool) (e : element) :
  (∀ c, ok c = true → ok' c = true) →
  all_text ok e = true → all_text ok' e = true.
Proof.
  intros Himp. induction e as [t a cs IH] using element_ind'.
  rewrite !all_text_Element. intros (Ht & Ha & Hcs). split_and!.
  - rewrite forallb_forall in *. auto.
  - rewrite forallb_forall in *. intros kv Hkv. specialize (Ha kv Hkv).
    apply andb_true_iff in Ha as [H1 H2]. rewrite forallb_forall in H1, H2.
    apply andb_true_iff. split; apply forallb_forall; auto.
  - rewrite Forall_forall in *. auto.
Qed.

Lemma text_of_app (l1 l2 : list pystr) : text_of (l1 ++ l2) = text_of l1 ++ text_of l2.
Proof. unfold text_of. apply flat_map_app. Qed.

Lemma indent_deeper d :
  List.repeat SPACE (2 * d) ++ s_indent = List.repeat SPACE (2 * S d).
Proof.
  replace (2 * S d) with (2 * d + 2) by lia. by rewrite repeat_app.
Qed.

Lemma writexml_unfold indent addindent newl t a (cs : list element) :
  writexml indent addindent newl (Element t a cs)
  = indent ++ s_lt ++ t ++ flat_map attr_text a
    ++ match cs with
       | [] => s_slash_gt ++ newl
       | _ :: _ =>
           s_gt ++ newl
           ++ flat_map (writexml (indent ++ addindent) addindent newl) cs
           ++ indent ++ s_lt_slash ++ t ++ s_gt ++ newl
       end.
Proof. by destruct cs. Qed.

Lemma lines_of_unfold d t a (cs : list element) :
  lines_of d (Element t a cs)
  = match cs with
    | [] => [List.repeat SPACE (2 * d) ++ s_lt ++ t ++ flat_map attr_text a ++ s_slash_gt]
    | _ :: _ =>
        [List.repeat SPACE (2 * d) ++ s_lt ++ t ++ flat_map attr_text a ++ s_gt]
        ++ flat_map (lines_of (S d)) cs
        ++ [List.repeat SPACE (2 * d) ++ s_lt_slash ++ t ++ s_gt]
    end.
Proof. by destruct cs. Qed.

Lemma flat_map_ext_Forall {A B} (f g : A → list B) (l : list A) :
  Forall (λ x, f x = g x) l → flat_map f l = flat_map g l.
Proof. induction 1 as [|x l Hx _ IH]; [done|]. cbn. by rewrite Hx, IH. Qed.

Lemma text_of_flat_map {A} (f : A → list pystr) (l : list A) :
  text_of (flat_map f l) = flat_map (λ x, text_of (f x)) l.
Proof.
  induction l as [|x l IH]; [done|]. cbn [flat_map]. by rewrite text_of_app, IH.
Qed.

(** [writexml], called as [toprettyxml(indent="  ")] calls it, writes the
    lines of [lines_of]. *)
Lemma writexml_lines (e : element) d :
  writexml (List.repeat SPACE (2 * d)) s_indent s_newline e = text_of (lines_of d e).
Proof.
  revert d. induction e as [t a cs IH] using element_ind'. intros d.
  rewrite writexml_unfold, lines_of_unfold. destruct cs as [|c cs].
  - unfold text_of. cbn [flat_map]. by rewrite app_nil_r, <-!app_assoc.
  - rewrite !text_of_app, text_of_flat_map. unfold text_of at 1 3. cbn [flat_map].
    rewrite !app_nil_r, <-!app_assoc. do 6 f_equal.
    rewrite indent_deeper. apply Forall_cons in IH as [Hc IH].
    rewrite Hc. do 2 f_equal. apply flat_map_ext_Forall.
    eapply Forall_impl; [exact IH|]. intros e He. apply He.
Qed.

Lemma lines_of_markup (e : element) d : Forall markup_line (lines_of d e).
Proof.
  revert d. induction e as [t a cs IH] using element_ind'. intros d.
  rewrite lines_of_unfold. destruct cs as [|c cs].
  - repeat constructor. by eexists d, _.
  - apply Forall_app. split; [repeat constructor; by eexists d, _|].
    apply Forall_app. split.
    + apply Forall_flat_map. eapply Forall_impl; [exact IH|]. intros e He. apply He.
    + repeat constructor. by exists d, ([47%N] ++ t ++ s_gt).
Qed.

Lemma lines_of_lt (e : element) d : Forall (λ l, 60%N ∈ l) (lines_of d e).
Proof.
  eapply Forall_impl; [apply lines_of_markup|].
  intros l (d' & rest & ->). rewrite !elem_of_app. right. left.
  apply list_elem_of_here.
Qed.

Lemma lines_of_nonempty (e : element) d : lines_of d e ≠ [].
Proof. destruct e as [t a [|c cs]]; done. Qed.

End trees.

Section format.
Import Py Xml.

Lemma Forall_replace (P : N → Prop) old new s :
  Forall P new → Forall P s → Forall P (replace old new s).
Proof.
  rewrite !Forall_forall. intros Hnew Hs x Hx.
  apply elem_of_replace in Hx as (c & Hc & [[_ Hx]|[_ ->]]); auto.
Qed.

Lemma write_data_plain (v : pystr) :
  Forall (λ c, is_linebreak c = false) v →
  Forall (λ c, is_linebreak c = false) (write_data v).
Proof.
  intros Hv. unfold write_data.
  repeat (apply Forall_replace; [by vm_compute; repeat constructor|]). done.
Qed.

Lemma forallb_plain (s : pystr) :
  forallb plain_char s = true → Forall (λ c, is_linebreak c = false) s.
Proof.
  rewrite forallb_forall, Forall_forall. intros Hs c Hc.
  apply list_elem_of_In, Hs in Hc. unfold plain_char in Hc.
  apply andb_true_iff in Hc as [_ Hc]. by apply negb_true_iff in Hc.
Qed.

Lemma repeat_space_plain n : Forall (λ c, is_linebreak c = false) (List.repeat SPACE n).
Proof. induction n; by constructor. Qed.

Lemma attrs_plain (a : list (pystr * pystr)) :
  forallb (λ kv, forallb plain_char kv.1 && forallb plain_char kv.2) a = true →
  Forall (λ c, is_linebreak c = false) (flat_map attr_text a).
Proof.
  rewrite forallb_forall. intros Ha. apply Forall_flat_map, Forall_forall.
  intros kv Hkv. apply list_elem_of_In, Ha, andb_true_iff in Hkv as [Hk Hv].
  unfold attr_text. repeat apply Forall_app_2.
  - by repeat constructor.
  - by apply forallb_plain.
  - by repeat constructor.
  - by apply write_data_plain, forallb_plain.
  - by repeat constructor.
Qed.

(** Without line boundaries in the tree there are none in its lines. *)
Lemma lines_of_plain (e : element) d :
  all_text plain_char e = true →
  Forall (Forall (λ c, is_linebreak c = false)) (lines_of d e).
Proof.
  revert d. induction e as [t a cs IH] using element_ind'. intros d.
  rewrite all_text_Element, lines_of_unfold. intros (Ht & Ha & Hcs).
  apply forallb_plain in Ht. apply attrs_plain in Ha.
  pose proof (repeat_space_plain (2 * d)) as Hind.
  destruct cs as [|c cs].
  - repeat constructor. repeat apply Forall_app_2; try done; by repeat constructor.
  - apply Forall_app_2.
    { repeat constructor. repeat apply Forall_app_2; try done; by repeat constructor. }
    apply Forall_app_2.
    + apply Forall_flat_map. rewrite Forall_forall in *. intros e He.
      apply (IH e He), (Hcs e He).
    + repeat constructor. repeat apply Forall_app_2; try done; by repeat constructor.
Qed.

Lemma filter_all {A} (f : A → bool) (l : list A) :
  Forall (λ x, f x = true) l → List.filter f l = l.
Proof. induction 1 as [|x l Hx _ IH]; [done|]. cbn. by rewrite Hx, IH. Qed.

Lemma markup_not_blank (l : pystr) : 60%N ∈ l → truthy (strip l) = true.
Proof. intros Hl. apply (truthy_elem 60%N). by apply elem_of_strip_2. Qed.

(** The body [pretty_no_decl] returns for a tree without line boundaries:
    its lines, as [lines_of] lays them out. *)
Lemma pretty_no_decl_plain (root : element) :
  all_text plain_char root = true →
  pretty_no_decl root = inr (text_of (lines_of 0 root)).
Proof.
  intros Hplain. unfold pretty_no_decl, reparse.
  rewrite (all_text_mono plain_char xml_char root); [|unfold plain_char|done].
  2:{ intros c Hc. by apply andb_true_iff in Hc as [? _]. }
  cbn [mbind result_bind mret result_ret]. unfold toprettyxml.
  change (writexml [] s_indent s_newline root)
    with (writexml (List.repeat SPACE (2 * 0)) s_indent s_newline root).
  rewrite (writexml_lines root 0).
  change (s_minidom_decl ++ s_newline ++ text_of (lines_of 0 root))
    with (text_of (s_minidom_decl :: lines_of 0 root)).
  rewrite splitlines_text_of.
  2:{ constructor; [by vm_compute; repeat constructor | by apply lines_of_plain]. }
  change (startswith s_xml_prefix s_minidom_decl) with true. cbn iota.
  rewrite filter_all.
  2:{ eapply Forall_impl; [apply lines_of_lt|]. apply markup_not_blank. }
  pose proof (lines_of_nonempty root 0) as Hne.
  destruct (lines_of 0 root) as [|l ls]; [done|]. by rewrite join_newline_text_of.
Qed.

End format.

Section serializer.
Import Py Xml.

(** The tree [build_xml] returns, with the attributes spelled out. *)
Lemma build_xml_kept (doc_attrs : gmap pystr pystr) (rows : list dictrow)
    (cols : columns) (keep_empty : bool) :
  build_xml doc_attrs rows cols keep_empty
  = Element s_uctovne_doklady []
      [ Element s_uctovny_doklad
          (kept keep_empty DOC_ATTRS (λ k, default [] (doc_attrs !! k)))
          ((λ attrs, Element s_polozka_ud
                       (kept keep_empty ORDER (λ key, default [] (attrs !! key))) [])
             <$> ((m_attrs cols <$> rows) ++ (d_attrs cols <$> rows))) ].
Proof.
  unfold build_xml. rewrite set_attrs_kept; [|apply NoDup_DOC_ATTRS|].
  2:{ intros k _. apply not_elem_of_nil. }
  cbn [app]. do 3 f_equal. rewrite fmap_app. f_equal; apply list_fmap_ext;
    intros _ attrs _; apply write_item_kept.
Qed.

(** Whatever the values are, the text written is the declaration line
    followed by lines that are not blank, each ended by one newline. *)
Lemma xml_text_lines (doc_attrs : gmap pystr pystr) (rows : list dictrow)
    (cols : columns) (keep_empty : bool) (out : pystr) :
  xml_text doc_attrs rows cols keep_empty = inr out →
  ∃ L, out = text_of (s_decl :: L) ∧ L ≠ []
       ∧ Forall (λ l, truthy (strip l) = true ∧ LF ∉ l) L.
Proof.
  unfold xml_text, pretty_no_decl, reparse. rewrite build_xml_kept.
  set (doc := Element s_uctovny_doklad _ _).
  destruct (all_text xml_char _); [|done].
  cbn [mbind result_bind mret result_ret]. unfold toprettyxml.
  rewrite writexml_unfold.
  set (rest := flat_map (writexml _ _ _) [doc] ++ _).
  change (s_minidom_decl ++ s_newline ++ [] ++ s_lt ++ s_uctovne_doklady
          ++ flat_map attr_text [] ++ s_gt ++ s_newline ++ rest)
    with (text_of [s_minidom_decl; s_lt ++ s_uctovne_doklady ++ s_gt] ++ rest).
  unfold splitlines. rewrite splitlines_go_text_of
    by (by vm_compute; repeat constructor).
  cbn [app]. change (startswith s_xml_prefix s_minidom_decl) with true. cbn iota.
  cbn [List.filter].
  change (truthy (strip (s_lt ++ s_uctovne_doklady ++ s_gt))) with true. cbn iota.
  rewrite join_newline_text_of.
  set (first := s_lt ++ s_uctovne_doklady ++ s_gt).
  set (others := List.filter _ (splitlines_go [] rest)).
  intros Hout. change (mret ?x) with (inr x : result pystr) in Hout.
  exists (first :: others). split_and!.
  - assert (out = s_decl ++ s_newline ++ text_of (first :: others)) as -> by congruence.
    unfold text_of. cbn [flat_map]. by rewrite <-app_assoc.
  - done.
  - constructor.
    { split; [reflexivity|]. apply (bool_decide_unpack _). by vm_compute. }
    apply Forall_forall. intros l Hl. subst others.
    apply list_elem_of_In, filter_In in Hl as [Hl Ht].
    split; [done|]. intros HLF.
    pose proof (splitlines_no_break rest) as Hnb.
    unfold splitlines in Hnb. rewrite Forall_forall in Hnb.
    apply list_elem_of_In, Hnb in Hl. rewrite Forall_forall in Hl.
    by apply Hl in HLF.
Qed.

(** C6, as stated, fails: a line separator (U+2028) inside an attribute
    value is written as it is by the pretty-printer and then taken for a
    line boundary by [splitlines], so the value is cut and the rest of the
    element starts a line of its own, without indentation. *)
Lemma line_separator_breaks_layout :
  xml_text {[ lit "text_ud" := lit "a" ++ [8232%N] ++ lit "b" ]} [] CSV_HEADERS false
  = inr (text_of [ s_decl;
                   lit "<uctovne_doklady>";
                   lit "  <uctovny_doklad text_ud=" ++ [QUOT] ++ lit "a";
                   lit "b" ++ [QUOT] ++ lit "/>";
                   lit "</uctovne_doklady>" ])
  ∧ ¬ markup_line (lit "b" ++ [QUOT] ++ lit "/>").
Proof.
  split; [by vm_compute|]. intros (d & rest & Hd).
  destruct d; vm_compute in Hd; discriminate.
Qed.

(** C6, amended: each element carries, in the fixed order, the trimmed
    values of its attributes, an empty one being left out unless
    [keep_empty], which keeps it with an empty value; the text written
    starts with the line [<?xml version="1.0"?>], holds no blank line and
    ends with one newline; and when no attribute value holds a line
    boundary or a character XML forbids, the text is the declaration
    followed by one line per tag, indented by two spaces per nesting
    level.  The serializer fails only on a character XML forbids. *)
Theorem xml_text_format (doc_attrs : gmap pystr pystr) (rows : list dictrow)
    (cols : columns) (keep_empty : bool) :
  let root := build_xml doc_attrs rows cols keep_empty in
  root = Element s_uctovne_doklady []
           [ Element s_uctovny_doklad
               (kept keep_empty DOC_ATTRS (λ k, default [] (doc_attrs !! k)))
               ((λ attrs, Element s_polozka_ud
                            (kept keep_empty ORDER (λ key, default [] (attrs !! key))) [])
                  <$> ((m_attrs cols <$> rows) ++ (d_attrs cols <$> rows))) ]
  ∧ (∀ out, xml_text doc_attrs rows cols keep_empty = inr out →
       ∃ L, out = text_of (s_decl :: L) ∧ L ≠ []
            ∧ Forall (λ l, truthy (strip l) = true ∧ LF ∉ l) L)
  ∧ (all_text plain_char root = true →
       xml_text doc_attrs rows cols keep_empty = inr (layout root)
       ∧ Forall markup_line (lines_of 0 root))
  ∧ (∀ e, xml_text doc_attrs rows cols keep_empty = inl e →
       e = ExpatError ∧ all_text xml_char root = false).
Proof.
  intros root. split_and!.
  - apply build_xml_kept.
  - apply xml_text_lines.
  - intros Hplain. split; [|apply lines_of_markup].
    unfold xml_text. fold root. by rewrite (pretty_no_decl_plain root Hplain).
  - intros e. unfold xml_text, pretty_no_decl, reparse. fold root.
    destruct (all_text xml_char root); [done|]. by intros [= <-].
Qed.

(** C6, amended, on the scenario of the specification: one row gives a
    debit item on account 221 and a credit item on account 521, both of
    amount 100.50. *)
Lemma xml_text_format_witness :
  let root := build_xml Slovak.sample_doc [Slovak.sample_row] CSV_HEADERS false in
  all_text plain_char root = true
  ∧ xml_text Slovak.sample_doc [Slovak.sample_row] CSV_HEADERS false = inr (layout root)
  ∧ lines_of 0 root
    = [ lit "<uctovne_doklady>";
        lit "  <uctovny_doklad"
          ++ flat_map attr_text
               [ (lit "cislo_ud", lit "250901"); (lit "datum_ud", lit "30.09.2025");
                 (lit "mandant_id", lit "1"); (lit "druh_ud", lit "ID UCTO");
                 (lit "typ_ud", lit "I"); (lit "text_ud", lit "Zaúčtovanie ucto") ]
          ++ lit ">";
        lit "    <polozka_ud"
          ++ flat_map attr_text
               [ (lit "suma", lit "100.50"); (lit "ucet", lit "221"); (lit "strana", lit "M");
                 (lit "os", lit "10"); (lit "eo", lit "20"); (lit "text_pud", lit "Mzdy") ]
          ++ lit "/>";
        lit "    <polozka_ud"
          ++ flat_map attr_text
               [ (lit "suma", lit "100.50"); (lit "ucet", lit "521"); (lit "strana", lit "D");
                 (lit "os", lit "10"); (lit "eo", lit "20"); (lit "text_pud", lit "Mzdy") ]
          ++ lit "/>";
        lit "  </uctovny_doklad>";
        lit "</uctovne_doklady>" ].
Proof.
  split; [by vm_compute|]. split; [|by vm_compute].
  exact (proj1 (proj1 (proj2 (proj2
           (xml_text_format Slovak.sample_doc [Slovak.sample_row] CSV_HEADERS false)))
           eq_refl)).
Defined.

(** The test of the specification: one empty attribute, without and with
    [keep_empty]. *)
Example empty_attribute_both_ways :
  let doc_attrs : gmap pystr pystr :=
    <[ lit "cislo_ud" := lit "250901" ]> {[ lit "text_ud" := lit "  " ]} in
  xml_text doc_attrs [] CSV_HEADERS false
  = inr (text_of [ s_decl;
                   lit "<uctovne_doklady>";
                   lit "  <uctovny_doklad cislo_ud=" ++ [QUOT] ++ lit "250901" ++ [QUOT]
                     ++ lit "/>";
                   lit "</uctovne_doklady>" ])
  ∧ kept true [lit "cislo_ud"; lit "text_ud"] (λ k, default [] (doc_attrs !! k))
    = [ (lit "cislo_ud", lit "250901"); (lit "text_ud", []) ]
  ∧ attr_text (lit "text_ud", []) = lit " text_ud=" ++ [QUOT; QUOT].
Proof. by vm_compute. Qed.

End serializer.

(** ** Python text: what trimming leaves *)

Section trimmed.
Import Py.

Lemma lstrip_head s x : head (lstrip s) = Some x → isspace x = false.
Proof.
  induction s as [|c s IH]; cbn; [done|].
  destruct (isspace c) eqn:Hc; [done|]. cbn. by intros [= <-].
Qed.

Lemma lstrip_fixed s : (∀ x, head s = Some x → isspace x = false) → lstrip s = s.
Proof. destruct s as [|c s]; cbn; [done|]. intros Hh. by rewrite (Hh c). Qed.

Lemma lstrip_all s : Forall (λ c, isspace c = true) s → lstrip s = [].
Proof. induction 1 as [|c s Hc _ IH]; cbn; [done|]. by rewrite Hc. Qed.

Lemma lstrip_last s y : last s = Some y → isspace y = false → last (lstrip s) = Some y.
Proof.
  intros Hl Hy. induction s as [|c s IH]; [done|]. cbn [lstrip].
  destruct (isspace c) eqn:Hc; [|done].
  destruct s as [|c' s]; [cbn in Hl; congruence|]. by apply IH.
Qed.

Lemma rstrip_last s y : last (rstrip s) = Some y → isspace y = false.
Proof. unfold rstrip. rewrite last_reverse. apply lstrip_head. Qed.

Lemma rstrip_head s x : head s = Some x → isspace x = false → head (rstrip s) = Some x.
Proof.
  intros Hh Hx. unfold rstrip. rewrite head_reverse.
  apply lstrip_last; [by rewrite last_reverse | done].
Qed.

Lemma rstrip_fixed s : (∀ y, last s = Some y → isspace y = false) → rstrip s = s.
Proof.
  intros Hl. unfold rstrip. rewrite lstrip_fixed, reverse_involutive; [done|].
  intros x. rewrite head_reverse. apply Hl.
Qed.

(** The ends of a trimmed string are not white space ... *)
Lemma strip_ends s :
  (∀ x, head (strip s) = Some x → isspace x = false)
  ∧ (∀ y, last (strip s) = Some y → isspace y = false).
Proof.
  unfold strip. split; [|apply rstrip_last].
  intros x Hx. destruct (lstrip s) as [|x0 t] eqn:Hu; [done|].
  assert (isspace x0 = false) as H0 by (apply (lstrip_head s); by rewrite Hu).
  rewrite (rstrip_head (x0 :: t) x0) in Hx by done. congruence.
Qed.

(** ... and a string with such ends is left as it is. *)
Lemma strip_fixed s :
  (∀ x, head s = Some x → isspace x = false) →
  (∀ y, last s = Some y → isspace y = false) →
  strip s = s.
Proof. intros Hh Hl. unfold strip. by rewrite lstrip_fixed, rstrip_fixed. Qed.

Lemma strip_idem s : strip (strip s) = strip s.
Proof. destruct (strip_ends s). by apply strip_fixed. Qed.

Lemma strip_nil_iff s : strip s = [] ↔ ∀ c, c ∈ s → isspace c = true.
Proof.
  split.
  - intros Hs c Hc. destruct (isspace c) eqn:Hsp; [done|].
    pose proof (elem_of_strip_2 c s Hc Hsp) as Hin. rewrite Hs in Hin.
    by apply elem_of_nil in Hin.
  - intros Hall. unfold strip. rewrite lstrip_all; [done|]. by apply Forall_forall.
Qed.

(** Replacing a character keeps the ends free of white space, unless a
    character that is no white space is replaced by nothing. *)
Lemma replace_ends old new s :
  (∀ c, c ∈ new → isspace c = false) →
  (new = [] → isspace old = true) →
  (∀ x, head s = Some x → isspace x = false) →
  (∀ y, last s = Some y → isspace y = false) →
  (∀ x, head (replace old new s) = Some x → isspace x = false)
  ∧ (∀ y, last (replace old new s) = Some y → isspace y = false).
Proof.
  intros Hnew Hnil Hh Hl. split.
  - destruct s as [|x0 t]; [done|]. intros x. unfold replace. cbn [flat_map].
    specialize (Hh x0 eq_refl).
    destruct (N.eqb_spec x0 old) as [->|Hne]; [|by intros [= <-]].
    destruct new as [|n0 new']; [rewrite Hnil in Hh; done|].
    intros [= <-]. apply Hnew, list_elem_of_here.
  - destruct (decide (s = [])) as [->|Hne]; [done|].
    destruct (exists_last Hne) as (t & y0 & ->). intros y.
    specialize (Hl y0 (last_snoc _ _)).
    unfold replace. rewrite flat_map_app. cbn [flat_map]. rewrite app_nil_r.
    destruct (N.eqb_spec y0 old) as [->|Hne']; [|rewrite last_snoc; by intros [= <-]].
    destruct (decide (new = [])) as [Hn|Hn]; [rewrite Hnil in Hl; done|].
    destruct (exists_last Hn) as (n' & z & ->).
    rewrite app_assoc, last_snoc. intros [= <-].
    apply Hnew, elem_of_app. right. apply list_elem_of_here.
Qed.

Lemma count_zero c s : c ∉ s → count c s = 0.
Proof. intros Hc. pose proof (count_pos c s) as Hp. destruct (count c s); [done|]. exfalso. apply Hc, Hp. lia. Qed.

End trimmed.

(** ** clean_csv_header.py: cleaned cells *)

Section cleaned_cells.
Import Py Clean.

Lemma clean_str_no_nbsp (s : option pystr) : NBSP ∉ clean_str s.
Proof.
  destruct s as [c|]; [|apply not_elem_of_nil].
  intros Hin. apply elem_of_strip in Hin. revert Hin. apply replaced_gone.
  rewrite list_elem_of_singleton. done.
Qed.

Lemma clean_str_twice (s : option pystr) : clean_str (Some (clean_str s)) = clean_str s.
Proof.
  destruct s as [c|]; [|done].
  change (clean_str (Some (clean_str (Some c))))
    with (strip (replace NBSP [SPACE] (clean_str (Some c)))).
  rewrite replace_absent by apply clean_str_no_nbsp. apply strip_idem.
Qed.

(** X1: [clean_str] is idempotent: what it returns holds no no-break
    space and is trimmed, so cleaning it again changes nothing. *)
Theorem clean_str_idempotent (s : option pystr) :
  clean_str (Some (clean_str s)) = clean_str s
  ∧ (NBSP ∉ clean_str s)
  ∧ strip (clean_str s) = clean_str s.
Proof.
  split_and!; [apply clean_str_twice|apply clean_str_no_nbsp|].
  destruct s as [c|]; [apply strip_idem|done].
Qed.

Lemma clean_str_nil_iff c :
  clean_str (Some c) = [] ↔ ∀ x, x ∈ c → isspace x = true.
Proof.
  cbn [clean_str]. rewrite strip_nil_iff. split.
  - intros Hall x Hx. destruct (decide (x = NBSP)) as [->|Hne]; [done|].
    apply Hall, elem_of_replace. exists x. split; [done|]. by right.
  - intros Hall x Hx. apply elem_of_replace in Hx as (c0 & Hc0 & [[_ Hx]|[_ ->]]).
    + apply list_elem_of_singleton in Hx as ->. done.
    + by apply Hall.
Qed.

(** X2: A row is blank exactly when every character of every cell is
    white space in the sense of [str.strip]: tabs, no-break spaces and the
    like count as blank, not only the space. *)
Theorem is_empty_row_whitespace (r : row) :
  is_empty_row r = true ↔ ∀ c x, c ∈ r → x ∈ c → isspace x = true.
Proof.
  unfold is_empty_row. rewrite negb_true_iff, <-not_true_iff_false, existsb_exists.
  split.
  - intros Hno c x Hc Hx. apply (proj1 (clean_str_nil_iff c)); [|done].
    destruct (clean_str (Some c)) eqn:Hcs; [done|].
    exfalso. apply Hno. exists c. rewrite <-list_elem_of_In, Hcs. done.
  - intros Hall (c & Hc & Ht). apply list_elem_of_In in Hc.
    rewrite (proj2 (clean_str_nil_iff c)) in Ht; [done|]. intros x. by apply Hall.
Qed.

End cleaned_cells.

(** ** create_xml_file.py: the amount, once more *)

Section amount_again.
Import Py Xml.

(** X3: [to_amount] is idempotent, and its result never holds a lone
    decimal comma: a value that went through it is passed through
    unchanged by a second call. *)
Theorem to_amount_idempotent (v : option pystr) :
  to_amount (Some (to_amount v)) = to_amount v
  ∧ strip (to_amount v) = to_amount v
  ∧ ¬ (count COMMA (to_amount v) = 1 ∧ count PERIOD (to_amount v) = 0).
Proof.
  set (w := replace SPACE [] (strip (or_empty v))).
  assert (to_amount v
          = if bool_decide (count COMMA w = 1) && bool_decide (count PERIOD w = 0)
            then replace COMMA [PERIOD] w else w) as Hr by done.
  destruct (strip_ends (or_empty v)) as [Hh Hl].
  destruct (replace_ends SPACE [] (strip (or_empty v))) as [Hwh Hwl]; try done.
  { intros c Hc. by apply elem_of_nil in Hc. }
  fold w in Hwh, Hwl.
  assert (SPACE ∉ w) as Hsw.
  { apply replaced_gone. apply not_elem_of_nil. }
  assert (strip (to_amount v) = to_amount v) as Hstrip.
  { rewrite Hr. destruct (_ && _); [|by apply strip_fixed].
    destruct (replace_ends COMMA [PERIOD] w) as [? ?]; try done.
    - intros c Hc. apply list_elem_of_singleton in Hc as ->. done.
    - by apply strip_fixed. }
  assert (SPACE ∉ to_amount v) as Hsp.
  { rewrite Hr. destruct (_ && _); [|done].
    intros Hin. apply elem_of_replace in Hin as (c & Hc & [[_ Hx]|[_ Hx]]).
    - apply list_elem_of_singleton in Hx. done.
    - rewrite <-Hx in Hc. done. }
  assert (¬ (count COMMA (to_amount v) = 1 ∧ count PERIOD (to_amount v) = 0)) as Hcond.
  { rewrite Hr.
    destruct (bool_decide (count COMMA w = 1) && bool_decide (count PERIOD w = 0)) eqn:Hc.
    - intros [Hone _]. rewrite count_zero in Hone; [done|].
      apply replaced_gone. rewrite list_elem_of_singleton. done.
    - intros [H1 H2]. apply andb_false_iff in Hc as [Hc|Hc];
        apply bool_decide_eq_false in Hc; done. }
  split_and!; [|done|done].
  assert (∀ u, to_amount (Some u)
               = if bool_decide (count COMMA (replace SPACE [] (strip u)) = 1)
                    && bool_decide (count PERIOD (replace SPACE [] (strip u)) = 0)
                 then replace COMMA [PERIOD] (replace SPACE [] (strip u))
                 else replace SPACE [] (strip u)) as Hu by done.
  rewrite (Hu (to_amount v)), Hstrip, (replace_absent SPACE) by done.
  destruct (bool_decide (count COMMA (to_amount v) = 1)
            && bool_decide (count PERIOD (to_amount v) = 0)) eqn:Hc; [|done].
  exfalso. apply Hcond. apply andb_true_iff in Hc as [H1 H2].
  apply bool_decide_eq_true in H1, H2. done.
Qed.

End amount_again.

(** ** clean_csv_header.py: the header row, once located *)

Section substrings.
Import Py.

Lemma startswith_app p s : startswith p (p ++ s) = true.
Proof. induction p as [|a p IH]; cbn; [done|]. by rewrite N.eqb_refl. Qed.

Lemma contains_app a p b : contains p (a ++ p ++ b) = true.
Proof.
  induction a as [|x a IH].
  - cbn [app]. destruct (p ++ b) eqn:Hpb; cbn; rewrite <-Hpb, startswith_app; done.
  - cbn [app contains]. rewrite IH. apply orb_true_r.
Qed.

Lemma rstrip_prefix s : ∃ ws, s = rstrip s ++ ws.
Proof.
  unfold rstrip. destruct (lstrip_suffix (reverse s)) as (ws & Hs & _).
  exists (reverse ws). rewrite <-reverse_app, <-Hs. by rewrite reverse_involutive.
Qed.

Lemma strip_middle s : ∃ a b, s = a ++ strip s ++ b.
Proof.
  destruct (lstrip_suffix s) as (a & Hs & _).
  destruct (rstrip_prefix (lstrip s)) as (b & Hb).
  exists a, b. unfold strip. by rewrite <-Hb.
Qed.

Lemma replace_take old new t m b :
  replace old [new] t = m ++ b → new ∉ m → take (length m) t = m.
Proof.
  revert m. induction t as [|c t IH]; intros m Hs Hm.
  - symmetry in Hs. by apply app_eq_nil in Hs as [-> _].
  - destruct m as [|z m]; [done|]. cbn [length take].
    unfold replace in Hs. cbn [flat_map] in Hs.
    apply not_elem_of_cons in Hm as [Hz Hm].
    destruct (N.eqb_spec c old) as [->|Hne]; cbn in Hs; injection Hs as Hc Hs.
    + congruence.
    + subst z. f_equal. by apply IH.
Qed.

(** A part of [s.replace(old, new)] that does not hold the new character
    is a part of [s]. *)
Lemma replace_middle old new s a m b :
  replace old [new] s = a ++ m ++ b → new ∉ m →
  ∃ a' b', s = a' ++ m ++ b'.
Proof.
  revert s. induction a as [|y a IH]; intros s Hs Hm.
  - exists [], (drop (length m) s). cbn [app].
    rewrite <-(take_drop (length m) s) at 1. f_equal. by eapply replace_take.
  - destruct s as [|x s]; [done|]. unfold replace in Hs. cbn [flat_map] in Hs.
    destruct (x =? old)%N; cbn in Hs; injection Hs as _ Hs;
      destruct (IH s Hs Hm) as (a' & b' & ->); by exists (x :: a'), b'.
Qed.

End substrings.

Section header_found.
Import Py Clean.

Lemma join_cons sep c (rest : list pystr) : ∃ t, join sep (c :: rest) = c ++ t.
Proof.
  destruct rest as [|c' rest]; cbn [join].
  - exists []. by rewrite app_nil_r.
  - by eexists.
Qed.

Lemma header_primary_fallback (r : row) :
  header_primary r = true → header_fallback r = true.
Proof.
  rewrite header_primary_iff, header_fallback_iff.
  intros (c & rest & -> & Hc & Hmd & Hdal). split_and!; [|done|done].
  cbn [clean_str] in Hc.
  destruct (strip_middle (replace NBSP [SPACE] c)) as (a & b & Hs). rewrite Hc in Hs.
  destruct (replace_middle NBSP SPACE c a s_Nazov b Hs) as (a' & b' & ->).
  { apply (bool_decide_unpack _). by vm_compute. }
  destruct (join_cons s_semicolon (a' ++ s_Nazov ++ b') rest) as (t & ->).
  rewrite <-!app_assoc. apply contains_app.
Qed.

(** X4: Every row the first pass of [find_header_index] accepts is also
    accepted by the second pass.  So the function fails exactly when no row
    holds the three header texts, and the row it returns always holds
    them. *)
Theorem find_header_index_fallback_rule (rows : table) :
  (∀ r, header_primary r = true → header_fallback r = true)
  ∧ (∀ i, find_header_index rows = inr i →
          ∃ r, rows !! i = Some r ∧ header_fallback r = true)
  ∧ ((∃ e, find_header_index rows = inl e) ↔
     ∀ r, r ∈ rows → header_fallback r = false).
Proof.
  split; [apply header_primary_fallback|]. unfold find_header_index. split.
  - intros i.
    destruct (list_find (λ r, header_primary r = true) rows) as [[j r]|] eqn:Hp.
    + intros [= <-]. apply list_find_Some in Hp as (Hr & Hpr & _).
      exists r. split; [done|]. by apply header_primary_fallback.
    + destruct (list_find (λ r, header_fallback r = true) rows) as [[j r]|] eqn:Hf;
        [|done].
      intros [= <-]. apply list_find_Some in Hf as (Hr & Hfr & _). by exists r.
  - split.
    + intros [e He] r Hr.
      destruct (list_find (λ r, header_primary r = true) rows) as [[j r']|]; [done|].
      destruct (list_find (λ r, header_fallback r = true) rows) as [[j r']|] eqn:Hf;
        [done|].
      by apply (proj1 (list_find_no_match header_fallback rows)).
    + intros Hno.
      assert (list_find (λ r, header_fallback r = true) rows = None) as ->.
      { by apply list_find_no_match. }
      assert (list_find (λ r, header_primary r = true) rows = None) as ->.
      { apply list_find_no_match. intros r Hr.
        destruct (header_primary r) eqn:Hp; [|done].
        apply header_primary_fallback in Hp. rewrite Hno in Hp; done. }
      by eexists.
Qed.

Lemma list_find_drop (rule : row → bool) (rows : table) i r :
  list_find (λ r, rule r = true) rows = Some (i, r) →
  list_find (λ r, rule r = true) (drop i rows) = Some (0, r).
Proof.
  intros (Hr & Hp & _)%list_find_Some.
  rewrite (drop_S _ _ _ Hr). cbn. by rewrite decide_True.
Qed.

Lemma list_find_drop_None (rule : row → bool) (rows : table) i :
  list_find (λ r, rule r = true) rows = None →
  list_find (λ r, rule r = true) (drop i rows) = None.
Proof.
  rewrite !list_find_no_match. intros Hno r Hr. apply Hno.
  apply list_elem_of_lookup in Hr as [j Hj]. rewrite lookup_drop in Hj.
  by eapply list_elem_of_lookup_2.
Qed.

Lemma find_header_index_drop (rows : table) i :
  find_header_index rows = inr i → find_header_index (drop i rows) = inr 0.
Proof.
  unfold find_header_index.
  destruct (list_find (λ r, header_primary r = true) rows) as [[j r]|] eqn:Hp.
  - intros [= <-]. by rewrite (list_find_drop _ _ _ _ Hp).
  - rewrite (list_find_drop_None _ _ i Hp).
    destruct (list_find (λ r, header_fallback r = true) rows) as [[j r]|] eqn:Hf; [|done].
    intros [= <-]. by rewrite (list_find_drop _ _ _ _ Hf).
Qed.

End header_found.

Section preamble.
Import Py Clean.
Context `{Unicode}.

Lemma before_fold_drop (rows : table) i e (t : table) :
  before_fold rows = inr (i, e, t) → before_fold (drop i rows) = inr (0, e, t).
Proof.
  unfold before_fold.
  destruct (find_header_index rows) as [err|j] eqn:Hj; [done|].
  cbn [mbind result_bind].
  destruct (select_required_columns (drop j rows)) as [|h sel] eqn:Hsel; [done|].
  cbn [mbind result_bind mret result_ret]. intros [= <- <- <-].
  rewrite (find_header_index_drop rows j Hj). cbn [mbind result_bind].
  rewrite drop_0, Hsel. done.
Qed.

(** X5: The rows above the header do not matter: a run on the table
    with its preamble cut off writes the same rows and reports the same
    figures, with the header at index 0. *)
Theorem clean_csv_without_preamble (rows : table) (run : run) :
  clean_csv rows = inr run →
  clean_csv (drop (header_index run) rows)
  = inr {| header_index := 0; end_index := end_index run;
           summary := summary run; clean_rows := clean_rows run |}.
Proof.
  unfold clean_csv.
  destruct (before_fold rows) as [err|[[i e] t]] eqn:Hb; [done|].
  apply before_fold_drop in Hb. cbn [mbind result_bind].
  destruct t as [|h t].
  { intros [= <-]. cbn [header_index]. rewrite Hb. done. }
  destruct (forward_fill_from_summary (h :: t) (find_cinn_col_index h))
    as [err|[[t' f] rm]] eqn:Hff; [done|].
  cbn [mbind result_bind].
  match goal with |- context [getitem ?l 0] => destruct (getitem l 0) as [err|h'] eqn:Hg end;
    [done|].
  cbn [mbind result_bind mret result_ret]. intros [= <-]. cbn [header_index].
  rewrite Hb. cbn [mbind result_bind]. rewrite Hff. cbn [mbind result_bind].
  rewrite Hg. done.
Qed.

End preamble.

(** ** clean_csv_header.py: the kept columns *)

Section kept_columns.
Import Py Clean.
Context `{Unicode}.

Lemma indices_where_length {A} (f : A → bool) s (l : list A) :
  length (indices_where f s l) ≤ length l.
Proof.
  revert s. induction l as [|x l IH]; intros s; cbn; [done|].
  specialize (IH (S s)). destruct (f x); cbn; lia.
Qed.

Lemma indices_where_sublist {A B} (f : A → bool) (d : B) s (l : list A) (r : list B) :
  length l ≤ length r →
  ((λ i, default d (r !! (i - s))) <$> indices_where f s l) `sublist_of` r.
Proof.
  revert s r. induction l as [|x l IH]; intros s r Hlen; cbn [indices_where].
  - apply sublist_nil_l.
  - destruct r as [|c r]; [cbn in Hlen; lia|]. cbn in Hlen.
    assert (((λ i, default d ((c :: r) !! (i - s))) <$> indices_where f (S s) l)
            = ((λ i, default d (r !! (i - S s))) <$> indices_where f (S s) l)) as Htl.
    { apply list_fmap_ext. intros k i Hi.
      apply list_elem_of_lookup_2, elem_of_indices_where in Hi as (_ & Hle & _).
      replace (i - s) with (S (i - S s)) by lia. done. }
    destruct (f x).
    + cbn [fmap list_fmap]. rewrite Nat.sub_diag. cbn [lookup list_lookup default].
      apply sublist_skip. fold (@fmap list _ nat B). rewrite Htl. apply IH. lia.
    + rewrite Htl. apply sublist_cons, IH. lia.
Qed.

Lemma project_sublist (h r : row) :
  length h ≤ length r → project (keep_indices h) r `sublist_of` r.
Proof.
  intros Hlen. unfold project. destruct (keep_indices h) as [|k keep] eqn:Hk; [done|].
  rewrite <-Hk. unfold keep_indices.
  rewrite <-(length_fmap normalize h) in Hlen.
  pose proof (indices_where_sublist wanted ([] : pystr) 0 (normalize <$> h) r Hlen) as Hs.
  erewrite list_fmap_ext; [exact Hs|]. intros ? i _. cbn. by rewrite Nat.sub_0_r.
Qed.

(** X6: The projector keeps the rows and their order, takes the cells of
    a row in the order they stand in the source, and, once a column is
    kept, gives every row the width of the projected header: short rows
    are padded, never dropped. *)
Theorem select_required_columns_shape (h : row) (data : table) :
  let out := select_required_columns (h :: data) in
  length out = S (length data)
  ∧ (∀ j r r', (h :: data) !! j = Some r → out !! j = Some r' →
        length h ≤ length r → r' `sublist_of` r)
  ∧ (keep_indices h ≠ [] →
     ∀ r', r' ∈ out → length r' = length (keep_indices h) ∧ length r' ≤ length h).
Proof.
  intros out. subst out. rewrite select_required_columns_project.
  split_and!.
  - cbn. by rewrite length_fmap.
  - intros j r r' Hr Hr' Hlen.
    change (project (keep_indices h) h :: (project (keep_indices h) <$> data))
      with (project (keep_indices h) <$> (h :: data)) in Hr'.
    rewrite list_lookup_fmap, Hr in Hr'. injection Hr' as <-. by apply project_sublist.
  - intros Hk r' Hr'.
    change (project (keep_indices h) h :: (project (keep_indices h) <$> data))
      with (project (keep_indices h) <$> (h :: data)) in Hr'.
    apply list_elem_of_fmap in Hr' as (r & -> & _).
    unfold project. destruct (keep_indices h) as [|k keep] eqn:Hkeep; [done|].
    rewrite length_fmap, <-Hkeep. split; [done|].
    unfold keep_indices. etrans; [apply indices_where_length|]. by rewrite length_fmap.
Qed.

End kept_columns.

(** ** clean_csv_header.py: the numeric cells *)

Section numeric_cells.
Import Py Clean.
Context `{Unicode}.

Lemma stripped_twice c :
  replace SPACE [] (replace NBSP [SPACE] (replace SPACE [] (replace NBSP [SPACE] c)))
  = replace SPACE [] (replace NBSP [SPACE] c).
Proof.
  destruct (spaceless_stripped c) as [Hs Hn].
  by rewrite (replace_absent NBSP), (replace_absent SPACE).
Qed.

Lemma strip_row_length idx (r : row) : length (strip_row idx r) = length r.
Proof.
  induction idx as [|j idx IH] using rev_ind; [done|].
  rewrite strip_row_snoc. destruct (strip_row idx r !! j); [|done].
  by rewrite length_insert.
Qed.

Lemma strip_row_lookup idx (r : row) i :
  strip_row idx r !! i
  = (λ c, if bool_decide (i ∈ idx)
          then replace SPACE [] (replace NBSP [SPACE] c) else c) <$> r !! i.
Proof.
  revert i. induction idx as [|j idx IH] using rev_ind; intros i.
  - cbn. rewrite bool_decide_eq_false_2 by apply not_elem_of_nil.
    by destruct (r !! i).
  - rewrite strip_row_snoc, (IH j). destruct (decide (i = j)) as [->|Hne].
    + rewrite (bool_decide_eq_true_2 (j ∈ idx ++ [j]))
        by (apply elem_of_app; right; apply list_elem_of_here).
      destruct (r !! j) as [c0|] eqn:Hr; cbn [fmap option_fmap option_map].
      * rewrite list_lookup_insert_eq
          by (rewrite strip_row_length; by eapply lookup_lt_Some).
        f_equal. case_bool_decide; [apply stripped_twice | done].
      * by rewrite IH, Hr.
    + assert (bool_decide (i ∈ idx ++ [j]) = bool_decide (i ∈ idx)) as ->.
      { apply bool_decide_ext. rewrite elem_of_app, list_elem_of_singleton. tauto. }
      destruct (r !! j) as [c0|]; cbn [fmap option_fmap option_map]; [|apply IH].
      rewrite list_lookup_insert_ne by done. apply IH.
Qed.

Lemma strip_row_idem idx (r : row) : strip_row idx (strip_row idx r) = strip_row idx r.
Proof.
  apply list_eq. intros i. rewrite !strip_row_lookup.
  destruct (r !! i) as [c|]; [|done]. cbn. f_equal.
  case_bool_decide; [apply stripped_twice | done].
Qed.

(** X7: The numeric clean-up touches nothing but the cells under the
    numeric headers: the header row, the number of rows, the width of each
    row and every other cell stay as they are, a numeric cell loses its
    spaces and no-break spaces, and a second pass changes nothing. *)
Theorem strip_spaces_in_numeric_cols_cells (h : row) (data : table) (names names' : row) :
  let out := strip_spaces_in_numeric_cols (h :: data) names in
  head out = Some h
  ∧ length out = S (length data)
  ∧ (∀ j r, data !! j = Some r →
       ∃ r', out !! S j = Some r' ∧ length r' = length r
         ∧ ∀ i c, r !! i = Some c →
             r' !! i = Some (if bool_decide (i ∈ numeric_indices h)
                             then replace SPACE [] (replace NBSP [SPACE] c) else c))
  ∧ strip_spaces_in_numeric_cols out names' = out.
Proof.
  intros out. subst out. unfold strip_spaces_in_numeric_cols.
  split_and!; [done|cbn [length]; by rewrite length_fmap| |].
  - intros j r Hr. exists (strip_row (numeric_indices h) r).
    change ((h :: ?l) !! S j) with (l !! j).
    rewrite list_lookup_fmap, Hr. split_and!; [done|apply strip_row_length|].
    intros i c Hc. by rewrite strip_row_lookup, Hc.
  - f_equal. rewrite <-list_fmap_compose. apply list_fmap_ext.
    intros j r _. apply strip_row_idem.
Qed.

Lemma indices_where_head {A} (f : A → bool) s (l : list A) i rest :
  indices_where f s l = i :: rest →
  s ≤ i ∧ (∃ x, l !! (i - s) = Some x ∧ f x = true)
  ∧ ∀ j y, j < i - s → l !! j = Some y → f y = false.
Proof.
  revert s. induction l as [|x l IH]; intros s; cbn [indices_where]; [done|].
  destruct (f x) eqn:Hx.
  - intros [= <- _]. rewrite Nat.sub_diag. split_and!; [done|by exists x|lia].
  - intros Hi. destruct (IH _ Hi) as (Hle & (y & Hy & Hfy) & Hbefore).
    split_and!; [lia| |].
    + exists y. replace (i - s) with (S (i - S s)) by lia. done.
    + intros [|j] z Hj Hz; [cbn in Hz; congruence|]. cbn in Hz.
      eapply Hbefore; [|done]. lia.
Qed.

(** X8: The Activity column: the first header cell whose normalized text
    holds [činn] or [cinn], which is then one of the numeric columns; the
    last column when there is none.  On a header that is not empty the
    index is always a column of the header. *)
Theorem find_cinn_col_index_first (h : row) :
  let hit c := contains s_cinn (normalize c) || contains s_cinn_ascii (normalize c) in
  (h ≠ [] → find_cinn_col_index h < length h)
  ∧ ((∀ c, c ∈ h → hit c = false) → find_cinn_col_index h = length h - 1)
  ∧ (∀ c, c ∈ h → hit c = true →
       (∃ c', h !! find_cinn_col_index h = Some c' ∧ hit c' = true)
       ∧ (∀ j c', j < find_cinn_col_index h → h !! j = Some c' → hit c' = false)
       ∧ find_cinn_col_index h ∈ numeric_indices h).
Proof.
  intros hit. unfold find_cinn_col_index.
  destruct (indices_where _ 0 (normalize <$> h)) as [|i rest] eqn:Hi.
  - pose proof (proj1 (indices_where_none _ _ _) Hi) as Hnone.
    assert (∀ c, c ∈ h → hit c = false) as Hno.
    { intros c Hc. apply (Hnone (normalize c)). apply list_elem_of_fmap. by exists c. }
    split_and!.
    + destruct h; [done|]. cbn. lia.
    + intros _. by destruct h.
    + intros c Hc Hhit. rewrite Hno in Hhit; done.
  - apply indices_where_head in Hi as (_ & (x & Hx & Hfx) & Hbefore).
    rewrite Nat.sub_0_r in Hx, Hbefore. rewrite list_lookup_fmap in Hx.
    destruct (h !! i) as [c'|] eqn:Hc'; [|done]. cbn in Hx. injection Hx as <-.
    change (hit c' = true) in Hfx.
    split_and!.
    + intros _. by eapply lookup_lt_Some.
    + intros Hno. rewrite (Hno c') in Hfx; [done|]. by eapply list_elem_of_lookup_2.
    + intros _ _ _. split_and!.
      * by exists c'.
      * intros j c'' Hj Hc''. apply (Hbefore j (normalize c'') Hj).
        by rewrite list_lookup_fmap, Hc''.
      * unfold numeric_indices. apply elem_of_indices_where.
        exists (normalize c'). rewrite Nat.sub_0_r, list_lookup_fmap, Hc'.
        split_and!; [lia|done|]. unfold any_in. apply existsb_exists.
        unfold hit in Hfx. apply orb_true_iff in Hfx as [Hf|Hf].
        -- exists s_cinn. split; [|done]. apply list_elem_of_In.
           apply (bool_decide_unpack _). by vm_compute.
        -- exists s_cinn_ascii. split; [|done]. apply list_elem_of_In.
           apply (bool_decide_unpack _). by vm_compute.
Qed.

End numeric_cells.

(** ** clean_csv_header.py: summary rows and the folder, in general *)

Section summary_rows.
Import Py Clean.

Lemma elem_of_nonempty_cells (r : row) j :
  j ∈ nonempty_cells r ↔ ∃ c, r !! j = Some c ∧ truthy (clean_str (Some c)) = true.
Proof.
  unfold nonempty_cells. rewrite elem_of_indices_where.
  setoid_rewrite Nat.sub_0_r. split.
  - intros (c & _ & Hc & Ht). by exists c.
  - intros (c & Hc & Ht). exists c. split_and!; [lia|done|done].
Qed.

Lemma nonempty_is_true (r : row) (want : gset nat) :
  want ≠ ∅ →
  nonempty_is r want = true ↔ ∀ j, j ∈ nonempty_cells r ↔ j ∈ want.
Proof.
  intros Hwant. unfold nonempty_is.
  destruct (nonempty_cells r) as [|j0 js] eqn:Hjs.
  - split; [done|]. intros Hall. exfalso. apply Hwant.
    apply set_eq. intros j. rewrite <-Hall, elem_of_nil, elem_of_empty. done.
  - rewrite bool_decide_eq_true, set_eq.
    by setoid_rewrite elem_of_list_to_set.
Qed.

Lemma variant1_cells (r : row) (k : nat) :
  is_summary_variant1 r k = true ↔
  ∀ j, (∃ c, r !! j = Some c ∧ truthy (clean_str (Some c)) = true) ↔ j = 0 ∨ j = k.
Proof.
  unfold is_summary_variant1.
  rewrite nonempty_is_true
    by (apply non_empty_union_L; left; apply non_empty_singleton_L).
  apply forall_proper. intros j. rewrite elem_of_nonempty_cells.
  rewrite elem_of_union, !elem_of_singleton. done.
Qed.

Lemma variant2_cells (r : row) (k : nat) :
  is_summary_variant2 r k = true ↔
  ∀ j, (∃ c, r !! j = Some c ∧ truthy (clean_str (Some c)) = true) ↔ j = k.
Proof.
  unfold is_summary_variant2.
  rewrite nonempty_is_true by apply non_empty_singleton_L.
  apply forall_proper. intros j. rewrite elem_of_nonempty_cells.
  rewrite elem_of_singleton. done.
Qed.

(** X9: The two summary tests, cell by cell: Variant A holds when the
    first cell and the Activity cell are the filled cells of the row,
    Variant B when the Activity cell alone is.  When the Activity column is
    the first column the two tests agree; otherwise no row passes both. *)
Theorem summary_variants_by_cells (r : row) (k : nat) :
  let filled j := ∃ c, r !! j = Some c ∧ truthy (clean_str (Some c)) = true in
  (is_summary_variant1 r k = true ↔ ∀ j, filled j ↔ j = 0 ∨ j = k)
  ∧ (is_summary_variant2 r k = true ↔ ∀ j, filled j ↔ j = k)
  ∧ is_summary_variant1 r 0 = is_summary_variant2 r 0
  ∧ (k ≠ 0 → is_summary_variant1 r k = true → is_summary_variant2 r k = false).
Proof.
  intros filled. split_and!; [apply variant1_cells|apply variant2_cells| |].
  - unfold is_summary_variant1, is_summary_variant2.
    by rewrite (union_idemp_L ({[0]} : gset nat)).
  - intros Hk Hv1. apply not_true_is_false. intros Hv2.
    apply Hk. symmetry.
    apply (proj1 (variant2_cells r k) Hv2 0), (proj1 (variant1_cells r k) Hv1 0).
    by left.
Qed.

End summary_rows.


Section folder_in_general.
Import Py Clean.
Variable cinn_idx : nat.

Lemma variant1_first_cell (r : row) :
  is_summary_variant1 r cinn_idx = true →
  ∃ c cells, r = c :: cells ∧ truthy (clean_str (Some c)) = true.
Proof.
  intros Hv.
  destruct (proj2 (proj1 (variant1_cells r cinn_idx) Hv 0)) as (c & Hc & Ht); [by left|].
  destruct r as [|c' cells]; [done|]. injection Hc as ->. by exists c, cells.
Qed.

(** What one turn of the loop does to the locals. *)
Lemma fill_step_cases st (p : row) st' :
  fill_step cinn_idx st p = inr st' →
  (is_summary_variant1 p cinn_idx = true
   ∧ out st' = out st ∧ filled st' = filled st ∧ removed st' = S (removed st)
   ∧ ∃ c cells, p = c :: cells ∧ current_group_name st' = Some (clean_str (Some c)))
  ∨ (is_summary_variant1 p cinn_idx = false ∧ is_summary_variant2 p cinn_idx = true
     ∧ out st' = out st ∧ filled st' = filled st ∧ removed st' = S (removed st)
     ∧ current_group_name st' = current_group_name st)
  ∨ (is_summary_variant1 p cinn_idx = false ∧ is_summary_variant2 p cinn_idx = false
     ∧ removed st' = removed st
     ∧ ((out st' = out st ++ [p] ∧ filled st' = filled st
         ∧ (current_group_name st' = None
            ∨ current_group_name st' = current_group_name st))
        ∨ ∃ c cells g, p = c :: cells ∧ clean_str (Some c) = []
            ∧ current_group_name st = Some g ∧ truthy g = true
            ∧ out st' = out st ++ [g :: cells] ∧ filled st' = S (filled st)
            ∧ current_group_name st' = Some g)).
Proof.
  unfold fill_step. destruct (is_summary_variant1 p cinn_idx) eqn:Hv1.
  - destruct (variant1_first_cell p Hv1) as (c & cells & -> & _).
    cbn. intros [= <-]. left. cbn. split_and!; try done. by exists c, cells.
  - destruct (is_summary_variant2 p cinn_idx) eqn:Hv2.
    + intros [= <-]. right. left. done.
    + right. right. split_and!; [done|done| |].
      * revert H. destruct (_ && _); [|by intros [= <-]].
        destruct p; [done|]. by intros [= <-].
      * revert H.
        destruct (negb (truthy match p with [] => [] | c :: _ => clean_str (Some c) end)
                  && truthy (or_empty (current_group_name st))) eqn:Hc.
        -- apply andb_true_iff in Hc as [Hfc Hg]. apply negb_true_iff in Hfc.
           destruct p as [|c cells]; [done|].
           destruct (current_group_name st) as [g|] eqn:Hcur; [|done].
           cbn [setitem lookup list_lookup mbind result_bind mret result_ret
                or_empty default] in Hg |- *.
           intros [= <-]. right. exists c, cells, g.
           cbn [out filled current_group_name].
           change (strip (replace NBSP [SPACE] c)) with (clean_str (Some c)).
           rewrite Hfc. split_and!; try done. by destruct (clean_str (Some c)).
        -- cbn. intros [= <-]. left. cbn. split_and!; [done|done|].
           destruct (truthy _); [by left|by right].
Qed.

Lemma fill_step_raises st (p : row) e :
  fill_step cinn_idx st p = inl e → e = IndexError ∧ p = [].
Proof.
  unfold fill_step. destruct (is_summary_variant1 p cinn_idx) eqn:Hv1.
  - by destruct (variant1_first_cell p Hv1) as (c & cells & -> & _).
  - destruct (is_summary_variant2 p cinn_idx); [done|].
    destruct (_ && _); [|done]. destruct p; [|done]. cbn. by intros [= <-].
Qed.

Lemma fill_fold_counts (data : table) st st' :
  foldlM (fill_step cinn_idx) st data = inr st' →
  ∃ new, out st' = out st ++ new
    ∧ length new + removed st' = removed st + length data
    ∧ filled st' ≤ filled st + length new.
Proof.
  revert st. induction data as [|p data IH]; intros st.
  - intros [= <-]. exists []. rewrite app_nil_r. cbn. split_and!; [done|lia|lia].
  - cbn [foldlM]. destruct (fill_step cinn_idx st p) as [e|st1] eqn:Hstep; [done|].
    cbn [mbind result_bind]. intros Hfold.
    destruct (IH _ Hfold) as (new & Hout & Hlen & Hfilled).
    destruct (fill_step_cases _ _ _ Hstep)
      as [(_ & Ho & Hf & Hr & _)|[(_ & _ & Ho & Hf & Hr & _)|(_ & _ & Hr & Hrow)]].
    + exists new. rewrite Hout, Ho. cbn [length]. split_and!; [done|lia|lia].
    + exists new. rewrite Hout, Ho. cbn [length]. split_and!; [done|lia|lia].
    + destruct Hrow as [(Ho & Hf & _)|(c & cells & g & _ & _ & _ & _ & Ho & Hf & _)].
      * exists (p :: new). rewrite Hout, Ho, <-app_assoc. cbn [length].
        split_and!; [done|lia|lia].
      * exists ((g :: cells) :: new). rewrite Hout, Ho, <-app_assoc. cbn [length].
        split_and!; [done|lia|lia].
Qed.

Lemma fill_fold_raises (data : table) st e :
  foldlM (fill_step cinn_idx) st data = inl e → e = IndexError ∧ [] ∈ data.
Proof.
  revert st. induction data as [|p data IH]; intros st; [done|].
  cbn [foldlM]. destruct (fill_step cinn_idx st p) as [e'|st1] eqn:Hstep.
  - cbn. intros [= <-]. apply fill_step_raises in Hstep as [-> ->].
    split; [done|apply list_elem_of_here].
  - cbn [mbind result_bind]. intros Hfold. destruct (IH _ Hfold) as [-> Hin].
    split; [done|by apply list_elem_of_further].
Qed.

(** X10: The figures [forward_fill_from_summary] returns add up: every
    row is either written or counted as removed, no more names are filled
    in than data rows are written, and the header row stays first. *)
Theorem forward_fill_from_summary_counts (rows : table) (out : table) (filled removed : nat) :
  forward_fill_from_summary rows cinn_idx = inr (out, filled, removed) →
  length out + removed = length rows
  ∧ filled ≤ length out - 1
  ∧ head out = head rows.
Proof.
  unfold forward_fill_from_summary. destruct rows as [|h data].
  - intros [= <- <- <-]. done.
  - destruct (foldlM _ _ data) as [e|st] eqn:Hfold; [done|].
    cbn. intros [= <- <- <-].
    destruct (fill_fold_counts _ _ _ Hfold) as (new & Hout & Hlen & Hfilled).
    cbn in Hout, Hlen, Hfilled. rewrite Hout. cbn. split_and!; [lia|lia|done].
Qed.

(** X11: [forward_fill_from_summary] raises nothing but [IndexError],
    and only on a table that holds an empty row: the row after a Variant A
    row, or after rows filled from one, cannot take the pending name when
    it has no cell at all.  Without an empty row the function returns. *)
Theorem forward_fill_from_summary_raises (rows : table) :
  ((∀ r, r ∈ tail rows → r ≠ []) →
   ∃ res, forward_fill_from_summary rows cinn_idx = inr res)
  ∧ (∀ e, forward_fill_from_summary rows cinn_idx = inl e →
          e = IndexError ∧ [] ∈ tail rows)
  ∧ (∀ h a rest, is_summary_variant1 a cinn_idx = true →
       forward_fill_from_summary (h :: a :: [] :: rest) cinn_idx = inl IndexError).
Proof.
  assert (Hraise : ∀ e, forward_fill_from_summary rows cinn_idx = inl e →
                        e = IndexError ∧ [] ∈ tail rows).
  { intros e. unfold forward_fill_from_summary. destruct rows as [|h data]; [done|].
    destruct (foldlM _ _ data) as [e'|st] eqn:Hfold; [|done].
    cbn. intros [= <-]. by eapply fill_fold_raises. }
  split_and!; [|done|].
  - intros Hall. destruct (forward_fill_from_summary rows cinn_idx) as [e|res] eqn:Hff.
    + destruct (Hraise e eq_refl) as [_ Hin]. by destruct (Hall [] Hin).
    + by exists res.
  - intros h a rest Hv. unfold forward_fill_from_summary. cbn [foldlM].
    destruct (variant1_first_cell a Hv) as (c & cells & -> & Ht).
    set (st0 := {| out := [h]; current_group_name := None; filled := 0; removed := 0 |}).
    assert (fill_step cinn_idx st0 (c :: cells)
            = inr {| out := [h]; current_group_name := Some (clean_str (Some c));
                     filled := 0; removed := 1 |}) as ->.
    { unfold fill_step. by rewrite Hv. }
    cbn [mbind result_bind].
    assert (∀ st, current_group_name st = Some (clean_str (Some c)) →
                  fill_step cinn_idx st [] = inl IndexError) as ->; [|done|done].
    intros st Hcur. unfold fill_step.
    change (is_summary_variant1 [] cinn_idx) with false.
    change (is_summary_variant2 [] cinn_idx) with false.
    rewrite Hcur. unfold or_empty. cbn [default]. unfold id. by rewrite Ht.
Qed.

End folder_in_general.

Section groups.
Import Py Clean.
Variable cinn_idx : nat.

Lemma fill_fold_group (g : pystr) (rs : table) st :
  truthy g = true → current_group_name st = Some g →
  Forall (λ r, is_summary_variant1 r cinn_idx = false
               ∧ (is_summary_variant2 r cinn_idx = true
                  ∨ ∃ c cells, r = c :: cells ∧ clean_str (Some c) = [])) rs →
  ∃ st', foldlM (fill_step cinn_idx) st rs = inr st'
    ∧ out st' = out st ++ ((λ r, g :: tail r)
                  <$> List.filter (λ r, negb (is_summary_variant2 r cinn_idx)) rs)
    ∧ current_group_name st' = Some g
    ∧ filled st'
      = filled st + length (List.filter (λ r, negb (is_summary_variant2 r cinn_idx)) rs)
    ∧ removed st'
      = removed st + length (List.filter (λ r, is_summary_variant2 r cinn_idx) rs).
Proof.
  intros Hg Hcur Hrs. revert st Hcur.
  induction Hrs as [|r rs [Hv1 Hr] _ IH]; intros st Hcur.
  - exists st. cbn. rewrite app_nil_r. split_and!; [done|done|done|lia|lia].
  - cbn [foldlM List.filter].
    destruct (is_summary_variant2 r cinn_idx) eqn:Hv2.
    + assert (fill_step cinn_idx st r
              = inr {| out := out st; current_group_name := current_group_name st;
                       filled := filled st; removed := S (removed st) |}) as ->.
      { unfold fill_step. by rewrite Hv1, Hv2. }
      cbn [mbind result_bind negb].
      edestruct IH as (st' & -> & Ho & Hc & Hf & Hrm); [exact Hcur|].
      exists st'. cbn [out filled removed current_group_name length] in *.
      split_and!; [done|done|done|done|lia].
    + destruct Hr as [?|(c & cells & -> & Hnil)]; [done|].
      assert (fill_step cinn_idx st (c :: cells)
              = inr {| out := out st ++ [g :: cells]; current_group_name := Some g;
                       filled := S (filled st); removed := removed st |}) as ->.
      { unfold fill_step. rewrite Hv1, Hv2, Hnil, Hcur.
        unfold or_empty. cbn [default]. unfold id. by rewrite Hg. }
      cbn [mbind result_bind negb].
      edestruct IH as (st' & -> & Ho & Hc & Hf & Hrm); [done|].
      exists st'. cbn [out filled removed current_group_name length] in *.
      cbn [fmap list_fmap tail]. rewrite Ho, <-app_assoc.
      split_and!; [done|done|done|lia|done].
Qed.

(** X12: A group, in general: after a Variant A row the name of its
    first cell goes into every following row with a blank first cell,
    Variant B rows in between are dropped without ending the group, the
    first row with a name of its own ends it, and a row with a blank first
    cell after that is left as it is. *)
Theorem group_name_fills_until_named_row
    (h : row) (c : pystr) (cells : row) (rs : table) (n b : row) :
  is_summary_variant1 (c :: cells) cinn_idx = true →
  Forall (λ r, is_summary_variant1 r cinn_idx = false
               ∧ (is_summary_variant2 r cinn_idx = true
                  ∨ ∃ c cells, r = c :: cells ∧ clean_str (Some c) = [])) rs →
  is_summary_variant1 n cinn_idx = false → is_summary_variant2 n cinn_idx = false →
  truthy (clean_str (head n)) = true →
  is_summary_variant1 b cinn_idx = false → is_summary_variant2 b cinn_idx = false →
  clean_str (head b) = [] →
  let kept := List.filter (λ r, negb (is_summary_variant2 r cinn_idx)) rs in
  forward_fill_from_summary (h :: (c :: cells) :: rs ++ [n; b]) cinn_idx
  = inr (h :: ((λ r, clean_str (Some c) :: tail r) <$> kept) ++ [n; b],
         length kept,
         S (length (List.filter (λ r, is_summary_variant2 r cinn_idx) rs))).
Proof.
  intros Ha Hrs Hn1 Hn2 Hn Hb1 Hb2 Hb kept. subst kept.
  destruct (variant1_first_cell cinn_idx _ Ha) as (c' & cells' & [= <- <-] & Hg).
  unfold forward_fill_from_summary. cbn [foldlM].
  set (st0 := {| out := [h]; current_group_name := None; filled := 0; removed := 0 |}).
  assert (fill_step cinn_idx st0 (c :: cells)
          = inr {| out := [h]; current_group_name := Some (clean_str (Some c));
                   filled := 0; removed := 1 |}) as ->.
  { unfold fill_step. by rewrite Ha. }
  cbn [mbind result_bind].
  assert (∀ (l1 l2 : table) st,
            foldlM (fill_step cinn_idx) st (l1 ++ l2)
            = foldlM (fill_step cinn_idx) st l1 ≫= λ st', foldlM (fill_step cinn_idx) st' l2)
    as Happ.
  { intros l1 l2. induction l1 as [|x l1 IH]; intros st; [done|].
    cbn [app foldlM]. destruct (fill_step cinn_idx st x); [done|]. cbn. apply IH. }
  rewrite Happ.
  edestruct (fill_fold_group (clean_str (Some c)) rs) as (st' & -> & Ho & Hc & Hf & Hrm);
    [exact Hg| |exact Hrs|]; [done|].
  cbn [mbind result_bind foldlM out current_group_name filled removed] in *.
  destruct n as [|cn cellsn]; [done|]. cbn [head] in Hn.
  assert (fill_step cinn_idx st' (cn :: cellsn)
          = inr {| out := out st' ++ [cn :: cellsn]; current_group_name := None;
                   filled := filled st'; removed := removed st' |}) as ->.
  { unfold fill_step. by rewrite Hn1, Hn2, Hn. }
  cbn [mbind result_bind].
  assert (∀ st, current_group_name st = None →
            fill_step cinn_idx st b
            = inr {| out := out st ++ [b]; current_group_name := None;
                     filled := filled st; removed := removed st |}) as Hbstep.
  { intros st Hst. unfold fill_step. rewrite Hb1, Hb2, Hst.
    assert (match b with [] => [] | c0 :: _ => clean_str (Some c0) end = []) as ->.
    { destruct b; [done|]. exact Hb. }
    done. }
  rewrite Hbstep by done.
  cbn [mbind result_bind mret result_ret out current_group_name filled removed].
  rewrite Ho, Hf, Hrm, <-!app_assoc. done.
Qed.

End groups.

(** ** clean_csv_header.py: a run, figure by figure *)

Section runs.
Import Py Clean.
Context `{Unicode}.

Lemma getitem_inr {A} (l : list A) i x : getitem l i = inr x → l !! i = Some x.
Proof. unfold getitem. destruct (l !! i); [|done]. by intros [= <-]. Qed.

(** A finished run, in terms of the locals of the folder. *)
Lemma clean_csv_unfold (rows : table) (run : run) :
  clean_csv rows = inr run →
  ∃ t, before_fold rows = inr (header_index run, end_index run, t)
    ∧ match t with
      | [] => summary run = None ∧ clean_rows run = []
      | h :: d =>
          ∃ st s cr,
            foldlM (fill_step (find_cinn_col_index h))
              {| out := [h]; current_group_name := None; filled := 0; removed := 0 |} d
            = inr st
            ∧ summary run = Some s
            ∧ cinn_idx s = find_cinn_col_index h
            ∧ filled_count s = filled st
            ∧ cr = (if removed_last s then take (length (out st) - 1) (out st) else out st)
            ∧ (removed_last s = true → 1 < length (out st))
            ∧ removed_summaries s = (if removed_last s then S (removed st) else removed st)
            ∧ cr !! 0 = Some (header s)
            ∧ clean_rows run = List.filter (λ r, negb (is_hotovost r)) cr
            ∧ removed_hotovost s = length cr - length (clean_rows run)
      end.
Proof.
  unfold clean_csv. destruct (before_fold rows) as [err|[[i e] t]] eqn:Hb; [done|].
  cbn [mbind result_bind]. destruct t as [|h d].
  { intros [= <-]. by exists []. }
  unfold forward_fill_from_summary.
  destruct (foldlM _ _ d) as [err|st] eqn:Hfold; [done|].
  cbn [mbind result_bind mret result_ret].
  match goal with
  | |- context [bool_decide (1 < length (out st)) && ?b] =>
      destruct (bool_decide (1 < length (out st)) && b) eqn:Hrl
  end.
  all: match goal with
       | |- context [getitem ?l 0] => destruct (getitem l 0) as [err|h'] eqn:Hg
       end; [done|].
  all: cbn [mbind result_bind mret result_ret]; intros [= <-]; exists (h :: d);
    cbn [header_index end_index summary clean_rows]; split; [done|];
    eexists st, _, _; split; [exact Hfold|]; split; [reflexivity|];
    cbn [cinn_idx filled_count removed_last removed_summaries header removed_hotovost];
    split_and!; try done.
  - intros _. apply andb_true_iff in Hrl as [Hlen _]. by apply bool_decide_eq_true in Hlen.
  - by apply getitem_inr.
  - by apply getitem_inr.
Qed.

(** X13: The figures of a run add up: every row of the table cut at the
    trailer is written, or counted as a removed summary row, or counted as
    a removed cash row; and fewer names are filled in than that table has
    rows. *)
Theorem clean_csv_counts (rows : table) (run : run) :
  clean_csv rows = inr run →
  ∃ t, before_fold rows = inr (header_index run, end_index run, t)
    ∧ match summary run with
      | None => t = [] ∧ clean_rows run = []
      | Some s =>
          length (clean_rows run) + removed_summaries s + removed_hotovost s = length t
          ∧ filled_count s < length t
      end.
Proof.
  intros Hrun. destruct (clean_csv_unfold rows run Hrun) as (t & Hb & Ht).
  exists t. split; [done|]. destruct t as [|h d].
  { destruct Ht as [-> ->]. done. }
  destruct Ht as (st & s & cr & Hfold & -> & _ & -> & Hcr & Hlen & -> & _ & Hrows & ->).
  destruct (fill_fold_counts _ _ _ _ Hfold) as (new & Hout & Hnew & Hfilled).
  cbn [out removed filled] in Hout, Hnew, Hfilled. cbn [length].
  assert (length (clean_rows run) ≤ length cr) as Hle.
  { rewrite Hrows. apply sublist_length, sublist_filter_bool. }
  assert (length (out st) = S (length new)) as Ho by (by rewrite Hout).
  destruct (removed_last s).
  - specialize (Hlen eq_refl). subst cr. rewrite length_take in Hle |- *. lia.
  - subst cr. lia.
Qed.

Lemma before_fold_no_trailer (rows : table) i e (t : table) :
  before_fold rows = inr (i, e, t) →
  Forall (λ r, startswith s_Vypracoval (clean_str (head r)) = false) t.
Proof.
  unfold before_fold. destruct (find_header_index rows) as [err|j]; [done|].
  cbn [mbind result_bind].
  destruct (select_required_columns (drop j rows)) as [|h sel]; [done|].
  cbn [mbind result_bind mret result_ret].
  set (t4 := List.filter _ _). intros [= <- <- <-].
  assert (∀ r : row, clean_str (Some (match r with [] => [] | c :: _ => c end))
                     = clean_str (head r)) as Hhead by (by intros []).
  destruct (list_find _ t4) as [[k r]|] eqn:Hfind; cbn [fmap option_fmap option_map fst].
  - apply list_find_Some in Hfind as (_ & _ & Hbefore).
    apply Forall_forall. intros r' Hr'.
    apply list_elem_of_lookup in Hr' as [m Hm].
    apply lookup_take_Some in Hm as [Hm Hlt].
    rewrite <-Hhead. apply not_true_is_false. by apply (Hbefore m).
  - apply list_find_None in Hfind. eapply Forall_impl; [exact Hfind|].
    intros r Hr. cbn in Hr. rewrite <-Hhead. by apply not_true_is_false.
Qed.

Lemma fill_fold_heads (Q : pystr → Prop) cinn (data : table) st st' :
  (∀ c, Q c → Q (clean_str (Some c))) →
  foldlM (fill_step cinn) st data = inr st' →
  Forall (λ p, ∀ c, head p = Some c → Q c) data →
  (∀ g, current_group_name st = Some g → Q g) →
  Forall (λ r, ∀ c, head r = Some c → Q c) (out st) →
  Forall (λ r, ∀ c, head r = Some c → Q c) (out st').
Proof.
  intros HQ. revert st. induction data as [|p data IH]; intros st.
  - by intros [= <-].
  - cbn [foldlM]. destruct (fill_step cinn st p) as [err|st1] eqn:Hstep; [done|].
    cbn [mbind result_bind]. intros Hfold Hdata Hg Hout.
    apply Forall_cons in Hdata as [Hp Hdata]. apply (IH st1 Hfold Hdata).
    + destruct (fill_step_cases _ _ _ _ Hstep)
        as [(_ & _ & _ & _ & c & cells & -> & ->)|
            [(_ & _ & _ & _ & _ & ->)|(_ & _ & _ & Hrow)]].
      * intros g [= <-]. apply HQ, Hp. done.
      * done.
      * intros g Hg1.
        destruct Hrow as [(_ & _ & [Hcur'|Hcur'])|
                          (c & cells & g' & _ & _ & Hcur & _ & _ & _ & Hcur')].
        -- congruence.
        -- apply Hg. congruence.
        -- rewrite Hcur' in Hg1. injection Hg1 as <-. by apply Hg.
    + destruct (fill_step_cases _ _ _ _ Hstep)
        as [(_ & -> & _)|[(_ & _ & -> & _)|(_ & _ & _ & Hrow)]]; [done|done|].
      destruct Hrow as [(-> & _)|(c & cells & g & _ & _ & Hcur & _ & -> & _)].
      * apply Forall_app. split; [done|]. by apply Forall_singleton.
      * apply Forall_app. split; [done|]. apply Forall_singleton.
        intros c' [= <-]. by apply Hg.
Qed.

(** X14: What a run never writes: a row whose first cell starts with
    [Vypracoval:], nor a row whose name is the cash payout.  The trailer
    test also holds of the names filled in from a group total. *)
Theorem clean_csv_never_writes (rows : table) (run : run) :
  clean_csv rows = inr run →
  ∀ r, r ∈ clean_rows run →
    startswith s_Vypracoval (clean_str (head r)) = false
    ∧ is_hotovost r = false.
Proof.
  intros Hrun r Hr. destruct (clean_csv_unfold rows run Hrun) as (t & Hb & Ht).
  pose proof (before_fold_no_trailer _ _ _ _ Hb) as Htrail.
  destruct t as [|h d].
  { destruct Ht as [_ Hnil]. rewrite Hnil in Hr. by apply elem_of_nil in Hr. }
  destruct Ht as (st & s & cr & Hfold & _ & _ & _ & Hcr & _ & _ & _ & Hrows & _).
  rewrite Hrows in Hr. apply list_elem_of_In, filter_In in Hr as [Hr Hhot].
  apply list_elem_of_In in Hr. apply negb_true_iff in Hhot. split; [|done].
  apply Forall_cons in Htrail as [Hh Hd].
  assert (Forall (λ r, ∀ c, head r = Some c
                       → startswith s_Vypracoval (clean_str (Some c)) = false) (out st))
    as Hout.
  { eapply (fill_fold_heads (λ c, startswith s_Vypracoval (clean_str (Some c)) = false));
      [|exact Hfold| | |].
    - intros c Hc. by rewrite clean_str_twice.
    - eapply Forall_impl; [exact Hd|]. intros p Hp c Hc. cbn beta in Hp. by rewrite Hc in Hp.
    - done.
    - apply Forall_singleton. intros c Hc. by rewrite Hc in Hh. }
  assert (r ∈ out st) as Hin.
  { subst cr. destruct (removed_last s); [|done].
    eapply elem_of_sublist; [exact Hr|apply sublist_take]. }
  rewrite Forall_forall in Hout. specialize (Hout r Hin).
  destruct (head r) as [c|]; [by apply Hout|done].
Qed.

End runs.

Section header_row.
Import Py Clean.
Context `{Unicode}.

Lemma kept_header_no_cash (hr : row) :
  keep_indices hr ≠ [] → is_hotovost (project (keep_indices hr) hr) = false.
Proof.
  intros Hk. unfold project.
  destruct (keep_indices hr) as [|k keep] eqn:Hkeep; [done|].
  destruct (keep_indices_wanted hr k) as (c & Hc & Hw).
  { rewrite Hkeep. apply list_elem_of_here. }
  unfold is_hotovost. cbn [fmap list_fmap lookup list_lookup]. rewrite Hc.
  cbn [default]. unfold id. apply bool_decide_eq_false. intros Heq.
  unfold normalize in Hw. rewrite Heq in Hw. by vm_compute in Hw.
Qed.

(** X15: The header row of a run that writes rows: its cells are cells
    of the located header row, unchanged and in their order; and once a
    column is kept it is the first row written, for the cash filter cannot
    take it. *)
Theorem clean_csv_header_row (rows : table) (run : run) (s : folded) :
  clean_csv rows = inr run → summary run = Some s →
  ∃ hr, rows !! header_index run = Some hr
    ∧ header s `sublist_of` hr
    ∧ (keep_indices hr ≠ [] → head (clean_rows run) = Some (header s)).
Proof.
  intros Hrun Hs. destruct (clean_csv_unfold rows run Hrun) as (t & Hb & Ht).
  destruct (before_fold_shape rows _ _ t Hb) as (hr & n & _ & Hhr & Hshape).
  exists hr. split; [done|].
  destruct t as [|h d]; [destruct Ht as [Hnone _]; congruence|].
  destruct Hshape as [?|[= -> _]]; [done|].
  destruct Ht as (st & s' & cr & Hfold & Hs' & _ & _ & Hcr & Hlen & _ & Hhead & Hrows & _).
  rewrite Hs in Hs'. injection Hs' as <-.
  destruct (fill_fold_counts _ _ _ _ Hfold) as (new & Hout & _ & _).
  cbn [out app] in Hout.
  assert (∃ rest, cr = project (keep_indices hr) hr :: rest) as [rest Hrest].
  { subst cr. destruct (removed_last s); [|by eexists].
    specialize (Hlen eq_refl). rewrite Hout in Hlen |- *. cbn [length] in Hlen |- *.
    destruct new as [|r new]; [cbn in Hlen; lia|].
    replace (S (S (length new)) - 1) with (S (length new)) by lia. by eexists. }
  rewrite Hrest in Hhead, Hrows. injection Hhead as <-.
  split; [by apply project_sublist|].
  intros Hk. rewrite Hrows. cbn [List.filter]. by rewrite kept_header_no_cash.
Qed.


End header_row.

(** ** create_xml_file.py: duplicate headers *)

Section duplicate_headers.
Import Py Xml.
Context `{Unicode}.

Lemma by_norm_last (a b : list pystr) h :
  (∀ h', h' ∈ b → normalize_header h' ≠ normalize_header h) →
  by_norm (a ++ h :: b) !! normalize_header h = Some h.
Proof.
  induction b as [|x b IH] using rev_ind; intros Hb.
  - rewrite by_norm_snoc. apply lookup_insert_eq.
  - replace (a ++ h :: b ++ [x]) with ((a ++ h :: b) ++ [x])
      by (by rewrite <-app_assoc).
    rewrite by_norm_snoc, lookup_insert_ne.
    + apply IH. intros h' Hh'. apply Hb, elem_of_app. by left.
    + apply Hb, elem_of_app. right. apply list_elem_of_here.
Qed.

Lemma ensure_required_columns_lookup (headers : list pystr) (cols : columns) k :
  ensure_required_columns headers = inr cols →
  by_norm headers !! needed_norm k = Some (cols k).
Proof.
  unfold ensure_required_columns, dict_getitem.
  destruct (missing headers); [|done].
  destruct (by_norm headers !! needed_norm nazov) eqn:H1; [|done].
  destruct (by_norm headers !! needed_norm ucet_md) eqn:H2; [|done].
  destruct (by_norm headers !! needed_norm ucet_dal) eqn:H3; [|done].
  destruct (by_norm headers !! needed_norm stred) eqn:H4; [|done].
  destruct (by_norm headers !! needed_norm zak) eqn:H5; [|done].
  destruct (by_norm headers !! needed_norm cinn) eqn:H6; [|done].
  cbn. intros [= <-]. by destruct k.
Qed.

(** X17: When several headers normalize to the same required name, the
    column used is the last of them. *)
Theorem ensure_required_columns_last_wins
    (a b : list pystr) (h : pystr) (k : field) (cols : columns) :
  normalize_header h = normalize_header (CSV_HEADERS k) →
  (∀ h', h' ∈ b → normalize_header h' ≠ normalize_header (CSV_HEADERS k)) →
  ensure_required_columns (a ++ h :: b) = inr cols →
  cols k = h.
Proof.
  intros Hh Hb Hcols.
  pose proof (ensure_required_columns_lookup _ _ k Hcols) as Hk.
  unfold needed_norm in Hk. rewrite <-Hh in Hk, Hb.
  rewrite by_norm_last in Hk by done. congruence.
Qed.

End duplicate_headers.

(** ** create_xml_file.py: the document attributes *)

Section document_attributes.
Import Py Xml.

Lemma cli_get_Some (cli_values : cli) k v :
  cli_get cli_values k = Some v ↔ cli_values !! k = Some (Some v).
Proof.
  unfold cli_get. destruct (cli_values !! k) as [[v'|]|]; cbn; split; congruence.
Qed.

Lemma elem_of_missing_attrs (cli_values : cli) k :
  k ∈ missing_attrs cli_values ↔
  k ∈ DOC_ATTRS ∧ (cli_get cli_values k = None ∨ cli_get cli_values k = Some []).
Proof.
  unfold missing_attrs. rewrite list_elem_of_In, filter_In, <-list_elem_of_In.
  apply and_iff_compat_l. rewrite negb_true_iff.
  destruct (cli_get cli_values k) as [[|c v]|]; cbn.
  - split; [intros _; by right | done].
  - split; [done | intros [?|?]; done].
  - split; [intros _; by left | done].
Qed.

Lemma attrs_fold (cli_values : cli) (keys : list pystr) (d : gmap pystr pystr) :
  (∀ k, k ∈ keys → ∃ v, cli_values !! k = Some (Some v)) →
  ∃ d', foldlM (λ d k, v ← cli_getitem cli_values k; mret (<[k := v]> d)) d keys = inr d'
    ∧ ∀ k, d' !! k = if decide (k ∈ keys) then cli_get cli_values k else d !! k.
Proof.
  revert d. induction keys as [|k0 keys IH]; intros d Hall.
  - exists d. split; [done|]. intros k. rewrite decide_False; [done|apply not_elem_of_nil].
  - destruct (Hall k0) as (v0 & Hv0); [apply list_elem_of_here|].
    cbn [foldlM].
    assert (cli_getitem cli_values k0 = inr v0) as ->
      by (unfold cli_getitem; by rewrite Hv0).
    cbn [mbind result_bind mret result_ret].
    destruct (IH (<[k0 := v0]> d)) as (d' & -> & Hd').
    { intros k Hk. by apply Hall, list_elem_of_further. }
    exists d'. split; [done|]. intros k. rewrite Hd'.
    destruct (decide (k ∈ keys)) as [Hin|Hnin].
    + rewrite decide_True; [done|by apply list_elem_of_further].
    + destruct (decide (k = k0)) as [->|Hne].
      * rewrite decide_True by apply list_elem_of_here.
        rewrite lookup_insert_eq. symmetry. by apply cli_get_Some.
      * rewrite decide_False, lookup_insert_ne; [done|done|].
        rewrite elem_of_cons. tauto.
Qed.

(** X18: Without prompts, [collect_doc_attributes] wants all six
    attributes: an attribute that was not passed, or passed as the empty
    string, is reported in a [SystemExit] that lists every such attribute
    in the order of [DOC_ATTRS]; otherwise the six values are returned as
    they were passed, untrimmed. *)
Theorem attrs_from_cli_all_or_error (cli_values : cli) :
  let absent k := cli_get cli_values k = None ∨ cli_get cli_values k = Some [] in
  (∀ k, k ∈ missing_attrs cli_values ↔ k ∈ DOC_ATTRS ∧ absent k)
  ∧ missing_attrs cli_values `sublist_of` DOC_ATTRS
  ∧ ((∃ k, k ∈ DOC_ATTRS ∧ absent k) →
     attrs_from_cli cli_values
     = inl (SystemExit (msg_missing_attrs
                        ++ join s_comma_space (missing_attrs cli_values))))
  ∧ ((∀ k, k ∈ DOC_ATTRS → ¬ absent k) →
     ∃ attrs, attrs_from_cli cli_values = inr attrs
       ∧ ∀ k, attrs !! k = if decide (k ∈ DOC_ATTRS) then cli_get cli_values k else None).
Proof.
  intros absent. split_and!.
  - apply elem_of_missing_attrs.
  - apply sublist_filter_bool.
  - intros (k & Hk). apply elem_of_missing_attrs in Hk.
    unfold attrs_from_cli. by destruct (missing_attrs cli_values); [apply elem_of_nil in Hk|].
  - intros Hall.
    assert (Hnone : missing_attrs cli_values = []).
    { apply elem_of_nil_inv. intros k Hk. apply elem_of_missing_attrs in Hk as [Hk Habs].
      by apply (Hall k). }
    unfold attrs_from_cli. rewrite Hnone.
    destruct (attrs_fold cli_values DOC_ATTRS ∅) as (d' & Hd' & Hlook).
    { intros k Hk. destruct (cli_get cli_values k) as [v|] eqn:Hget.
      - exists v. by apply cli_get_Some.
      - destruct (Hall k Hk). by left. }
    exists d'. split; [done|]. intros k. rewrite Hlook. by destruct (decide _).
Qed.

End document_attributes.

Section prompts.
Import Py Xml.
Context `{Unicode}.

Lemma prompt_input_strip (line : pystr) : prompt_input None line = strip line.
Proof. unfold prompt_input. by destruct (strip line). Qed.

Lemma prompted_lookup (a1 a2 a3 a4 a5 a6 : pystr) i k a :
  DOC_ATTRS !! i = Some k → [a1; a2; a3; a4; a5; a6] !! i = Some a →
  prompted [a1; a2; a3; a4; a5; a6] !! k = Some (strip a).
Proof.
  intros Hk Ha. unfold prompted, DOC_ATTRS in *. cbn [zip_with foldl fst snd].
  rewrite !prompt_input_strip.
  do 6 (destruct i as [|i];
        [injection Hk as <-; injection Ha as <-;
         repeat (first [ rewrite lookup_insert_eq; reflexivity
                       | rewrite lookup_insert_ne by (by vm_compute) ])|]).
  done.
Qed.

(** X19: With prompts, [collect_doc_attributes] checks nothing: when it
    returns, the attributes are the six answers of the last round, each
    trimmed, be they empty or not; every round before it was answered
    with [n]; and the lines after the confirmation are left unread. *)
Theorem attrs_from_prompts_last_round
    (inputs rest : list pystr) (attrs : gmap pystr pystr) :
  attrs_from_prompts inputs = Some (attrs, rest) →
  ∃ before a1 a2 a3 a4 a5 a6 ok,
    inputs = before ++ [a1; a2; a3; a4; a5; a6; ok] ++ rest
    ∧ (∃ n, length before = 7 * n)
    ∧ lower (strip ok) ≠ s_n
    ∧ attrs = prompted [a1; a2; a3; a4; a5; a6]
    ∧ (∀ i k a, DOC_ATTRS !! i = Some k → [a1; a2; a3; a4; a5; a6] !! i = Some a →
         attrs !! k = Some (strip a))
    ∧ attrs_from_prompts before = None.
Proof.
  remember (length inputs) as m eqn:Hm. revert inputs Hm.
  induction m as [m IH] using lt_wf_ind. intros inputs Hm.
  destruct inputs as [|a1 [|a2 [|a3 [|a4 [|a5 [|a6 [|ok inputs']]]]]]]; try done.
  cbn [attrs_from_prompts]. case_bool_decide as Hok.
  - intros Hrec.
    destruct (IH (length inputs')) with (inputs := inputs')
      as (before & b1 & b2 & b3 & b4 & b5 & b6 & ok' & -> & [n Hn] & Hok' & -> & Hlook & Hnone);
      [subst m; cbn; lia|done|done|].
    exists ([a1; a2; a3; a4; a5; a6; ok] ++ before), b1, b2, b3, b4, b5, b6, ok'.
    split_and!; [done| |done|done|done|].
    + exists (S n). rewrite length_app, Hn. cbn. lia.
    + cbn [app attrs_from_prompts]. by rewrite bool_decide_eq_true_2.
  - intros [= <- <-]. exists [], a1, a2, a3, a4, a5, a6, ok.
    split_and!; [done|by exists 0|done|done| |done].
    intros i k a. apply prompted_lookup.
Qed.

End prompts.

(** ** create_xml_file.py: which attributes an element carries *)

Section attribute_names.
Import Py Xml.

Lemma kept_names keep_empty keys get :
  (kept keep_empty keys get).*1 `sublist_of` keys
  ∧ (keep_empty = true → (kept keep_empty keys get).*1 = keys)
  ∧ ∀ k v, (k, v) ∈ kept keep_empty keys get →
      strip v = v ∧ (keep_empty = false → v ≠ []).
Proof.
  unfold kept. rewrite <-list_fmap_compose.
  rewrite (list_fmap_ext _ id (List.filter _ keys)) by done. rewrite list_fmap_id.
  split_and!.
  - apply sublist_filter_bool.
  - intros ->. cbn [orb]. induction keys as [|k keys IH]; [done|]. cbn. by rewrite IH.
  - intros k v Hkv. apply list_elem_of_fmap in Hkv as (k' & [= -> ->] & Hk').
    split; [apply strip_idem|]. intros ->.
    apply list_elem_of_In, filter_In in Hk' as [_ Ht]. cbn [orb] in Ht.
    by destruct (strip (get k')).
Qed.

Lemma build_xml_doc (doc_attrs : gmap pystr pystr) (rows : list dictrow)
    (cols : columns) (keep_empty : bool) :
  children (build_xml doc_attrs rows cols keep_empty)
  = [Element s_uctovny_doklad
       (kept keep_empty DOC_ATTRS (λ k, default [] (doc_attrs !! k)))
       (items_of (build_xml doc_attrs rows cols keep_empty))].
Proof.
  unfold build_xml. cbn [children items_of].
  rewrite set_attrs_kept; [done|apply NoDup_DOC_ATTRS|].
  intros k _. apply not_elem_of_nil.
Qed.

(** X20: The attributes of the assembled elements: the document element
    carries names of [DOC_ATTRS] and every item names of [ORDER], in that
    order and each at most once; with [keep_empty] all of them, without it
    none with an empty value; every value is trimmed; an item has no
    children. *)
Theorem build_xml_attribute_names (doc_attrs : gmap pystr pystr)
    (rows : list dictrow) (cols : columns) (keep_empty : bool) :
  let well_formed keys (a : list (pystr * pystr)) :=
    a.*1 `sublist_of` keys
    ∧ (keep_empty = true → a.*1 = keys)
    ∧ ∀ k v, (k, v) ∈ a → strip v = v ∧ (keep_empty = false → v ≠ []) in
  (∃ doc, children (build_xml doc_attrs rows cols keep_empty) = [doc]
     ∧ tag doc = s_uctovny_doklad
     ∧ well_formed DOC_ATTRS (attrib doc))
  ∧ ∀ item, item ∈ items_of (build_xml doc_attrs rows cols keep_empty) →
      tag item = s_polozka_ud ∧ children item = []
      ∧ well_formed ORDER (attrib item).
Proof.
  intros well_formed. split.
  - rewrite build_xml_doc. eexists. split; [done|]. split; [done|]. apply kept_names.
  - intros item. unfold build_xml. cbn [items_of children].
    rewrite elem_of_app, !list_elem_of_fmap.
    intros [(a & -> & _)|(a & -> & _)]; rewrite write_item_kept;
      (split; [done|]; split; [done|]; apply kept_names).
Qed.

(** X21: The check of the attributes and the writing of them disagree
    on white space: a value of spaces only counts as given for
    [collect_doc_attributes], and then [build_xml] leaves the attribute out
    (or writes it empty, with [keep_empty]). *)
Theorem blank_attribute_passes_then_vanishes (cli_values : cli) (k v : pystr)
    (rows : list dictrow) (cols : columns) (keep_empty : bool) :
  k ∈ DOC_ATTRS →
  (∀ k', k' ∈ DOC_ATTRS → ∃ c v', cli_values !! k' = Some (Some (c :: v'))) →
  cli_values !! k = Some (Some v) → strip v = [] →
  ∃ attrs doc,
    attrs_from_cli cli_values = inr attrs
    ∧ attrs !! k = Some v
    ∧ children (build_xml attrs rows cols keep_empty) = [doc]
    ∧ attr_get (attrib doc) k = if keep_empty then Some [] else None.
Proof.
  intros Hk Hall Hv Hblank.
  assert (Hnone : missing_attrs cli_values = []).
  { apply elem_of_nil_inv. intros k' Hk'.
    apply elem_of_missing_attrs in Hk' as [Hk' Habs].
    destruct (Hall k' Hk') as (c & v' & Hc). apply cli_get_Some in Hc.
    rewrite Hc in Habs. by destruct Habs. }
  unfold attrs_from_cli. rewrite Hnone. cbn zeta.
  destruct (attrs_fold cli_values DOC_ATTRS ∅) as (attrs & -> & Hlook).
  { intros k' Hk'. destruct (Hall k' Hk') as (c & v' & Hc). by eexists. }
  assert (attrs !! k = Some v) as Hattr.
  { rewrite Hlook, decide_True by done. by apply cli_get_Some. }
  eexists attrs, _. split; [done|]. split; [done|].
  split; [unfold build_xml; cbn [children]; reflexivity|].
  cbn [attrib]. rewrite attr_get_set_attrs, decide_True by done.
  rewrite Hattr. cbn [default]. unfold id. rewrite Hblank.
  by destruct keep_empty.
Qed.

End attribute_names.

(** ** create_xml_file.py: the whole program *)

Section whole_program.
Import Py Xml.
Context `{Unicode}.

Lemma ensure_required_columns_present (headers : list pystr) (cols : columns) k :
  ensure_required_columns headers = inr cols →
  cols k ∈ headers ∧ normalize_header (cols k) = normalize_header (CSV_HEADERS k).
Proof.
  intros Hcols. apply by_norm_Some. by apply ensure_required_columns_lookup.
Qed.

(** The order of the checks of [main] without prompts: a missing
    document attribute is reported first, whatever the file holds; then a
    file without a header row; then a missing column.  The standard input
    is never read. *)
Lemma main_checks_in_order (cli_values : cli) (inputs : list pystr)
    (t : table) (keep_empty : bool) :
  (∀ e, attrs_from_cli cli_values = inl e →
        main true cli_values inputs t keep_empty = Some (inl e))
  ∧ (∀ attrs, attrs_from_cli cli_values = inr attrs →
       (head t = None ∨ head t = Some [] →
        main true cli_values inputs t keep_empty
        = Some (inl (SystemExit msg_no_headers)))
       ∧ (∀ c h d e, t = (c :: h) :: d → ensure_required_columns (c :: h) = inl e →
            main true cli_values inputs t keep_empty = Some (inl e)))
  ∧ main true cli_values inputs t keep_empty = main true cli_values [] t keep_empty.
Proof.
  unfold main, collect_doc_attributes. cbn [mbind option_bind]. split_and!; [| |done].
  - by intros e ->.
  - intros attrs ->. cbn [mbind result_bind]. split.
    + intros [Ht|Ht]; destruct t as [|[|c h] d]; done.
    + intros c h d e -> He. cbn [read_rows]. by rewrite He.
Qed.

(** X22: A text is written only when nothing was missing: each of the six
    document attributes was passed and not empty, the first row of the file
    holds a header for each of the six columns, and the text is the
    declaration line followed by the serialized document. *)
Theorem main_writes_only_complete (cli_values : cli) (inputs : list pystr)
    (t : table) (keep_empty : bool) (text : pystr) :
  main true cli_values inputs t keep_empty = Some (inr text) →
  (∀ k, k ∈ DOC_ATTRS → ∃ c v, cli_values !! k = Some (Some (c :: v)))
  ∧ ∃ h d attrs cols body,
      t = h :: d
      ∧ attrs_from_cli cli_values = inr attrs
      ∧ ensure_required_columns h = inr cols
      ∧ (∀ k, ∃ c, c ∈ h ∧ normalize_header c = normalize_header (CSV_HEADERS k))
      ∧ pretty_no_decl (build_xml attrs (read_rows t).1 cols keep_empty) = inr body
      ∧ text = s_decl ++ s_newline ++ body.
Proof.
  unfold main, collect_doc_attributes. cbn [mbind option_bind].
  destruct (attrs_from_cli cli_values) as [e|attrs] eqn:Hattrs; [done|].
  cbn [mbind result_bind]. destruct t as [|h d]; [done|]. cbn [read_rows].
  destruct h as [|c h]; [done|].
  destruct (ensure_required_columns (c :: h)) as [e|cols] eqn:Hcols; [done|].
  cbn [mbind result_bind]. unfold xml_text.
  destruct (pretty_no_decl _) as [e|body] eqn:Hbody; [done|].
  cbn [mbind result_bind mret result_ret]. intros [= <-]. split.
  - intros k Hk. destruct (cli_get cli_values k) as [[|c0 v]|] eqn:Hget.
    + assert (k ∈ missing_attrs cli_values) as Hin
        by (apply elem_of_missing_attrs; split; [done|by right]).
      unfold attrs_from_cli in Hattrs. cbn zeta in Hattrs.
      destruct (missing_attrs cli_values); [by apply elem_of_nil in Hin|done].
    + exists c0, v. by apply cli_get_Some.
    + assert (k ∈ missing_attrs cli_values) as Hin
        by (apply elem_of_missing_attrs; split; [done|by left]).
      unfold attrs_from_cli in Hattrs. cbn zeta in Hattrs.
      destruct (missing_attrs cli_values); [by apply elem_of_nil in Hin|done].
  - exists (c :: h), d, attrs, cols, body. split_and!; try done.
    intros k. exists (cols k). by apply ensure_required_columns_present.
Qed.

End whole_program.

(** ** create_xml_file.py: from the rows of the file to the items *)

Section rows_to_items.
Import Py Xml.

Lemma zip_fst_take {A B} (l : list A) (k : list B) : (zip l k).*1 = take (length k) l.
Proof.
  revert k. induction l as [|x l IH]; intros [|y k]; cbn; [done|done|done|].
  by rewrite IH.
Qed.

Lemma zipped_notin (d : dictrow) (l : list (pystr * pystr)) k :
  k ∉ l.*1 → foldl (λ d kv, <[kv.1 := Some kv.2]> d) d l !! k = d !! k.
Proof.
  revert d. induction l as [|[k0 c0] l IH]; intros d Hk; [done|].
  cbn in Hk |- *. apply not_elem_of_cons in Hk as [Hne Hk].
  rewrite IH by done. by rewrite lookup_insert_ne.
Qed.

Lemma zipped_in (d : dictrow) (l : list (pystr * pystr)) k c :
  NoDup l.*1 → (k, c) ∈ l →
  foldl (λ d kv, <[kv.1 := Some kv.2]> d) d l !! k = Some (Some c).
Proof.
  revert d. induction l as [|[k0 c0] l IH]; intros d Hnd Hin.
  - by apply elem_of_nil in Hin.
  - cbn in Hnd |- *. apply NoDup_cons in Hnd as [Hk0 Hnd].
    apply elem_of_cons in Hin as [[= -> ->]|Hin].
    + rewrite zipped_notin by done. apply lookup_insert_eq.
    + by apply IH.
Qed.

Lemma padded_notin (d : dictrow) (keys : list pystr) k :
  k ∉ keys → foldl (λ d key, <[key := None]> d) d keys !! k = d !! k.
Proof.
  revert d. induction keys as [|k0 keys IH]; intros d Hk; [done|].
  cbn. apply not_elem_of_cons in Hk as [Hne Hk].
  rewrite IH by done. by rewrite lookup_insert_ne.
Qed.

Lemma padded_in (d : dictrow) (keys : list pystr) k :
  k ∈ keys → foldl (λ d key, <[key := None]> d) d keys !! k = Some None.
Proof.
  revert d. induction keys as [|k0 keys IH]; intros d Hk.
  - by apply elem_of_nil in Hk.
  - cbn. destruct (decide (k ∈ keys)) as [Hin|Hnin]; [by apply IH|].
    apply elem_of_cons in Hk as [->|?]; [|done].
    rewrite padded_notin by done. apply lookup_insert_eq.
Qed.

(** A field is paired with the cell at its position; a row too short for
    the field gives [None]. *)
Lemma dict_row_lookup (fieldnames : list pystr) (r : row) j h :
  NoDup fieldnames → fieldnames !! j = Some h →
  dict_row fieldnames r !! h = Some (r !! j).
Proof.
  intros Hnd Hj. unfold dict_row.
  rewrite <-(take_drop (length r) fieldnames) in Hnd.
  apply NoDup_app in Hnd as (Hnd1 & Hdisj & Hnd2).
  destruct (r !! j) as [c|] eqn:Hr.
  - assert (j < length r) as Hlt by (by eapply lookup_lt_Some).
    assert (h ∈ take (length r) fieldnames) as Hin.
    { apply elem_of_take. by exists j. }
    rewrite padded_notin by (by apply Hdisj).
    apply zipped_in; [by rewrite zip_fst_take|].
    apply (list_elem_of_lookup_2 _ j). rewrite lookup_zip_with, Hj, Hr. done.
  - apply lookup_ge_None in Hr. apply padded_in.
    apply (list_elem_of_lookup_2 _ (j - length r)). rewrite lookup_drop, <-Hj.
    f_equal. lia.
Qed.

Lemma row_get_dict_row (fieldnames : list pystr) (r : row) j h :
  NoDup fieldnames → fieldnames !! j = Some h →
  row_get (dict_row fieldnames r) h = r !! j.
Proof. intros Hnd Hj. unfold row_get. by rewrite (dict_row_lookup _ _ j). Qed.

(** X23: From a file to the items, under a header row without repeated
    names: an empty row of the file gives no items, every other row gives
    two; the attributes of a row are read from the cells under the six
    headers by position; a row too short for a column gets the empty value
    there, not an error. *)
Theorem read_rows_cells (fieldnames : row) (data : table) (cols : columns)
    (pos : field → nat) (doc_attrs : gmap pystr pystr) (keep_empty : bool) :
  NoDup fieldnames → (∀ k, fieldnames !! pos k = Some (cols k)) →
  let rows := (read_rows (fieldnames :: data)).1 in
  length (items_of (build_xml doc_attrs rows cols keep_empty))
  = 2 * length (List.filter (λ r, bool_decide (r ≠ [])) data)
  ∧ ∀ r, let d := dict_row fieldnames r in
      m_attrs cols d !! k_text_pud = Some (strip (or_empty (r !! pos nazov)))
      ∧ m_attrs cols d !! k_os = Some (strip (or_empty (r !! pos stred)))
      ∧ m_attrs cols d !! k_eo = Some (strip (or_empty (r !! pos zak)))
      ∧ m_attrs cols d !! k_suma = Some (to_amount (r !! pos cinn))
      ∧ m_attrs cols d !! k_ucet = Some (strip (or_empty (r !! pos ucet_md)))
      ∧ d_attrs cols d !! k_ucet = Some (strip (or_empty (r !! pos ucet_dal))).
Proof.
  intros Hnd Hpos rows. split.
  - subst rows. unfold build_xml. cbn [read_rows fst items_of children].
    rewrite length_app, !length_fmap. lia.
  - intros r d. subst d. unfold m_attrs, d_attrs, item_attrs.
    rewrite !(row_get_dict_row fieldnames r _ _ Hnd (Hpos _)).
    split_and!;
      repeat (first [ rewrite lookup_insert_eq; reflexivity
                    | rewrite lookup_insert_ne by (by vm_compute) ]).
Qed.

End rows_to_items.

(** ** konvertor_app.py: the header search of the fallback cleaning *)

Section fallback_cleaning.
Import Py.
Context `{Unicode}.

Lemma needed_subseteq_seen (r : row) : App.needed ⊆ App.seen r ↔ Xml.missing r = [].
Proof.
  assert (App.REQUIRED_HEADERS = Xml.CSV_HEADERS <$> Xml.fields) as Hreq by done.
  unfold App.needed, App.seen. rewrite Hreq, <-list_fmap_compose. split.
  - intros Hsub. apply elem_of_nil_inv. intros k Hk.
    assert (Xml.needed_norm k ∈ (list_to_set ((λ c, App.normalize_header (Some c)) <$> r)
                                 : gset pystr)) as Hin.
    { apply Hsub, elem_of_list_to_set, list_elem_of_fmap. exists k.
      split; [done|].
      destruct k; repeat (first [apply list_elem_of_here | apply list_elem_of_further]). }
    apply elem_of_list_to_set, list_elem_of_fmap in Hin as (c & Hc & Hcr).
    apply (proj1 (elem_of_missing r k) Hk c Hcr). by rewrite Hc.
  - intros Hnone x Hx.
    apply elem_of_list_to_set, list_elem_of_fmap in Hx as (k & -> & _).
    apply elem_of_list_to_set, list_elem_of_fmap.
    destruct (Xml.by_norm r !! Xml.needed_norm k) as [h|] eqn:Hl.
    + apply by_norm_Some in Hl as [Hh Hn]. by exists h.
    + assert (k ∈ Xml.missing r) as Hk.
      { apply elem_of_missing. by apply by_norm_None. }
      rewrite Hnone in Hk. by apply elem_of_nil in Hk.
Qed.

Lemma ensure_required_columns_returns (r : row) :
  (∃ cols, Xml.ensure_required_columns r = inr cols) ↔ Xml.missing r = [].
Proof.
  split.
  - intros [cols Hcols]. unfold Xml.ensure_required_columns in Hcols.
    by destruct (Xml.missing r).
  - intros Hnone.
    assert (Hget : ∀ k, ∃ h, Xml.by_norm r !! Xml.needed_norm k = Some h).
    { intros k. destruct (Xml.by_norm r !! Xml.needed_norm k) as [h|] eqn:Hl; [by eexists|].
      assert (k ∈ Xml.missing r) as Hk.
      { apply elem_of_missing. by apply by_norm_None. }
      rewrite Hnone in Hk. by apply elem_of_nil in Hk. }
    unfold Xml.ensure_required_columns, Xml.dict_getitem. rewrite Hnone.
    destruct (Hget Xml.nazov) as (h1 & H1), (Hget Xml.ucet_md) as (h2 & H2),
      (Hget Xml.ucet_dal) as (h3 & H3), (Hget Xml.stred) as (h4 & H4),
      (Hget Xml.zak) as (h5 & H5), (Hget Xml.cinn) as (h6 & H6).
    rewrite H1, H2, H3, H4, H5, H6. cbn. by eexists.
Qed.

(** X24: The fallback cleaning of the application and the assembler
    agree on what a header row is: the row the fallback cuts the file at
    is the first row whose cells [ensure_required_columns] accepts as
    headers, and the fallback finds no row exactly when the assembler
    would refuse every row. *)
Theorem header_idx_first_accepted (rows : table) :
  (∀ i, App.header_idx rows = Some i →
     ∃ r cols, rows !! i = Some r ∧ Xml.ensure_required_columns r = inr cols
       ∧ ∀ j r', j < i → rows !! j = Some r' →
           ∃ e, Xml.ensure_required_columns r' = inl e)
  ∧ (App.header_idx rows = None ↔
     ∀ r, r ∈ rows → ∃ e, Xml.ensure_required_columns r = inl e).
Proof.
  assert (Hrefuse : ∀ r, ¬ App.needed ⊆ App.seen r →
                         ∃ e, Xml.ensure_required_columns r = inl e).
  { intros r Hr. destruct (Xml.ensure_required_columns r) as [e|cols] eqn:He;
      [by exists e|].
    destruct Hr. apply needed_subseteq_seen, ensure_required_columns_returns.
    by exists cols. }
  unfold App.header_idx. split.
  - intros i.
    destruct (list_find _ rows) as [[j r]|] eqn:Hfind; [|done].
    cbn. intros [= <-]. apply list_find_Some in Hfind as (Hr & Hsub & Hbefore).
    apply needed_subseteq_seen, ensure_required_columns_returns in Hsub as [cols Hcols].
    exists r, cols. split_and!; [done|done|].
    intros j' r' Hlt Hr'. apply Hrefuse. by eapply Hbefore.
  - destruct (list_find _ rows) as [[j r]|] eqn:Hfind; cbn.
    + split; [done|]. intros Hall. exfalso.
      apply list_find_Some in Hfind as (Hr & Hsub & _).
      apply needed_subseteq_seen, ensure_required_columns_returns in Hsub as [cols Hcols].
      destruct (Hall r) as [e He]; [by eapply list_elem_of_lookup_2|]. congruence.
    + split; [|done]. intros _ r Hr. apply Hrefuse.
      apply list_find_None in Hfind. rewrite Forall_forall in Hfind. by apply Hfind.
Qed.

End fallback_cleaning.

(** ** Both programs: white space around a value *)

Section padding.
Import Py.
Context `{Unicode}.

Lemma lstrip_app_spaces a s :
  (∀ x, x ∈ a → isspace x = true) → lstrip (a ++ s) = lstrip s.
Proof.
  induction a as [|c a IH]; intros Ha; [done|]. cbn.
  rewrite (Ha c) by apply list_elem_of_here.
  apply IH. intros x Hx. by apply Ha, list_elem_of_further.
Qed.

Lemma rstrip_app_spaces s b :
  (∀ x, x ∈ b → isspace x = true) → rstrip (s ++ b) = rstrip s.
Proof.
  intros Hb. unfold rstrip. rewrite reverse_app, lstrip_app_spaces; [done|].
  intros x Hx. by apply Hb, elem_of_reverse.
Qed.

Lemma lstrip_app s b :
  (∀ x, x ∈ b → isspace x = true) →
  ∃ b', lstrip (s ++ b) = lstrip s ++ b' ∧ ∀ x, x ∈ b' → isspace x = true.
Proof.
  intros Hb. induction s as [|c s IH]; cbn [app lstrip].
  - exists []. rewrite lstrip_all; [|by apply Forall_forall]. split; [done|].
    intros x Hx. by apply elem_of_nil in Hx.
  - destruct (isspace c); [done|]. by exists b.
Qed.

Lemma strip_padded a s b :
  (∀ x, x ∈ a → isspace x = true) → (∀ x, x ∈ b → isspace x = true) →
  strip (a ++ s ++ b) = strip s.
Proof.
  intros Ha Hb. unfold strip. rewrite lstrip_app_spaces by done.
  destruct (lstrip_app s b Hb) as (b' & -> & Hb'). by apply rstrip_app_spaces.
Qed.

(** X25: White space around a value never matters: a cell, a header and
    an amount are read the same with and without it. *)
Theorem padding_is_ignored (a s b : pystr) :
  (∀ x, x ∈ a → isspace x = true) → (∀ x, x ∈ b → isspace x = true) →
  Clean.clean_str (Some (a ++ s ++ b)) = Clean.clean_str (Some s)
  ∧ Xml.normalize_header (a ++ s ++ b) = Xml.normalize_header s
  ∧ App.normalize_header (Some (a ++ s ++ b)) = App.normalize_header (Some s)
  ∧ Xml.to_amount (Some (a ++ s ++ b)) = Xml.to_amount (Some s).
Proof.
  intros Ha Hb.
  assert (strip (a ++ s ++ b) = strip s) as Hs by (by apply strip_padded).
  split_and!.
  - cbn [Clean.clean_str]. unfold replace. rewrite !flat_map_app.
    apply strip_padded; intros x Hx;
      apply (proj1 (elem_of_replace x NBSP [SPACE] _)) in Hx
        as (c & Hc & [[_ Hx]|[_ ->]]); auto;
      apply list_elem_of_singleton in Hx as ->; done.
  - unfold Xml.normalize_header. by rewrite Hs.
  - unfold App.normalize_header. cbn [or_empty default]. unfold id. by rewrite Hs.
  - unfold Xml.to_amount. cbn [or_empty default]. unfold id. by rewrite Hs.
Qed.

End padding.

(** ** clean_csv_header.py: folding twice *)

Section folding_twice.
Import Py Clean.
Variable cinn_idx : nat.

Lemma fill_fold_plain (rs : table) st :
  current_group_name st = None →
  Forall (λ r, is_summary_variant1 r cinn_idx = false
               ∧ is_summary_variant2 r cinn_idx = false) rs →
  ∃ st', foldlM (fill_step cinn_idx) st rs = inr st'
    ∧ out st' = out st ++ rs ∧ current_group_name st' = None
    ∧ filled st' = filled st ∧ removed st' = removed st.
Proof.
  intros Hcur Hrs. revert st Hcur.
  induction Hrs as [|r rs [Hv1 Hv2] _ IH]; intros st Hcur.
  - exists st. by rewrite app_nil_r.
  - cbn [foldlM].
    assert (fill_step cinn_idx st r
            = inr {| out := out st ++ [r]; current_group_name := None;
                     filled := filled st; removed := removed st |}) as ->.
    { unfold fill_step. rewrite Hv1, Hv2, Hcur. cbn [or_empty default truthy].
      rewrite andb_false_r. cbn. by destruct (truthy _). }
    cbn [mbind result_bind].
    edestruct IH as (st' & -> & Ho & Hc & Hf & Hr); [done|].
    exists st'. cbn in Ho, Hf, Hr. rewrite Ho, <-app_assoc. done.
Qed.

(** X26: Folding is idempotent on a table without blank rows: what
    [forward_fill_from_summary] returns holds no summary row any more, so a
    second pass returns it unchanged, with nothing filled in and nothing
    removed. *)
Theorem forward_fill_from_summary_idempotent
    (h : row) (data : table) (out : table) (filled removed : nat) :
  Forall (λ p, is_empty_row p = false) data →
  forward_fill_from_summary (h :: data) cinn_idx = inr (out, filled, removed) →
  forward_fill_from_summary out cinn_idx = inr (out, 0, 0).
Proof.
  intros Hdata. unfold forward_fill_from_summary at 1.
  destruct (foldlM _ _ data) as [e|st] eqn:Hfold; [done|].
  cbn. intros [= <- _ _].
  destruct (fill_fold_spec cinn_idx [] data _ st Hfold) as (new & mid & Hout & _ & _ & Hok).
  { eapply Forall_impl; [exact Hdata|]. intros p Hp. split; [done|].
    intros i c Hi. by apply elem_of_nil in Hi. }
  { intros s Hs. done. }
  cbn [Clean.out] in Hout. rewrite Hout. cbn [app].
  unfold forward_fill_from_summary.
  edestruct (fill_fold_plain new) as (st' & -> & Ho & _ & Hf & Hr); [| |].
  2:{ eapply Forall_impl; [exact Hok|]. intros r (_ & Hv1 & Hv2 & _). done. }
  { done. }
  cbn in Ho, Hf, Hr |- *. by rewrite Ho, Hf, Hr.
Qed.

End folding_twice.

(** ** The theorems at work *)

Section at_work.
#[local] Existing Instance Slovak.unicode.
Import Py.

Lemma clean_csv_without_preamble_witness :
  ∃ run, Clean.clean_csv Slovak.sample_export = inr run
    ∧ Clean.header_index run = 1
    ∧ Clean.clean_csv (drop (Clean.header_index run) Slovak.sample_export)
      = inr {| Clean.header_index := 0; Clean.end_index := Clean.end_index run;
               Clean.summary := Clean.summary run;
               Clean.clean_rows := Clean.clean_rows run |}.
Proof.
  eexists. split; [vm_compute; reflexivity|]. split; [reflexivity|].
  apply (clean_csv_without_preamble Slovak.sample_export). vm_compute. reflexivity.
Defined.

Lemma forward_fill_from_summary_counts_witness :
  ∃ out filled removed,
    Clean.forward_fill_from_summary Slovak.sample_group 3 = inr (out, filled, removed)
    ∧ filled = 2 ∧ removed = 2
    ∧ length out + removed = length Slovak.sample_group
    ∧ filled ≤ length out - 1
    ∧ head out = head Slovak.sample_group.
Proof.
  eexists _, _, _. split; [vm_compute; reflexivity|]. split; [reflexivity|].
  split; [reflexivity|].
  apply (forward_fill_from_summary_counts 3 Slovak.sample_group). vm_compute. reflexivity.
Defined.

Lemma group_name_fills_until_named_row_witness :
  Clean.forward_fill_from_summary Slovak.sample_group 3
  = inr ([ [lit "Názov"; lit "Účet MD"; lit "Účet Dal"; lit "Činn."];
           [lit "TOTAL_A"; lit "1"; lit "2"; lit "3"];
           [lit "TOTAL_A"; lit "4"; lit "5"; lit "6"];
           [lit "Mzdy"; lit "1"; lit "2"; lit "3"];
           [[]; lit "7"; lit "8"; lit "9"] ], 2, 2).
Proof.
  apply (group_name_fills_until_named_row 3
           [lit "Názov"; lit "Účet MD"; lit "Účet Dal"; lit "Činn."]
           (lit "TOTAL_A") [[]; []; lit "9"]
           [ [[]; lit "1"; lit "2"; lit "3"]; [[]; []; []; lit "7"];
             [[]; lit "4"; lit "5"; lit "6"] ]
           [lit "Mzdy"; lit "1"; lit "2"; lit "3"] [[]; lit "7"; lit "8"; lit "9"]);
    try reflexivity.
  repeat (apply Forall_cons; split; [split; [reflexivity|]|]).
  - right. by eexists _, _.
  - by left.
  - right. by eexists _, _.
  - apply Forall_nil_2.
Defined.

Lemma clean_csv_counts_witness :
  ∃ run, Clean.clean_csv Slovak.sample_export = inr run
    ∧ ∃ t, Clean.before_fold Slovak.sample_export
           = inr (Clean.header_index run, Clean.end_index run, t)
       ∧ match Clean.summary run with
         | None => t = [] ∧ Clean.clean_rows run = []
         | Some s =>
             length (Clean.clean_rows run) + Clean.removed_summaries s
             + Clean.removed_hotovost s = length t
             ∧ Clean.filled_count s < length t
         end.
Proof.
  eexists. split; [vm_compute; reflexivity|].
  apply (clean_csv_counts Slovak.sample_export). vm_compute. reflexivity.
Defined.

Lemma clean_csv_never_writes_witness :
  ∃ run, Clean.clean_csv Slovak.sample_export = inr run
    ∧ ∀ r, r ∈ Clean.clean_rows run →
        startswith Clean.s_Vypracoval (Clean.clean_str (head r)) = false
        ∧ Clean.is_hotovost r = false.
Proof.
  eexists. split; [vm_compute; reflexivity|].
  apply (clean_csv_never_writes Slovak.sample_export). vm_compute. reflexivity.
Defined.

Lemma clean_csv_header_row_witness :
  ∃ run s, Clean.clean_csv Slovak.sample_export = inr run
    ∧ Clean.summary run = Some s
    ∧ ∃ hr, Slovak.sample_export !! Clean.header_index run = Some hr
        ∧ Clean.header s `sublist_of` hr
        ∧ (Clean.keep_indices hr ≠ [] → head (Clean.clean_rows run) = Some (Clean.header s)).
Proof.
  eexists _, _. split; [vm_compute; reflexivity|]. split; [reflexivity|].
  apply (clean_csv_header_row Slovak.sample_export); [vm_compute; reflexivity|reflexivity].
Defined.

Lemma ensure_required_columns_last_wins_witness :
  ∃ cols, Xml.ensure_required_columns
            ([lit "Názov"] ++ lit "NÁZOV " :: [lit "Účet MD"; lit "Účet Dal"; lit "Stred.";
                                               lit "Zák."; lit "Činn."]) = inr cols
    ∧ cols Xml.nazov = lit "NÁZOV ".
Proof.
  eexists. split; [vm_compute; reflexivity|].
  apply (ensure_required_columns_last_wins [lit "Názov"]
           [lit "Účet MD"; lit "Účet Dal"; lit "Stred."; lit "Zák."; lit "Činn."]
           (lit "NÁZOV ") Xml.nazov); [reflexivity| |vm_compute; reflexivity].
  intros h' Hh'.
  repeat (apply elem_of_cons in Hh' as [->|Hh']; [by vm_compute|]).
  by apply elem_of_nil in Hh'.
Defined.

Lemma attrs_from_prompts_last_round_witness :
  let round1 := [lit "1"; lit "2"; lit "3"; lit "4"; lit "5"; lit "6"; lit " N "] in
  let inputs := round1 ++ [lit " 250901 "; []; lit "1"; lit "ID UCTO"; lit "I"; lit "x";
                           []; lit "left over"] in
  ∃ attrs rest, Xml.attrs_from_prompts inputs = Some (attrs, rest)
    ∧ rest = [lit "left over"]
    ∧ attrs !! lit "cislo_ud" = Some (lit "250901")
    ∧ attrs !! lit "datum_ud" = Some []
    ∧ ∃ before a1 a2 a3 a4 a5 a6 ok,
        inputs = before ++ [a1; a2; a3; a4; a5; a6; ok] ++ rest
        ∧ (∃ n, length before = 7 * n)
        ∧ lower (strip ok) ≠ Xml.s_n
        ∧ attrs = Xml.prompted [a1; a2; a3; a4; a5; a6]
        ∧ (∀ i k a, Xml.DOC_ATTRS !! i = Some k → [a1; a2; a3; a4; a5; a6] !! i = Some a →
             attrs !! k = Some (strip a))
        ∧ Xml.attrs_from_prompts before = None.
Proof.
  intros round1 inputs. eexists _, _. split; [reflexivity|]. split; [reflexivity|].
  split; [by vm_compute|]. split; [by vm_compute|].
  apply (attrs_from_prompts_last_round inputs). reflexivity.
Defined.

Lemma blank_attribute_passes_then_vanishes_witness :
  ∃ attrs doc,
    Xml.attrs_from_cli Slovak.sample_cli_blank = inr attrs
    ∧ attrs !! lit "text_ud" = Some (lit "  ")
    ∧ Xml.children (Xml.build_xml attrs [Slovak.sample_row] Xml.CSV_HEADERS false) = [doc]
    ∧ Xml.attr_get (Xml.attrib doc) (lit "text_ud") = if false then Some [] else None.
Proof.
  apply (blank_attribute_passes_then_vanishes Slovak.sample_cli_blank
           (lit "text_ud") (lit "  ") [Slovak.sample_row] Xml.CSV_HEADERS false).
  - apply (bool_decide_unpack _). by vm_compute.
  - intros k' Hk'.
    repeat (apply elem_of_cons in Hk' as [->|Hk']; [eexists _, _; by vm_compute|]).
    by apply elem_of_nil in Hk'.
  - by vm_compute.
  - by vm_compute.
Defined.

Lemma main_writes_only_complete_witness :
  ∃ text, Xml.main true Slovak.sample_cli [] Slovak.sample_file false = Some (inr text)
    ∧ (∀ k, k ∈ Xml.DOC_ATTRS → ∃ c v, Slovak.sample_cli !! k = Some (Some (c :: v)))
    ∧ ∃ h d attrs cols body,
        Slovak.sample_file = h :: d
        ∧ Xml.attrs_from_cli Slovak.sample_cli = inr attrs
        ∧ Xml.ensure_required_columns h = inr cols
        ∧ (∀ k, ∃ c, c ∈ h
                     ∧ Xml.normalize_header c = Xml.normalize_header (Xml.CSV_HEADERS k))
        ∧ Xml.pretty_no_decl
            (Xml.build_xml attrs (Xml.read_rows Slovak.sample_file).1 cols false) = inr body
        ∧ text = Xml.s_decl ++ Xml.s_newline ++ body.
Proof.
  eexists. split; [vm_compute; reflexivity|].
  apply (main_writes_only_complete Slovak.sample_cli [] Slovak.sample_file false).
  vm_compute. reflexivity.
Defined.

Lemma read_rows_cells_witness :
  let fieldnames := [lit "Názov"; lit "Účet MD"; lit "Účet Dal"; lit "Stred."; lit "Zák."; lit "Činn."] in
  let data := [ [lit "Mzdy"; lit "221"; lit "521"; lit "10"; lit "20"; lit "100,50"];
                []; [lit "Odvody"; lit "336"; lit "524"] ] in
  let pos k := match k with
               | Xml.nazov => 0 | Xml.ucet_md => 1 | Xml.ucet_dal => 2
               | Xml.stred => 3 | Xml.zak => 4 | Xml.cinn => 5
               end in
  let rows := (Xml.read_rows (fieldnames :: data)).1 in
  NoDup fieldnames
  ∧ length (Xml.items_of (Xml.build_xml Slovak.sample_doc rows Xml.CSV_HEADERS false))
    = 2 * length (List.filter (λ r, bool_decide (r ≠ [])) data)
  ∧ ∀ r, let d := Xml.dict_row fieldnames r in
      Xml.m_attrs Xml.CSV_HEADERS d !! Xml.k_text_pud
      = Some (strip (or_empty (r !! pos Xml.nazov)))
      ∧ Xml.m_attrs Xml.CSV_HEADERS d !! Xml.k_os
        = Some (strip (or_empty (r !! pos Xml.stred)))
      ∧ Xml.m_attrs Xml.CSV_HEADERS d !! Xml.k_eo
        = Some (strip (or_empty (r !! pos Xml.zak)))
      ∧ Xml.m_attrs Xml.CSV_HEADERS d !! Xml.k_suma
        = Some (Xml.to_amount (r !! pos Xml.cinn))
      ∧ Xml.m_attrs Xml.CSV_HEADERS d !! Xml.k_ucet
        = Some (strip (or_empty (r !! pos Xml.ucet_md)))
      ∧ Xml.d_attrs Xml.CSV_HEADERS d !! Xml.k_ucet
        = Some (strip (or_empty (r !! pos Xml.ucet_dal))).
Proof.
  intros fieldnames data pos rows.
  assert (NoDup fieldnames) as Hnd by (apply (bool_decide_unpack _); by vm_compute).
  split; [exact Hnd|].
  apply (read_rows_cells fieldnames data Xml.CSV_HEADERS pos Slovak.sample_doc false Hnd).
  by intros [].
Defined.

Lemma padding_is_ignored_witness :
  let a := [SPACE; 9%N] in
  let b := [NBSP; LF] in
  Clean.clean_str (Some (a ++ lit "1,5" ++ b)) = Clean.clean_str (Some (lit "1,5"))
  ∧ Xml.normalize_header (a ++ lit "1,5" ++ b) = Xml.normalize_header (lit "1,5")
  ∧ App.normalize_header (Some (a ++ lit "1,5" ++ b)) = App.normalize_header (Some (lit "1,5"))
  ∧ Xml.to_amount (Some (a ++ lit "1,5" ++ b)) = Xml.to_amount (Some (lit "1,5")).
Proof.
  intros a b. apply (padding_is_ignored a (lit "1,5") b); intros x Hx;
    repeat (apply elem_of_cons in Hx as [->|Hx]; [reflexivity|]);
    by apply elem_of_nil in Hx.
Defined.

Lemma forward_fill_from_summary_idempotent_witness :
  ∃ out filled removed,
    Clean.forward_fill_from_summary Slovak.sample_group 3 = inr (out, filled, removed)
    ∧ Clean.forward_fill_from_summary out 3 = inr (out, 0, 0).
Proof.
  eexists _, _, _. split; [vm_compute; reflexivity|].
  eapply (forward_fill_from_summary_idempotent 3
            [lit "Názov"; lit "Účet MD"; lit "Účet Dal"; lit "Činn."]
            (tail Slovak.sample_group)); [|vm_compute; reflexivity].
  repeat (apply Forall_cons; split; [reflexivity|]). apply Forall_nil_2.
Defined.

End at_work.

(** ** clean_csv_header.py: the width of the rows *)

Section widths.
Import Py Clean.
Context `{Unicode}.

Lemma indices_where_mono {A} (f g : A → bool) s (l : list A) :
  (∀ x, f x = true → g x = true) →
  indices_where f s l `sublist_of` indices_where g s l.
Proof.
  intros Hfg. revert s. induction l as [|x l IH]; intros s; cbn; [done|].
  destruct (f x) eqn:Hf.
  - rewrite (Hfg x Hf). by apply sublist_skip.
  - destruct (g x); [by apply sublist_cons|done].
Qed.

Lemma target_is_wanted (name : pystr) :
  any_in target_patterns name = true → wanted name = true.
Proof.
  unfold any_in, wanted. rewrite !existsb_exists. intros (p & Hp & Hc).
  assert (Forall (λ p, Exists (λ ps, p ∈ ps) wanted_patterns) target_patterns) as Hall
    by (apply (bool_decide_unpack _); by vm_compute).
  rewrite Forall_forall in Hall. apply list_elem_of_In in Hp.
  apply Hall, Exists_exists in Hp as (ps & Hps & Hin).
  apply list_elem_of_In in Hps, Hin.
  exists ps. split; [done|]. unfold any_in. apply existsb_exists. by exists p.
Qed.

(** X27: Every column the numeric clean-up touches is a column the
    projector keeps: the numeric headers are among the wanted ones, in the
    same order.  The converse fails: an account column headed just [MD] or
    [Dal] is kept, and its cells keep their spaces. *)
Theorem numeric_columns_are_kept (h : row) :
  numeric_indices h `sublist_of` keep_indices h
  ∧ (∀ name, any_in target_patterns name = true → wanted name = true)
  ∧ ∀ i c, h !! i = Some c →
      normalize c = lit "md" ∨ normalize c = lit "dal" →
      i ∈ keep_indices h ∧ i ∉ numeric_indices h.
Proof.
  split_and!; [apply indices_where_mono, target_is_wanted|apply target_is_wanted|].
  intros i c Hc Hn. unfold keep_indices, numeric_indices.
  rewrite !elem_of_indices_where. setoid_rewrite Nat.sub_0_r.
  setoid_rewrite list_lookup_fmap. rewrite Hc. cbn [fmap option_fmap option_map]. split.
  - exists (normalize c). split_and!; [lia|done|]. by destruct Hn as [-> | ->].
  - intros (x & _ & [= <-] & Hx). by destruct Hn as [Hn|Hn]; rewrite Hn in Hx.
Qed.

Lemma fill_fold_widths cinn n (data : table) st st' :
  foldlM (fill_step cinn) st data = inr st' →
  Forall (λ p, length p = n) data →
  Forall (λ r, length r = n) (out st) →
  Forall (λ r, length r = n) (out st').
Proof.
  revert st. induction data as [|p data IH]; intros st.
  - by intros [= <-].
  - cbn [foldlM]. destruct (fill_step cinn st p) as [err|st1] eqn:Hstep; [done|].
    cbn [mbind result_bind]. intros Hfold Hdata Hout.
    apply Forall_cons in Hdata as [Hp Hdata]. apply (IH st1 Hfold Hdata).
    destruct (fill_step_cases _ _ _ _ Hstep)
      as [(_ & -> & _)|[(_ & _ & -> & _)|(_ & _ & _ & Hrow)]]; [done|done|].
    destruct Hrow as [(-> & _)|(c & cells & g & -> & _ & _ & _ & -> & _)].
    + apply Forall_app. split; [done|]. by apply Forall_singleton.
    + apply Forall_app. split; [done|]. by apply Forall_singleton.
Qed.

Lemma prepared_length (hr s : row) :
  keep_indices hr ≠ [] → length (prepared hr s) = length (keep_indices hr).
Proof.
  intros Hk. unfold prepared. rewrite strip_row_length. unfold project.
  destruct (keep_indices hr) eqn:Hkeep; [done|]. by rewrite length_fmap.
Qed.

(** X28: Once a column is kept, the table a run writes is rectangular:
    every row has as many cells as the header row, whatever the widths of
    the source rows were. *)
Theorem clean_csv_rectangular (rows : table) (run : run) (s : folded) :
  clean_csv rows = inr run → summary run = Some s →
  ∃ hr, rows !! header_index run = Some hr
    ∧ (keep_indices hr ≠ [] →
       ∀ r, r ∈ clean_rows run → length r = length (header s)).
Proof.
  intros Hrun Hs. destruct (clean_csv_unfold rows run Hrun) as (t & Hb & Ht).
  destruct (before_fold_shape rows _ _ t Hb) as (hr & n & _ & Hhr & Hshape).
  exists hr. split; [done|]. intros Hk.
  destruct t as [|h d]; [destruct Ht as [Hnone _]; congruence|].
  destruct Hshape as [?|[= -> ->]]; [done|].
  destruct Ht as (st & s' & cr & Hfold & Hs' & _ & _ & Hcr & Hlen & _ & Hhead & Hrows & _).
  rewrite Hs in Hs'. injection Hs' as <-.
  assert (Forall (λ r, length r = length (keep_indices hr)) (out st)) as Hout.
  { eapply fill_fold_widths; [exact Hfold| |].
    - apply Forall_take, Forall_forall. intros p Hp.
      apply list_elem_of_In, filter_In in Hp as [Hp _].
      apply list_elem_of_In, list_elem_of_fmap in Hp as (src & -> & _).
      by apply prepared_length.
    - apply Forall_singleton. unfold project.
      destruct (keep_indices hr) eqn:Hkeep; [done|]. by rewrite length_fmap. }
  assert (Forall (λ r, length r = length (keep_indices hr)) cr) as Hcrw.
  { subst cr. destruct (removed_last s); [by apply Forall_take|done]. }
  rewrite Forall_forall in Hcrw.
  assert (length (header s) = length (keep_indices hr)) as ->.
  { apply Hcrw. by eapply list_elem_of_lookup_2. }
  intros r Hr. rewrite Hrows in Hr. apply list_elem_of_In, filter_In in Hr as [Hr _].
  by apply Hcrw, list_elem_of_In.
Qed.

End widths.

Section widths_at_work.
#[local] Existing Instance Slovak.unicode.
Import Py.

Lemma clean_csv_rectangular_witness :
  ∃ run s, Clean.clean_csv Slovak.sample_export = inr run
    ∧ Clean.summary run = Some s
    ∧ ∃ hr, Slovak.sample_export !! Clean.header_index run = Some hr
        ∧ (Clean.keep_indices hr ≠ [] →
           ∀ r, r ∈ Clean.clean_rows run → length r = length (Clean.header s)).
Proof.
  eexists _, _. split; [vm_compute; reflexivity|]. split; [reflexivity|].
  apply (clean_csv_rectangular Slovak.sample_export); [vm_compute; reflexivity|reflexivity].
Defined.

End widths_at_work.
